(** * job_etl: a shallow embedding of the job-listing ETL pipeline

    The development follows [src/job_etl.py]: the Date Normalizer
    ([parse_datetime], [normalize_date]), the Transform and Filter stages,
    the three sinks and the orchestrator [run_etl].  The adapters and the
    network are one function of the environment, [feed]; the sinks write to
    files that the world holds by path.

    Python [str] values are modelled as sequences of code points below 256
    (Rocq's [string]); the character predicates are Python's own,
    restricted to that range.  Integers are unbounded ([Z]).  Exceptions
    are explicit: a computation that can raise returns a [result].  The
    library functions the source calls ([str] methods, [int], [datetime],
    [strptime] and the regular expressions behind it, [open], [sqlite3])
    are modelled after CPython 3.11 in the C locale.  POSIX timestamps are
    the [float] values of the source, binary64 numbers held exactly
    ([F64]). *)

From Stdlib Require Import ZArith List String Ascii Bool Lia.
Import ListNotations.

Open Scope string_scope.
Open Scope Z_scope.

(** ** Exceptions *)

Inductive exn : Type :=
| ValueError (msg : string)
| FetchError (url : string)
| OSError
| DatabaseError (msg : string).

Inductive result (A : Type) : Type :=
| Ok (a : A)
| Raised (e : exn).

Arguments Ok {A} a.
Arguments Raised {A} e.

Definition bind {A B : Type} (m : result A) (f : A -> result B) : result B :=
  match m with
  | Ok a => f a
  | Raised e => Raised e
  end.

Notation "x <- m ;; k" := (bind m (fun x => k))
  (at level 61, m at next level, right associativity).

(** ** Characters and strings *)

Module Str.

Definition code (c : ascii) : Z := Z.of_N (N_of_ascii c).

Definition between (lo hi : Z) (c : ascii) : bool :=
  (lo <=? code c) && (code c <=? hi).

(** [str.isspace] on one character: TAB..CR, FS..US, space, NEL, NBSP. *)
Definition isspace (c : ascii) : bool :=
  between 9 13 c || between 28 32 c || (code c =? 133) || (code c =? 160).

(** The decimal digits [0-9]: what [\d] matches and what [int] accepts. *)
Definition isdecimal (c : ascii) : bool := between 48 57 c.

(** [str.isdigit] on one character: the decimal digits and the superscript
    digits U+00B2, U+00B3 and U+00B9. *)
Definition isdigit_char (c : ascii) : bool :=
  isdecimal c || (code c =? 178) || (code c =? 179) || (code c =? 185).

(** [str.lower] on one character: A-Z and the accented capitals
    U+00C0..U+00DE, the multiplication sign U+00D7 apart. *)
Definition lower_char (c : ascii) : ascii :=
  if between 65 90 c || (between 192 222 c && negb (code c =? 215))
  then ascii_of_N (Z.to_N (code c + 32))
  else c.

Fixpoint lower (s : string) : string :=
  match s with
  | EmptyString => EmptyString
  | String c r => String (lower_char c) (lower r)
  end.

Fixpoint all_chars (p : ascii -> bool) (s : string) : bool :=
  match s with
  | EmptyString => true
  | String c r => p c && all_chars p r
  end.

Definition is_empty (s : string) : bool :=
  match s with EmptyString => true | _ => false end.

(** The 256 characters. *)
Definition all_chars_list : list ascii := map ascii_of_nat (seq 0 256).

(** [value.isdigit()]: at least one character, all of them digits. *)
Definition isdigit (s : string) : bool :=
  negb (is_empty s) && all_chars isdigit_char s.

Fixpoint lstrip (s : string) : string :=
  match s with
  | EmptyString => EmptyString
  | String c r => if isspace c then lstrip r else s
  end.

Fixpoint rstrip (s : string) : string :=
  match s with
  | EmptyString => EmptyString
  | String c r =>
      let r' := rstrip r in
      if isspace c && is_empty r' then EmptyString else String c r'
  end.

(** [value.strip()] *)
Definition strip (s : string) : string := rstrip (lstrip s).

Fixpoint starts_with (p s : string) : bool :=
  match p, s with
  | EmptyString, _ => true
  | String a p', String b s' => Ascii.eqb a b && starts_with p' s'
  | String _ _, EmptyString => false
  end.

(** [sub in s] *)
Fixpoint contains (sub s : string) : bool :=
  starts_with sub s ||
  match s with
  | EmptyString => false
  | String _ r => contains sub r
  end.

Fixpoint last_char (s : string) : option ascii :=
  match s with
  | EmptyString => None
  | String c EmptyString => Some c
  | String _ r => last_char r
  end.

Definition first_char (s : string) : option ascii :=
  match s with
  | EmptyString => None
  | String c _ => Some c
  end.

Fixpoint drop (n : nat) (s : string) : string :=
  match n, s with
  | O, _ => s
  | S n', String _ r => drop n' r
  | S _, EmptyString => EmptyString
  end.

Fixpoint take (n : nat) (s : string) : string :=
  match n, s with
  | S n', String c r => String c (take n' r)
  | _, _ => EmptyString
  end.

(** [s[i:j]] for [0 <= i <= j] *)
Definition slice (i j : nat) (s : string) : string := take (j - i) (drop i s).

Definition digit_val (c : ascii) : Z := code c - 48.

(** The digit part of an integer literal: decimal digits, single
    underscores allowed between two digits. *)
Fixpoint int_digits (acc : Z) (after_digit : bool) (s : string) : option Z :=
  match s with
  | EmptyString => if after_digit then Some acc else None
  | String c r =>
      if isdecimal c then int_digits (10 * acc + digit_val c) true r
      else if Ascii.eqb c "_" && after_digit then
        match r with
        | String d _ => if isdecimal d then int_digits acc false r else None
        | EmptyString => None
        end
      else None
  end.

(** [len(s)] *)
Definition len (s : string) : Z := Z.of_nat (String.length s).

(** How many characters of [s] pass [p]. *)
Fixpoint count (p : ascii -> bool) (s : string) : Z :=
  match s with
  | EmptyString => 0
  | String c r => (if p c then 1 else 0) + count p r
  end.

(** [sys.get_int_max_str_digits()]: CPython's limit on the digits of a
    decimal literal that [int] converts. *)
Definition MAX_STR_DIGITS : Z := 4300.

(** [int(s)]; [None] stands for [ValueError], which is also what a literal
    of more than [MAX_STR_DIGITS] digits raises (underscores, the sign and
    the surrounding whitespace do not count). *)
Definition int (s : string) : option Z :=
  let t := strip s in
  if MAX_STR_DIGITS <? count isdecimal t then None
  else
    match t with
    | String c r =>
        if Ascii.eqb c "+" then int_digits 0 false r
        else if Ascii.eqb c "-" then option_map Z.opp (int_digits 0 false r)
        else int_digits 0 false t
    | EmptyString => None
    end.

Definition digit_char (k : Z) : ascii := ascii_of_N (Z.to_N (48 + k)).

(** ["%02d" % n], ["%04d" % n] and ["%06d" % n] on a field already checked
    to lie in [0, 10^width). *)
Definition zfill2 (n : Z) : string :=
  String (digit_char (n / 10)) (String (digit_char (n mod 10)) "").

Definition zfill4 (n : Z) : string :=
  zfill2 (n / 100) ++ zfill2 (n mod 100).

Definition zfill6 (n : Z) : string :=
  zfill2 (n / 10000) ++ zfill4 (n mod 10000).

End Str.

(** ** The proleptic Gregorian calendar of [datetime] *)

Module Calendar.

Definition is_leap (year : Z) : bool :=
  (year mod 4 =? 0) && (negb (year mod 100 =? 0) || (year mod 400 =? 0)).

Definition DAYS_IN_MONTH (month : Z) : Z :=
  match month with
  | 1 => 31 | 2 => 28 | 3 => 31 | 4 => 30 | 5 => 31 | 6 => 30
  | 7 => 31 | 8 => 31 | 9 => 30 | 10 => 31 | 11 => 30 | 12 => 31
  | _ => -1
  end.

Definition DAYS_BEFORE_MONTH (month : Z) : Z :=
  match month with
  | 1 => 0 | 2 => 31 | 3 => 59 | 4 => 90 | 5 => 120 | 6 => 151
  | 7 => 181 | 8 => 212 | 9 => 243 | 10 => 273 | 11 => 304 | 12 => 334
  | _ => -1
  end.

Definition days_before_year (year : Z) : Z :=
  let y := year - 1 in y * 365 + y / 4 - y / 100 + y / 400.

Definition days_in_month (year month : Z) : Z :=
  if (month =? 2) && is_leap year then 29 else DAYS_IN_MONTH month.

Definition days_before_month (year month : Z) : Z :=
  DAYS_BEFORE_MONTH month + (if (2 <? month) && is_leap year then 1 else 0).

Definition ymd2ord (year month day : Z) : Z :=
  days_before_year year + days_before_month year month + day.

Definition DI400Y : Z := 146097.
Definition DI100Y : Z := 36524.
Definition DI4Y : Z := 1461.

(** ordinal -> (year, month, day), with 0001-01-01 as day 1 *)
Definition ord2ymd (ordinal : Z) : Z * Z * Z :=
  let n := ordinal - 1 in
  let n400 := n / DI400Y in
  let n := n mod DI400Y in
  let year := n400 * 400 + 1 in
  let n100 := n / DI100Y in
  let n := n mod DI100Y in
  let n4 := n / DI4Y in
  let n := n mod DI4Y in
  let n1 := n / 365 in
  let n := n mod 365 in
  let year := year + n100 * 100 + n4 * 4 + n1 in
  if (n1 =? 4) || (n100 =? 4) then (year - 1, 12, 31)
  else
    let leapyear := (n1 =? 3) && (negb (n4 =? 24) || (n100 =? 3)) in
    let month := Z.shiftr (n + 50) 5 in
    let preceding :=
      DAYS_BEFORE_MONTH month + (if (2 <? month) && leapyear then 1 else 0) in
    if n <? preceding then
      let month := month - 1 in
      let preceding :=
        preceding
        - (DAYS_IN_MONTH month + (if (month =? 2) && leapyear then 1 else 0)) in
      (year, month, n - preceding + 1)
    else (year, month, n - preceding + 1).

(** The ordinal of 1970-01-01. *)
Definition EPOCH_ORDINAL : Z := 719163.

End Calendar.

(** ** [datetime] values *)

Module DT.
Import Calendar.

Definition MINYEAR : Z := 1.
Definition MAXYEAR : Z := 9999.

(** A [datetime]; [tzinfo] is [None] for a naive value and holds the UTC
    offset of its fixed-offset [timezone], in microseconds, for an aware
    one. *)
Record datetime : Type := mk_datetime {
  year : Z;
  month : Z;
  day : Z;
  hour : Z;
  minute : Z;
  second : Z;
  microsecond : Z;
  tzinfo : option Z
}.

Definition check_date_fields (y m d : Z) : bool :=
  (MINYEAR <=? y) && (y <=? MAXYEAR) && (1 <=? m) && (m <=? 12)
  && (1 <=? d) && (d <=? days_in_month y m).

Definition check_time_fields (h mi s us : Z) : bool :=
  (0 <=? h) && (h <=? 23) && (0 <=? mi) && (mi <=? 59)
  && (0 <=? s) && (s <=? 59) && (0 <=? us) && (us <=? 999999).

(** [datetime(y, m, d, h, mi, s, us, tz)]; [None] stands for [ValueError]. *)
Definition datetime_new (y m d h mi s us : Z) (tz : option Z) : option datetime :=
  if check_date_fields y m d && check_time_fields h mi s us
  then Some (mk_datetime y m d h mi s us tz)
  else None.

Definition US_PER_SECOND : Z := 1000000.
Definition US_PER_DAY : Z := 86400 * US_PER_SECOND.

(** [timezone(timedelta(seconds=..., microseconds=...))]: the offset has to
    lie strictly between -24 h and +24 h. *)
Definition timezone_new (offset_us : Z) : option Z :=
  if (- US_PER_DAY <? offset_us) && (offset_us <? US_PER_DAY)
  then Some offset_us
  else None.

(** [time.gmtime(t)], as (year, month, day, hour, minute, second). *)
Definition gmtime (t : Z) : Z * Z * Z * Z * Z * Z :=
  let days := t / 86400 in
  let rem := t mod 86400 in
  let '(y, m, d) := ord2ymd (days + EPOCH_ORDINAL) in
  (y, m, d, rem / 3600, (rem mod 3600) / 60, rem mod 60).

(** [datetime.utcfromtimestamp(t)] for an integer [t]: a naive value.
    Out of the years 1..9999 CPython raises [ValueError] (or, far beyond the
    platform's [time_t], [OverflowError]); no caller tells them apart and the
    model reports both as [ValueError]. *)
Definition utcfromtimestamp (t : Z) : result datetime :=
  let '(y, m, d, hh, mm, ss) := gmtime t in
  match datetime_new y m d hh mm ss 0 None with
  | Some dt => Ok dt
  | None => Raised (ValueError "year is out of range")
  end.

Definition date_isoformat (dt : datetime) : string :=
  Str.zfill4 (year dt) ++ "-" ++ Str.zfill2 (month dt) ++ "-"
  ++ Str.zfill2 (day dt).

Definition format_time (dt : datetime) : string :=
  Str.zfill2 (hour dt) ++ ":" ++ Str.zfill2 (minute dt) ++ ":"
  ++ Str.zfill2 (second dt)
  ++ (if microsecond dt =? 0 then "" else "." ++ Str.zfill6 (microsecond dt)).

Definition format_offset (off : option Z) : string :=
  match off with
  | None => ""
  | Some off =>
      let sign := if off <? 0 then "-" else "+" in
      let off := if off <? 0 then - off else off in
      let hh := off / (3600 * US_PER_SECOND) in
      let mm := off mod (3600 * US_PER_SECOND) in
      let ss := mm mod (60 * US_PER_SECOND) in
      let mm := mm / (60 * US_PER_SECOND) in
      sign ++ Str.zfill2 hh ++ ":" ++ Str.zfill2 mm
      ++ (if ss =? 0 then ""
          else ":" ++ Str.zfill2 (ss / US_PER_SECOND)
               ++ (if ss mod US_PER_SECOND =? 0 then ""
                   else "." ++ Str.zfill6 (ss mod US_PER_SECOND)))
  end.

(** [dt.isoformat()] *)
Definition isoformat (dt : datetime) : string :=
  date_isoformat dt ++ "T" ++ format_time dt ++ format_offset (tzinfo dt).

(** Seconds from 0001-01-01T00:00:00 minus one day, as CPython's
    [utc_to_seconds] counts them. *)
Definition utc_to_seconds (y m d hh mm ss : Z) : Z :=
  ymd2ord y m d * 86400 + hh * 3600 + mm * 60 + ss.

Definition EPOCH_SECONDS : Z := EPOCH_ORDINAL * 86400.

End DT.

(** ** Backtracking regular expressions, as [re.match] runs them *)

Module Re.

Inductive re : Type :=
| Eps
| Chr (p : ascii -> bool)
| Seq (r1 r2 : re)
| Alt (r1 r2 : re)
| Plus (p : ascii -> bool)
| Group (name : string) (r : re).

(** [r?], greedy *)
Definition Opt (r : re) : re := Alt r Eps.

(** The named groups of a match, latest first. *)
Definition groups : Type := list (string * string).

Fixpoint lookup (name : string) (g : groups) : option string :=
  match g with
  | [] => None
  | (n, v) :: g' => if String.eqb n name then Some v else lookup name g'
  end.

Section Matcher.

Variable A : Type.

(** A continuation receives the text still to match, the text consumed
    since the enclosing group was opened, and the groups closed so far. *)
Definition cont : Type := string -> string -> groups -> option A.

(** [p+]: the longest run first, then shorter ones. *)
Fixpoint plus_run (p : ascii -> bool) (s acc : string) (g : groups) (k : cont)
  : option A :=
  match s with
  | EmptyString => None
  | String c r =>
      if p c then
        match plus_run p r (acc ++ String c "") g k with
        | Some x => Some x
        | None => k r (acc ++ String c "") g
        end
      else None
  end.

Fixpoint run (r : re) (s acc : string) (g : groups) (k : cont) : option A :=
  match r with
  | Eps => k s acc g
  | Chr p =>
      match s with
      | String c s' => if p c then k s' (acc ++ String c "") g else None
      | EmptyString => None
      end
  | Seq r1 r2 => run r1 s acc g (fun s' acc' g' => run r2 s' acc' g' k)
  | Alt r1 r2 =>
      match run r1 s acc g k with
      | Some x => Some x
      | None => run r2 s acc g k
      end
  | Plus p => plus_run p s acc g k
  | Group name r1 =>
      run r1 s "" g
        (fun s' acc' g' => k s' (acc ++ acc') ((name, acc') :: g'))
  end.

End Matcher.

(** A continuation that fails on every text starting with a digit. *)
Definition digit_shy {A : Type} (k : cont A) : Prop :=
  forall c s acc g, Str.isdecimal c = true -> k (String c s) acc g = None.

(** Every character the expression can consume passes [P]. *)
Fixpoint chars_ok (P : ascii -> bool) (r : re) : Prop :=
  match r with
  | Eps => True
  | Chr p | Plus p => forall c, p c = true -> P c = true
  | Seq r1 r2 | Alt r1 r2 => chars_ok P r1 /\ chars_ok P r2
  | Group _ r1 => chars_ok P r1
  end.

(** [pattern.match(s)]: the first match in priority order, as the text left
    after it and its named groups. *)
Definition match_prefix (r : re) (s : string) : option (string * groups) :=
  run (string * groups) r s "" [] (fun s' _ g => Some (s', g)).

(** Equality of characters under [IGNORECASE]. *)
Definition ieq (c x : ascii) : bool :=
  Ascii.eqb (Str.lower_char x) (Str.lower_char c).

(** A literal of a pattern compiled with [IGNORECASE]. *)
Definition lit (c : ascii) : re := Chr (ieq c).

(** A literal under [(?-i:...)]. *)
Definition lit_exact (c : ascii) : re := Chr (Ascii.eqb c).

(** [[lo-hi]] *)
Definition range (lo hi : ascii) : re :=
  Chr (Str.between (Str.code lo) (Str.code hi)).

(** [\d] *)
Definition digit : re := Chr Str.isdecimal.

Fixpoint word (w : string) : re :=
  match w with
  | EmptyString => Eps
  | String c EmptyString => lit c
  | String c r => Seq (lit c) (word r)
  end.

Fixpoint one_of (names : list string) : re :=
  match names with
  | [] => Chr (fun _ => false)
  | [n] => word n
  | n :: rest => Alt (word n) (one_of rest)
  end.

Fixpoint seq (rs : list re) : re :=
  match rs with
  | [] => Eps
  | [r] => r
  | r :: rest => Seq r (seq rest)
  end.

Fixpoint alt (rs : list re) : re :=
  match rs with
  | [] => Chr (fun _ => false)
  | [r] => r
  | r :: rest => Alt r (alt rest)
  end.

End Re.

(** ** [datetime.strptime], after CPython's [_strptime] (C locale) *)

Module Strptime.
Import Re.

Definition a_weekday : list string :=
  ["mon"; "tue"; "wed"; "thu"; "fri"; "sat"; "sun"].

Definition a_month : list string :=
  [""; "jan"; "feb"; "mar"; "apr"; "may"; "jun";
   "jul"; "aug"; "sep"; "oct"; "nov"; "dec"].

(** The entries of [TimeRE] the three formats of the source use. *)

(** [(?P<d>3[0-1]|[1-2]\d|0[1-9]|[1-9]| [1-9])] *)
Definition re_d : re :=
  Group "d" (alt [seq [lit "3"; range "0" "1"];
                  seq [range "1" "2"; digit];
                  seq [lit "0"; range "1" "9"];
                  range "1" "9";
                  seq [lit " "; range "1" "9"]]).

(** [(?P<H>2[0-3]|[0-1]\d|\d)] *)
Definition re_H : re :=
  Group "H" (alt [seq [lit "2"; range "0" "3"];
                  seq [range "0" "1"; digit];
                  digit]).

(** [(?P<m>1[0-2]|0[1-9]|[1-9])] *)
Definition re_m : re :=
  Group "m" (alt [seq [lit "1"; range "0" "2"];
                  seq [lit "0"; range "1" "9"];
                  range "1" "9"]).

(** [(?P<M>[0-5]\d|\d)] *)
Definition re_M : re :=
  Group "M" (alt [seq [range "0" "5"; digit]; digit]).

(** [(?P<S>6[0-1]|[0-5]\d|\d)] *)
Definition re_S : re :=
  Group "S" (alt [seq [lit "6"; range "0" "1"];
                  seq [range "0" "5"; digit];
                  digit]).

(** [(?P<Y>\d\d\d\d)] *)
Definition re_Y : re := Group "Y" (seq [digit; digit; digit; digit]).

Definition sign_char (c : ascii) : bool := Ascii.eqb c "+" || Ascii.eqb c "-".

(** [\d{1,6}] *)
Definition digits_1_6 : re :=
  seq [digit; Opt (seq [digit; Opt (seq [digit; Opt (seq [digit;
       Opt (seq [digit; Opt digit])])])])].

(** [(?P<z>[+-]\d\d:?[0-5]\d(:?[0-5]\d(\.\d{1,6})?)?|(?-i:Z))] *)
Definition re_z : re :=
  Group "z"
    (Alt (seq [Chr sign_char; digit; digit; Opt (lit ":"); range "0" "5"; digit;
               Opt (seq [Opt (lit ":"); range "0" "5"; digit;
                         Opt (seq [lit "."; digits_1_6])])])
         (lit_exact "Z")).

Definition re_a : re := Group "a" (one_of a_weekday).

Definition re_b : re := Group "b" (one_of (tl a_month)).

Definition directive (d : ascii) : option re :=
  if Ascii.eqb d "d" then Some re_d
  else if Ascii.eqb d "H" then Some re_H
  else if Ascii.eqb d "m" then Some re_m
  else if Ascii.eqb d "M" then Some re_M
  else if Ascii.eqb d "S" then Some re_S
  else if Ascii.eqb d "Y" then Some re_Y
  else if Ascii.eqb d "z" then Some re_z
  else if Ascii.eqb d "a" then Some re_a
  else if Ascii.eqb d "b" then Some re_b
  else None.

(** [TimeRE.pattern]: a run of whitespace in the format stands for [\s+],
    [%x] for the regex of directive [x], anything else for itself. *)
Fixpoint pattern (format : string) : option re :=
  match format with
  | EmptyString => Some Eps
  | String c rest =>
      if Ascii.eqb c "%" then
        match rest with
        | String d rest' =>
            match directive d, pattern rest' with
            | Some r, Some r' => Some (Seq r r')
            | _, _ => None
            end
        | EmptyString => None
        end
      else if Str.isspace c then
        match rest with
        | String c' _ =>
            if Str.isspace c' then pattern rest
            else option_map (Seq (Plus Str.isspace)) (pattern rest)
        | EmptyString => option_map (Seq (Plus Str.isspace)) (pattern rest)
        end
      else option_map (Seq (lit c)) (pattern rest)
  end.

Fixpoint index_of (x : string) (l : list string) : option Z :=
  match l with
  | [] => None
  | y :: l' =>
      if String.eqb x y then Some 0 else option_map Z.succ (index_of x l')
  end.

Fixpoint zeros (n : nat) : string :=
  match n with
  | O => ""
  | S n' => String "0" (zeros n')
  end.

Definition nth_char (i : nat) (s : string) : option ascii :=
  Str.first_char (Str.drop i s).

Definition is_char (c : ascii) (o : option ascii) : bool :=
  match o with
  | Some x => Ascii.eqb x c
  | None => false
  end.

(** The [%z] branch: the offset in seconds and its microseconds. *)
Definition parse_z (z0 : string) : option (Z * Z) :=
  if String.eqb z0 "Z" then Some (0, 0)
  else
    let z1 :=
      if is_char ":" (nth_char 3 z0) then
        let z := Str.take 3 z0 ++ Str.drop 4 z0 in
        if (5 <? String.length z)%nat then
          if is_char ":" (nth_char 5 z)
          then Some (Str.take 5 z ++ Str.drop 6 z)
          else None
        else Some z
      else Some z0 in
    match z1 with
    | None => None
    | Some z =>
        match Str.int (Str.slice 1 3 z), Str.int (Str.slice 3 5 z),
              (if Str.is_empty (Str.slice 5 7 z) then Some 0
               else Str.int (Str.slice 5 7 z)) with
        | Some hours, Some minutes, Some seconds =>
            let gmtoff := hours * 60 * 60 + minutes * 60 + seconds in
            let gmtoff_remainder := Str.drop 8 z in
            let padding := zeros (6 - String.length gmtoff_remainder) in
            match Str.int (gmtoff_remainder ++ padding) with
            | Some gmtoff_fraction =>
                if Str.starts_with "-" z
                then Some (- gmtoff, - gmtoff_fraction)
                else Some (gmtoff, gmtoff_fraction)
            | None => None
            end
        | _, _, _ => None
        end
    end.

Definition int_group (name : string) (default : Z) (g : groups) : option Z :=
  match lookup name g with
  | Some s => Str.int s
  | None => Some default
  end.

(** The month comes from [%m] or from [%b]. *)
Definition month_group (g : groups) : option Z :=
  match lookup "m" g, lookup "b" g with
  | Some s, _ => Str.int s
  | None, Some s => index_of (Str.lower s) a_month
  | None, None => Some 1
  end.

Definition tz_group (g : groups) : option (option Z) :=
  match lookup "z" g with
  | None => Some None
  | Some z =>
      match parse_z z with
      | None => None
      | Some (gmtoff, gmtoff_fraction) =>
          option_map Some
            (DT.timezone_new (gmtoff * DT.US_PER_SECOND + gmtoff_fraction))
      end
  end.

(** The fields of a match turned into a [datetime]; the day of the week of
    [%a] is read and not used.  Every format of the source has [%Y]; 1900 is
    the library's default year. *)
Definition build (g : groups) : option DT.datetime :=
  match int_group "Y" 1900 g, month_group g, int_group "d" 1 g,
        int_group "H" 0 g, int_group "M" 0 g, int_group "S" 0 g,
        tz_group g with
  | Some y, Some m, Some d, Some hh, Some mm, Some ss, Some tz =>
      DT.datetime_new y m d hh mm ss 0 tz
  | _, _, _, _, _, _, _ => None
  end.

(** [datetime.strptime(data_string, format)]; [None] stands for
    [ValueError]. *)
Definition strptime (data_string format : string) : option DT.datetime :=
  match pattern format with
  | None => None
  | Some r =>
      match match_prefix r data_string with
      | None => None
      | Some (rest, g) => if Str.is_empty rest then build g else None
      end
  end.

End Strptime.

(** ** The pipeline of [job_etl.py] *)

Record JobRecord : Type := mk_JobRecord {
  source : string;
  source_id : string;
  title : string;
  company : string;
  location : string;
  url : string;
  tags : string;
  date_posted : string;
  salary : string;
  description : string
}.

Definition FORMATS : list string :=
  ["%Y-%m-%dT%H:%M:%S%z"; "%a, %d %b %Y %H:%M:%S %z"; "%Y-%m-%d"].

Fixpoint try_formats (value : string) (fmts : list string) : option DT.datetime :=
  match fmts with
  | [] => None
  | fmt :: rest =>
      match Strptime.strptime value fmt with
      | Some dt => Some dt
      | None => try_formats value rest
      end
  end.

Definition parse_datetime (value : string) : result (option DT.datetime) :=
  if Str.is_empty value then Ok None
  else if Str.isdigit value then
    match Str.int value with
    | Some t => dt <- DT.utcfromtimestamp t ;; Ok (Some dt)
    | None => Raised (ValueError "invalid literal for int() with base 10")
    end
  else Ok (try_formats value FORMATS).

Definition normalize_date (value : string) : result string :=
  parsed <- parse_datetime value ;;
  match parsed with
  | None => Ok ""
  | Some dt =>
      if Str.isdigit value || Str.contains "T" value || Str.contains ":" value
      then Ok (DT.isoformat dt)
      else Ok (DT.date_isoformat dt)
  end.

Definition transform_record (record : JobRecord) : result JobRecord :=
  date <- normalize_date (date_posted record) ;;
  Ok (mk_JobRecord
        (source record)
        (source_id record)
        (Str.strip (title record))
        (Str.strip (company record))
        (Str.strip (location record))
        (Str.strip (url record))
        (Str.strip (tags record))
        date
        (Str.strip (salary record))
        (Str.strip (description record))).

Fixpoint transform_loop (records cleaned : list JobRecord)
  : result (list JobRecord) :=
  match records with
  | [] => Ok cleaned
  | record :: rest =>
      r <- transform_record record ;;
      transform_loop rest (cleaned ++ [r])%list
  end.

Definition transform (records : list JobRecord) : result (list JobRecord) :=
  transform_loop records [].

(** ** Floating point *)

(** The [float] values that timestamps take.  A binary64 number is held
    exactly, as a whole multiple of [2^-128]: the numbers met here, seconds
    with their microseconds, are zero or above [2^-20] in magnitude, and
    their 53 significant bits end far above [2^-128]. *)
Module F64.

Definition t : Type := Z.

(** The number 1. *)
Definition one : Z := 2 ^ 128.

(** [n / d] rounded to a whole number, halves to the even neighbour;
    [0 <= n], [0 < d]. *)
Definition round_half_even (n d : Z) : Z :=
  let q := n / d in
  let r := n mod d in
  if 2 * r <? d then q
  else if d <? 2 * r then q + 1
  else if Z.even q then q else q + 1.

(** The binary64 number nearest to [n / d] of [one], ties to the even
    significand: 53 significant bits are kept. *)
Definition nearest (n d : Z) : t :=
  let a := Z.abs n in
  let last_place := 2 ^ (Z.log2 (a / d) - 52) in
  let rounded :=
    if Z.log2 (a / d) <=? 52 then round_half_even a d
    else round_half_even a (d * last_place) * last_place in
  if n <? 0 then - rounded else rounded.

(** The conversion of an integer to [float]. *)
Definition of_int (n : Z) : t := nearest (n * one) 1.

(** [n / d] for two integers (the true division of Python), which is also
    the quotient of the two as floats when both convert exactly. *)
Definition div_int (n d : Z) : t := nearest (n * one) d.

(** [x + y] and [x - y] *)
Definition add (x y : t) : t := nearest (x + y) 1.
Definition sub (x y : t) : t := nearest (x - y) 1.

(** [x < y] *)
Definition ltb (x y : t) : bool := x <? y.

(** A float counted in microseconds, to the nearest whole microsecond. *)
Definition micros (x : t) : Z := (2 * x * 1000000 + one) / (2 * one).

End F64.

(** ** The clock and the local time zone *)

(** What a run reads from its machine: the POSIX time in microseconds, the
    rule of the local time zone (seconds east of UTC at a POSIX time) and
    what each portal's feed holds, already mapped to records by the
    adapter. *)
Record Env : Type := mk_Env {
  now_us : Z;
  utcoffset : Z -> Z;
  feed : string -> result (list JobRecord)
}.

Module Clock.
Import DT.

(** CPython's [local]: the local wall clock at [u], both counted in seconds
    on the scale of [utc_to_seconds]; a local year out of 1..9999 is a
    [ValueError]. *)
Definition local (tz : Z -> Z) (u : Z) : result Z :=
  let lt := u + tz (u - EPOCH_SECONDS) in
  if (MINYEAR * 86400 <=? lt) && (lt <? (3652059 + 1) * 86400)
  then Ok lt
  else Raised (ValueError "year is out of range").

Definition max_fold_seconds : Z := 24 * 3600.

(** CPython's [local_to_seconds] with [fold = 0]: solve [t = local u]. *)
Definition local_to_seconds (tz : Z -> Z) (t : Z) : result Z :=
  lt <- local tz t ;;
  let a := lt - t in
  let u1 := t - a in
  t1 <- local tz u1 ;;
  let continue (b : Z) : result Z :=
    let u2 := t - b in
    t2 <- local tz u2 ;;
    if t2 =? t then Ok u2
    else if t1 =? t then Ok u1
    else Ok (Z.max u1 u2) in
  if t1 =? t then
    let u2 := u1 - max_fold_seconds in
    lt2 <- local tz u2 ;;
    let b := lt2 - u2 in
    if a =? b then Ok u1 else continue b
  else continue (t1 - u1).

(** [dt.timestamp()]: for a naive value the seconds of [local_to_seconds]
    plus [microsecond / 1e6], for an aware one the quotient of the
    microseconds since the epoch by [10**6]. *)
Definition timestamp (tz : Z -> Z) (dt : datetime) : result F64.t :=
  let t := utc_to_seconds (year dt) (month dt) (day dt)
                          (hour dt) (minute dt) (second dt) in
  match tzinfo dt with
  | None =>
      seconds <- local_to_seconds tz t ;;
      Ok (F64.add (F64.of_int (seconds - EPOCH_SECONDS))
                  (F64.div_int (microsecond dt) US_PER_SECOND))
  | Some off =>
      Ok (F64.div_int ((t - EPOCH_SECONDS) * US_PER_SECOND + microsecond dt - off)
                      US_PER_SECOND)
  end.

(** [datetime.utcnow()]: a naive value holding the UTC wall clock. *)
Definition utcnow (now : Z) : result datetime :=
  let '(y, m, d, hh, mm, ss) := gmtime (now / US_PER_SECOND) in
  match datetime_new y m d hh mm ss (now mod US_PER_SECOND) None with
  | Some dt => Ok dt
  | None => Raised (ValueError "year is out of range")
  end.

End Clock.

Definition title_matches (title : string) (lowered_titles : list string) : bool :=
  let lowered_title := Str.lower title in
  existsb (fun search => Str.contains search lowered_title) lowered_titles.

Definition is_nil {A : Type} (l : list A) : bool :=
  match l with [] => true | _ => false end.

Fixpoint filter_loop (tz : Z -> Z) (cutoff : F64.t) (lowered_titles : list string)
    (records filtered : list JobRecord) : result (list JobRecord) :=
  match records with
  | [] => Ok filtered
  | record :: rest =>
      if negb (is_nil lowered_titles)
         && negb (title_matches (title record) lowered_titles)
      then filter_loop tz cutoff lowered_titles rest filtered
      else
        parsed <- parse_datetime (date_posted record) ;;
        match parsed with
        | None => filter_loop tz cutoff lowered_titles rest filtered
        | Some dt =>
            ts <- Clock.timestamp tz dt ;;
            if F64.ltb ts cutoff
            then filter_loop tz cutoff lowered_titles rest filtered
            else filter_loop tz cutoff lowered_titles rest
                   (filtered ++ [record])%list
        end
  end.

(** [datetime.utcnow().timestamp() - 24 * 60 * 60] *)
Definition cutoff_float (env : Env) : result F64.t :=
  now <- Clock.utcnow (now_us env) ;;
  ts <- Clock.timestamp (utcoffset env) now ;;
  Ok (F64.sub ts (F64.of_int (24 * 60 * 60))).

(** The cutoff counted in microseconds, to the nearest one. *)
Definition cutoff_of (env : Env) : result Z :=
  cutoff <- cutoff_float env ;;
  Ok (F64.micros cutoff).

Definition filter_jobs (env : Env) (records : list JobRecord)
    (titles : list string) : result (list JobRecord) :=
  cutoff <- cutoff_float env ;;
  let lowered_titles := map Str.lower titles in
  filter_loop (utcoffset env) cutoff lowered_titles records [].

(** ** Sinks *)

Definition same_key (a b : JobRecord) : bool :=
  String.eqb (source a) (source b) && String.eqb (source_id a) (source_id b).

(** The table [jobs]: its rows, in insertion order. *)
Definition table : Type := list JobRecord.

(** [INSERT OR REPLACE INTO jobs ...] under [PRIMARY KEY (source, source_id)]:
    the row in conflict, if any, is deleted and the new row inserted. *)
Definition insert_or_replace (t : table) (row : JobRecord) : table :=
  (filter (fun r => negb (same_key r row)) t ++ [row])%list.

(** [conn.executemany(...)] over the records, on the table as found (or
    created empty) at [path]. *)
Definition load_to_sqlite (records : list JobRecord) (t : table) : table :=
  fold_left insert_or_replace records t.

(** ** More of [str] *)

Module Text.

(** [sep.join(parts)] *)
Fixpoint join (sep : string) (parts : list string) : string :=
  match parts with
  | [] => ""
  | part :: rest =>
      match rest with
      | [] => part
      | _ :: _ => part ++ sep ++ join sep rest
      end
  end.

(** [s.split(sep)] for a separator of one character. *)
Fixpoint split (sep : ascii) (s : string) : list string :=
  match s with
  | EmptyString => [EmptyString]
  | String c r =>
      if Ascii.eqb c sep then EmptyString :: split sep r
      else
        match split sep r with
        | first :: more => String c first :: more
        | [] => [String c EmptyString]
        end
  end.

(** [s.rsplit(sep, 1)] for a separator of one character: one cut, at the
    last separator, when there is one. *)
Fixpoint rsplit1 (sep : ascii) (s : string) : list string :=
  match s with
  | EmptyString => [EmptyString]
  | String c r =>
      match rsplit1 sep r with
      | [head; tail] => [String c head; tail]
      | _ => if Ascii.eqb c sep then [EmptyString; r] else [String c r]
      end
  end.

(** The decimal digits of [n], most significant first, in front of [acc];
    [fuel] bounds their number. *)
Fixpoint digits_of (fuel : nat) (n : Z) (acc : string) : string :=
  match fuel with
  | O => acc
  | S fuel' =>
      let acc' := String (Str.digit_char (n mod 10)) acc in
      if n <? 10 then acc' else digits_of fuel' (n / 10) acc'
  end.

(** [str(n)] for an integer: a number below [2^k] has [k] digits at most. *)
Definition of_int (n : Z) : string :=
  if n <? 0 then "-" ++ digits_of (Z.to_nat (Z.log2 (- n)) + 1) (- n) ""
  else digits_of (Z.to_nat (Z.log2 n) + 1) n "".

(** The characters of a string, one string each: what a loop over a [str]
    goes through. *)
Fixpoint chars (s : string) : list string :=
  match s with
  | EmptyString => []
  | String c r => String c EmptyString :: chars r
  end.

(** No character of [s] is [c]. *)
Definition lacks (c : ascii) (s : string) : bool :=
  Str.all_chars (fun x => negb (Ascii.eqb x c)) s.

(** The double quote. *)
Definition quote : ascii := ascii_of_nat 34.

Definition LF : ascii := ascii_of_nat 10.
Definition CR : ascii := ascii_of_nat 13.

End Text.

(** ** The text of the sinks *)

(** [JobRecord.__annotations__.keys()] *)
Definition field_names : list string :=
  ["source"; "source_id"; "title"; "company"; "location"; "url"; "tags";
   "date_posted"; "salary"; "description"].

(** [record.__dict__.values()] *)
Definition field_values (record : JobRecord) : list string :=
  [source record; source_id record; title record; company record;
   location record; url record; tags record; date_posted record;
   salary record; description record].

Module JsonText.

(** Not a control character: U+0020 or above. *)
Definition plain (c : ascii) : bool := 32 <=? Str.code c.

(** A hexadecimal digit, in lower case. *)
Definition hex (k : Z) : ascii :=
  if k <? 10 then Str.digit_char k else ascii_of_N (Z.to_N (87 + k)).

(** What [json.dumps] writes for one character of a string under
    [ensure_ascii=False]: the quote, the backslash and the characters below
    U+0020 are escaped, everything else is written as it is. *)
Definition escape (c : ascii) : string :=
  let n := Str.code c in
  if Ascii.eqb c Text.quote then String "\" (String Text.quote "")
  else if Ascii.eqb c "\" then "\\"
  else if n =? 8 then "\b"
  else if n =? 12 then "\f"
  else if n =? 10 then "\n"
  else if n =? 13 then "\r"
  else if n =? 9 then "\t"
  else if n <? 32
  then "\u00" ++ String (hex (n / 16)) (String (hex (n mod 16)) "")
  else String c "".

Fixpoint escape_all (s : string) : string :=
  match s with
  | EmptyString => EmptyString
  | String c r => escape c ++ escape_all r
  end.

(** [encode_basestring]: a string between quotes. *)
Definition encode (s : string) : string :=
  String Text.quote (escape_all s ++ String Text.quote "").

Definition item (key value : string) : string :=
  encode key ++ ": " ++ encode value.

(** [json.dumps(d, ensure_ascii=False)] for a dict of strings, given as its
    keys and its values in order. *)
Definition dumps_dict (keys values : list string) : string :=
  "{" ++ Text.join ", " (map (fun kv => item (fst kv) (snd kv))
                             (combine keys values)) ++ "}".

(** [json.dumps(record.__dict__, ensure_ascii=False)] *)
Definition dumps (record : JobRecord) : string :=
  dumps_dict field_names (field_values record).

End JsonText.

(** What [load_to_jsonl] writes to its file, as text. *)
Definition load_to_jsonl (records : list JobRecord) : string :=
  String.concat ""
    (map (fun record => JsonText.dumps record ++ String Text.LF "") records).

(** The writer of [csv.writer(handle)], in its default dialect: comma,
    double quote, quotes doubled, minimal quoting, lines ended by CR LF. *)
Module CsvText.

(** The characters that make the writer quote a field. *)
Definition special (c : ascii) : bool :=
  Ascii.eqb c "," || Ascii.eqb c Text.quote || Ascii.eqb c Text.CR
  || Ascii.eqb c Text.LF.

Fixpoint doubled (s : string) : string :=
  match s with
  | EmptyString => EmptyString
  | String c r =>
      if Ascii.eqb c Text.quote
      then String Text.quote (String Text.quote (doubled r))
      else String c (doubled r)
  end.

Definition field (s : string) : string :=
  if Str.all_chars (fun c => negb (special c)) s then s
  else String Text.quote (doubled s ++ String Text.quote "").

Definition line_end : string := String Text.CR (String Text.LF "").

(** [writer.writerow(fields)]: a row made of one empty field is written as
    two quotes. *)
Definition row (fields : list string) : string :=
  let joined := Text.join "," (map field fields) in
  (if negb (is_nil fields) && Str.is_empty joined
   then String Text.quote (String Text.quote "")
   else joined) ++ line_end.

End CsvText.

(** What [load_to_csv] writes to its file, as text. *)
Definition load_to_csv (records : list JobRecord) : string :=
  CsvText.row field_names
  ++ String.concat ""
       (map (fun record => CsvText.row (field_values record)) records).

(** ** The file system and the sinks *)

(** What a path leads to. *)
Inductive node : Type :=
| Absent                        (* no file, and one can be created *)
| Unopenable                    (* nothing opens here: the directory is
                                   missing, or the path is a directory *)
| TextFile (content : string)   (* a file holding this text, in UTF-8 *)
| Database (jobs : table).      (* a SQLite database: the rows of its table
                                   [jobs], which is the one [load_to_sqlite]
                                   creates; none while the table is not
                                   there *)

Inductive event : Type :=
| Extract (portal : string)
| WriteCsv (path : string) (records : list JobRecord)
| WriteJsonl (path : string) (records : list JobRecord)
| WriteSqlite (path : string) (records : list JobRecord)
| Print (msg_count : nat) (path : string).

(** What a run works in and leaves behind: the calls it made, in order,
    and the files by path.  A path stands for the file it names; the text
    sinks and the SQLite sink share the files.  A write that fails halfway
    (a full disk) is not modelled. *)
Record World : Type := mk_World {
  events : list event;
  files : string -> node
}.

Definition log (e : event) (w : World) : World :=
  mk_World (events w ++ [e])%list (files w).

Definition put (path : string) (n : node) (w : World) : World :=
  mk_World (events w)
           (fun p => if String.eqb p path then n else files w p).

Module Sink.

Definition NUL : ascii := ascii_of_nat 0.

(** [open(path, "w", ...)]: [ValueError] for a path with a null character,
    [OSError] for the empty path and wherever the file cannot be opened. *)
Definition opens (path : string) (w : World) : result unit :=
  if negb (Text.lacks NUL path) then Raised (ValueError "embedded null byte")
  else if Str.is_empty path then Raised OSError
  else
    match files w path with
    | Unopenable => Raised OSError
    | Absent | TextFile _ | Database _ => Ok tt
    end.

(** [with open(path, "w", ...) as handle] and the writes: the file is
    created, or truncated whatever it held, and holds the text, which
    always encodes, its code points being below 256. *)
Definition write (path content : string) (w : World) : World * result unit :=
  match opens path w with
  | Raised e => (w, Raised e)
  | Ok _ => (put path (TextFile content) w, Ok tt)
  end.

(** The names that give a connection a database of its own, in memory or
    in a temporary file, gone when the connection closes. *)
Definition private (path : string) : bool :=
  Str.is_empty path || String.eqb path ":memory:".

(** A file of no byte, or of one byte, is an empty database to SQLite. *)
Definition no_bytes (content : string) : bool :=
  match content with
  | EmptyString => true
  | String c EmptyString => Str.code c <? 128
  | String _ (String _ _) => false
  end.

(** [sqlite3.connect(path)] on the name of a file, and [CREATE TABLE IF NOT
    EXISTS jobs]: the table as found, or created empty;
    [sqlite3.DatabaseError] where the file cannot be opened or is not a
    database.  The name is taken as a plain path ([uri=False]). *)
Definition connect (path : string) (w : World) : result table :=
  match files w path with
  | Unopenable => Raised (DatabaseError "unable to open database file")
  | Absent => Ok []
  | TextFile content =>
      if no_bytes content then Ok []
      else Raised (DatabaseError "file is not a database")
  | Database jobs => Ok jobs
  end.

(** [load_to_csv(records, path)] *)
Definition csv (records : list JobRecord) (path : string) (w : World)
  : World * result unit :=
  write path (load_to_csv records) w.

(** [load_to_jsonl(records, path)] *)
Definition jsonl (records : list JobRecord) (path : string) (w : World)
  : World * result unit :=
  write path (load_to_jsonl records) w.

(** [load_to_sqlite(records, path)] *)
Definition sqlite (records : list JobRecord) (path : string) (w : World)
  : World * result unit :=
  if negb (Text.lacks NUL path)
  then (w, Raised (ValueError "embedded null byte"))
  else if private path then (w, Ok tt)
  else
    match connect path w with
    | Raised e => (w, Raised e)
    | Ok jobs => (put path (Database (load_to_sqlite records jobs)) w, Ok tt)
    end.

End Sink.

(** ** The orchestrator *)

Definition PORTALS : list string := ["remotive"; "remoteok"; "weworkremotely"].

Definition PORTALS_get (name : string) : option string :=
  if existsb (String.eqb name) PORTALS then Some name else None.

Fixpoint extract_loop (env : Env) (selected : list string)
    (records : list JobRecord) (w : World) : World * result (list JobRecord) :=
  match selected with
  | [] => (w, Ok records)
  | name :: rest =>
      match PORTALS_get name with
      | None => (w, Raised (ValueError ("Unknown portal: " ++ name)))
      | Some portal =>
          let w := log (Extract portal) w in
          match feed env portal with
          | Raised e => (w, Raised e)
          | Ok rs => extract_loop env rest (records ++ rs)%list w
          end
      end
  end.

Definition run_etl (env : Env) (w : World) (selected : list string)
    (output fmt : string) (titles : list string) : World * result Z :=
  match extract_loop env selected [] w with
  | (w, Raised e) => (w, Raised e)
  | (w, Ok records) =>
      match transform records with
      | Raised e => (w, Raised e)
      | Ok cleaned =>
          match filter_jobs env cleaned titles with
          | Raised e => (w, Raised e)
          | Ok filtered =>
              let finish (loaded : World * result unit) : World * result Z :=
                match loaded with
                | (w, Raised e) => (w, Raised e)
                | (w, Ok _) =>
                    (log (Print (List.length filtered) output) w, Ok 0)
                end in
              if String.eqb fmt "csv" then
                finish (Sink.csv filtered output
                          (log (WriteCsv output filtered) w))
              else if String.eqb fmt "jsonl" then
                finish (Sink.jsonl filtered output
                          (log (WriteJsonl output filtered) w))
              else if String.eqb fmt "sqlite" then
                finish (Sink.sqlite filtered output
                          (log (WriteSqlite output filtered) w))
              else (w, Raised (ValueError ("Unsupported format: " ++ fmt)))
          end
      end
  end.

(** ** Vocabulary of the specification *)

Module Spec.

Notation "x <~ m ;; k" :=
  (match m with Some x => k | None => None end)
  (at level 61, m at next level, right associativity).

(** A string that "consists only of digits": one decimal digit at least,
    and nothing else. *)
Definition decimal_string (s : string) : bool :=
  negb (Str.is_empty s) && Str.all_chars Str.isdecimal s.

Fixpoint decimal_value_from (acc : Z) (s : string) : Z :=
  match s with
  | EmptyString => acc
  | String c r => decimal_value_from (10 * acc + Str.digit_val c) r
  end.

(** The number a decimal string denotes. *)
Definition decimal_value (s : string) : Z := decimal_value_from 0 s.

(** The last second [datetime] can hold: 9999-12-31T23:59:59 UTC. *)
Definition MAX_EPOCH : Z := 253402300799.

(** Exactly [n] decimal digits, as a number. *)
Fixpoint digits_n (n : nat) (acc : Z) (s : string) : option (Z * string) :=
  match n with
  | O => Some (acc, s)
  | S n' =>
      match s with
      | String c r =>
          if Str.isdecimal c then digits_n n' (10 * acc + Str.digit_val c) r
          else None
      | EmptyString => None
      end
  end.

Definition expect (c : ascii) (s : string) : option string :=
  match s with
  | String x r => if Ascii.eqb x c then Some r else None
  | EmptyString => None
  end.

Definition starts (c : ascii) (s : string) : bool :=
  match s with
  | String x _ => Ascii.eqb x c
  | EmptyString => false
  end.

(** [YYYY-MM-DD], a day of the calendar: the days from 1970-01-01. *)
Definition iso_date_prefix (s : string) : option (Z * string) :=
  ys <~ digits_n 4 0 s ;;
  s1 <~ expect "-" (snd ys) ;;
  ms <~ digits_n 2 0 s1 ;;
  s2 <~ expect "-" (snd ms) ;;
  ds <~ digits_n 2 0 s2 ;;
  let y := fst ys in
  let m := fst ms in
  let d := fst ds in
  if (1 <=? m) && (m <=? 12) && (1 <=? d) && (d <=? Calendar.days_in_month y m)
  then Some (Calendar.ymd2ord y m d - Calendar.EPOCH_ORDINAL, snd ds)
  else None.

(** An optional fraction [.ffffff], in microseconds. *)
Definition iso_fraction (s : string) : option (Z * string) :=
  if starts "." s then
    s1 <~ expect "." s ;;
    digits_n 6 0 s1
  else Some (0, s).

(** [HH:MM:SS[.ffffff]] with the fields below their bounds, in
    microseconds. *)
Definition iso_clock (hmax : Z) (s : string) : option (Z * string) :=
  hs <~ digits_n 2 0 s ;;
  s1 <~ expect ":" (snd hs) ;;
  ms <~ digits_n 2 0 s1 ;;
  s2 <~ expect ":" (snd ms) ;;
  ss <~ digits_n 2 0 s2 ;;
  fs <~ iso_fraction (snd ss) ;;
  if (fst hs <=? hmax) && (fst ms <=? 59) && (fst ss <=? 59)
  then Some (((fst hs * 3600 + fst ms * 60 + fst ss) * 1000000 + fst fs), snd fs)
  else None.

(** A UTC offset as ISO-8601 writes it in the extended format: [+HH:MM]
    or [-HH:MM], hours and minutes only, and no negative zero; in
    microseconds. *)
Definition iso_offset (s : string) : option (Z * string) :=
  let negative := starts "-" s in
  if starts "+" s || negative then
    let s0 := Str.drop 1 s in
    hs <~ digits_n 2 0 s0 ;;
    s1 <~ expect ":" (snd hs) ;;
    ms <~ digits_n 2 0 s1 ;;
    let hm := (fst hs * 3600 + fst ms * 60) * 1000000 in
    if (fst hs <=? 23) && (fst ms <=? 59) && negb (negative && (hm =? 0))
    then Some ((if negative then - hm else hm), snd ms)
    else None
  else None.

(** A UTC offset of whole minutes, or none. *)
Definition whole_minutes (tz : option Z) : bool :=
  match tz with
  | None => true
  | Some off => off mod (60 * 1000000) =? 0
  end.

(** An ISO-8601 calendar date [YYYY-MM-DD] and nothing more. *)
Definition is_iso_date (s : string) : bool :=
  match iso_date_prefix s with
  | Some (_, rest) => Str.is_empty rest
  | None => false
  end.

(** A full ISO-8601 date-time [YYYY-MM-DDTHH:MM:SS[.ffffff]], with or
    without a UTC offset [+HH:MM]: its wall clock in microseconds from
    1970-01-01T00:00:00, and its offset when it carries one. *)
Definition iso_datetime (s : string) : option (Z * option Z) :=
  ds <~ iso_date_prefix s ;;
  s1 <~ expect "T" (snd ds) ;;
  cs <~ iso_clock 23 s1 ;;
  let wall := fst ds * 86400 * 1000000 + fst cs in
  if Str.is_empty (snd cs) then Some (wall, None)
  else
    os <~ iso_offset (snd cs) ;;
    if Str.is_empty (snd os) then Some (wall, Some (fst os)) else None.

Definition is_iso_datetime (s : string) : bool :=
  match iso_datetime s with Some _ => true | None => false end.

(** The month and the day that [Calendar.ord2ymd] gives to day [n] of a
    year, counted from 0. *)
Definition month_day (leapyear : bool) (n : Z) : Z * Z :=
  let month := Z.shiftr (n + 50) 5 in
  let preceding :=
    Calendar.DAYS_BEFORE_MONTH month
    + (if (2 <? month) && leapyear then 1 else 0) in
  if n <? preceding then
    (month - 1,
     n - (preceding
          - (Calendar.DAYS_IN_MONTH (month - 1)
             + (if (month - 1 =? 2) && leapyear then 1 else 0))) + 1)
  else (month, n - preceding + 1).

(** [month_day] names a day of the year and counts back to [n]. *)
Definition month_day_ok (leapyear : bool) (n : Z) : bool :=
  let '(m, d) := month_day leapyear n in
  (1 <=? m) && (m <=? 12) && (1 <=? d)
  && (d <=? Calendar.DAYS_IN_MONTH m + (if (m =? 2) && leapyear then 1 else 0))
  && (Calendar.DAYS_BEFORE_MONTH m + (if (2 <? m) && leapyear then 1 else 0) + d
      =? n + 1).

(** A [datetime] as its constructor admits it. *)
Definition valid_datetime (dt : DT.datetime) : bool :=
  DT.check_date_fields (DT.year dt) (DT.month dt) (DT.day dt)
  && DT.check_time_fields (DT.hour dt) (DT.minute dt) (DT.second dt)
                          (DT.microsecond dt)
  && match DT.tzinfo dt with
     | None => true
     | Some off => (- DT.US_PER_DAY <? off) && (off <? DT.US_PER_DAY)
     end.

(** The text [YYYY-MM-DD] of a date. *)
Definition ymd_string (y m d : Z) : string :=
  Str.zfill4 y ++ "-" ++ Str.zfill2 m ++ "-" ++ Str.zfill2 d.

(** The text [YYYY-MM-DDTHH:MM:SS] of a date-time without offset. *)
Definition naive_string (y m d hh mm ss : Z) : string :=
  ymd_string y m d ++ "T" ++ Str.zfill2 hh ++ ":" ++ Str.zfill2 mm ++ ":"
  ++ Str.zfill2 ss.

(** The shape [YYYY-MM-DD]: four digits, two digits, two digits, with
    dashes between them; the three numbers it shows. *)
Definition ymd_shape (s : string) : option (Z * Z * Z) :=
  ys <~ digits_n 4 0 s ;;
  s1 <~ expect "-" (snd ys) ;;
  ms <~ digits_n 2 0 s1 ;;
  s2 <~ expect "-" (snd ms) ;;
  ds <~ digits_n 2 0 s2 ;;
  if Str.is_empty (snd ds) then Some (fst ys, fst ms, fst ds) else None.

(** Neither the letter [T] nor a colon. *)
Definition no_indicator_char (c : ascii) : bool :=
  negb (Ascii.eqb "T" c) && negb (Ascii.eqb ":" c).

(** A time indicator: the letter [T] or a colon. *)
Definition has_time_indicator (s : string) : bool :=
  Str.contains "T" s || Str.contains ":" s.

(** No white space at either end. *)
Definition no_outer_whitespace (s : string) : bool :=
  match Str.first_char s, Str.last_char s with
  | Some a, Some b => negb (Str.isspace a) && negb (Str.isspace b)
  | _, _ => true
  end.

(** The last character is a decimal digit. *)
Definition ends_decimal (s : string) : bool :=
  match Str.last_char s with
  | Some c => Str.isdecimal c
  | None => false
  end.

(** The eight fields that Transform strips or rewrites. *)
Definition cleaned_fields (r : JobRecord) : list string :=
  [title r; company r; location r; url r; tags r; date_posted r; salary r;
   description r].

(** The ten fields of a record. *)
Definition all_fields (r : JobRecord) : list string :=
  source r :: source_id r :: cleaned_fields r.

(** The natural key of a record. *)
Definition key (r : JobRecord) : string * string := (source r, source_id r).



(** The title test of the Filter stage, in the words of the specification:
    no title list, or one entry of it inside the title, both lower-cased. *)
Definition title_ok (titles : list string) (r : JobRecord) : bool :=
  is_nil titles
  || existsb (fun entry => Str.contains (Str.lower entry) (Str.lower (title r)))
             titles.

(** The recency test: the date parses and its timestamp is not below the
    cutoff. *)
Definition recent (tz : Z -> Z) (cutoff : F64.t) (r : JobRecord) : bool :=
  match parse_datetime (date_posted r) with
  | Ok (Some dt) =>
      match Clock.timestamp tz dt with
      | Ok ts => negb (F64.ltb ts cutoff)
      | Raised _ => false
      end
  | _ => false
  end.

(** What Filter keeps: the records that pass both tests. *)
Definition keeps (tz : Z -> Z) (cutoff : F64.t) (titles : list string)
    (r : JobRecord) : bool :=
  title_ok titles r && recent tz cutoff r.

(** The recency test can be evaluated: nothing raises on the way. *)
Definition recency_defined (tz : Z -> Z) (r : JobRecord) : Prop :=
  match parse_datetime (date_posted r) with
  | Ok (Some dt) => exists ts, Clock.timestamp tz dt = Ok ts
  | Ok None => True
  | Raised _ => False
  end.

(** The calls to adapters in a trace. *)
Definition extractions (evs : list event) : list string :=
  flat_map (fun e => match e with Extract p => [p] | _ => [] end) evs.

(** A world after the adapters of [names] have been called, in order. *)
Definition logged (w : World) (names : list string) : World :=
  mk_World (events w ++ map Extract names)%list (files w).

Definition is_write (e : event) : bool :=
  match e with
  | WriteCsv _ _ | WriteJsonl _ _ | WriteSqlite _ _ => true
  | _ => false
  end.

Definition registered (name : string) : bool := existsb (String.eqb name) PORTALS.

Definition supported_format (fmt : string) : bool :=
  String.eqb fmt "csv" || String.eqb fmt "jsonl" || String.eqb fmt "sqlite".

(** An adapter that is registered and whose feed can be fetched. *)
Definition extractable (env : Env) (name : string) : Prop :=
  registered name = true /\ exists rs, feed env name = Ok rs.

Definition is_configuration_error {A : Type} (r : result A) : bool :=
  match r with
  | Raised (ValueError msg) =>
      Str.starts_with "Unknown portal: " msg
      || Str.starts_with "Unsupported format: " msg
  | _ => false
  end.

End Spec.

(** No call made yet, no file anywhere. *)
Definition empty_world : World := mk_World [] (fun _ => Absent).

(** * The adapters and the command line

    The rest of [src/job_etl.py]: the three adapters, from the parsed
    payload on (the HTTP request and the parsers [json.loads] and
    [ElementTree.fromstring] stay with the environment), [main] with the
    options [build_parser] declares, and readers of the text that
    [load_to_jsonl] and [load_to_csv] write. *)

(** ** The RSS adapter *)

Module Xml.

(** An element as [xml.etree.ElementTree] holds it after parsing: its tag,
    its text ([None] when the element has none before its first child) and
    its children in document order.  Attributes and tails are never read by
    the program. *)
#[warnings="-register-all"]
Inductive Element : Type :=
| mk_Element (tag : string) (text : option string) (children : list Element).

Definition tag (e : Element) : string :=
  match e with mk_Element t _ _ => t end.

Definition text (e : Element) : option string :=
  match e with mk_Element _ t _ => t end.

Definition children (e : Element) : list Element :=
  match e with mk_Element _ _ c => c end.

Definition named (name : string) (e : Element) : bool := String.eqb (tag e) name.

(** [parent.find(name)] for a plain tag name: the first child so named. *)
Definition find (parent : Element) (name : string) : option Element :=
  List.find (named name) (children parent).

(** [root.findall("./channel/item")]: the [item] children of the [channel]
    children of the root, in document order. *)
Definition findall_channel_item (root : Element) : list Element :=
  flat_map (fun channel => filter (named "item") (children channel))
           (filter (named "channel") (children root)).

End Xml.

Definition text_of (parent : Xml.Element) (tag : string) : string :=
  match Xml.find parent tag with
  | Some element =>
      match Xml.text element with
      | Some text => if Str.is_empty text then "" else Str.strip text
      | None => ""
      end
  | None => ""
  end.

(** The body of the loop of [WeWorkRemotelyPortal.extract]. *)
Definition WeWorkRemotelyPortal_record (item : Xml.Element) : JobRecord :=
  let title := text_of item "title" in
  let link := text_of item "link" in
  let pub_date := text_of item "pubDate" in
  let company := text_of item "company" in
  let location := text_of item "region" in
  let tags := text_of item "category" in
  let description := text_of item "description" in
  let source_id := last (Text.rsplit1 "/" link) "" in
  mk_JobRecord "weworkremotely" source_id title company location link tags
               pub_date "" description.

(** [WeWorkRemotelyPortal.extract], from the parsed document on. *)
Definition WeWorkRemotelyPortal_extract (root : Xml.Element) : list JobRecord :=
  map WeWorkRemotelyPortal_record (Xml.findall_channel_item root).

(** ** The JSON adapters *)

Module Json.

(** What a payload can make an adapter raise. *)
Inductive crash : Type :=
| TypeError
| AttributeError.

Inductive attempt (A : Type) : Type :=
| Got (a : A)
| Threw (e : crash).

Arguments Got {A} a.
Arguments Threw {A} e.

Definition and_then {A B : Type} (m : attempt A) (f : A -> attempt B)
  : attempt B :=
  match m with
  | Got a => f a
  | Threw e => Threw e
  end.

Notation "x <-- m ;; k" := (and_then m (fun x => k))
  (at level 61, m at next level, right associativity).

(** A value as [json.loads] builds it, over a type [F] of floats: [None],
    [bool], [int], [float], [str], [list] and [dict].  A [dict] is the list
    of its items in insertion order; its keys are distinct. *)
#[warnings="-register-all"]
Inductive value (F : Type) : Type :=
| Null
| Bool (b : bool)
| Int (n : Z)
| Float (f : F)
| Text (s : string)
| Array (items : list (value F))
| Object (fields : list (string * value F)).

Arguments Null {F}.
Arguments Bool {F} b.
Arguments Int {F} n.
Arguments Float {F} f.
Arguments Text {F} s.
Arguments Array {F} items.
Arguments Object {F} fields.

(** The two built-ins left to Python: the truth value of a float, and
    [str()] of a float, a list or a dict. *)
Record Builtins (F : Type) : Type := mk_Builtins {
  float_truth : F -> bool;
  repr : value F -> string
}.

Arguments float_truth {F} _ _.
Arguments repr {F} _ _.

Section Values.

Context {F : Type}.
Variable py : Builtins F.

Fixpoint lookup (key : string) (fields : list (string * value F))
  : option (value F) :=
  match fields with
  | [] => None
  | (k, v) :: rest => if String.eqb k key then Some v else lookup key rest
  end.

(** [job.get(key, default)]; only a [dict] has the method. *)
Definition get (job : value F) (key : string) (default : value F)
  : attempt (value F) :=
  match job with
  | Object fields =>
      Got (match lookup key fields with Some v => v | None => default end)
  | _ => Threw AttributeError
  end.

(** [bool(v)] *)
Definition truth (v : value F) : bool :=
  match v with
  | Null => false
  | Bool b => b
  | Int n => negb (n =? 0)
  | Float f => float_truth py f
  | Text s => negb (Str.is_empty s)
  | Array items => negb (is_nil items)
  | Object fields => negb (is_nil fields)
  end.

(** [str(v)]; an integer that [json.loads] accepted is one that [str]
    prints. *)
Definition str (v : value F) : string :=
  match v with
  | Null => "None"
  | Bool true => "True"
  | Bool false => "False"
  | Int n => Text.of_int n
  | Text s => s
  | Float _ | Array _ | Object _ => repr py v
  end.

(** What [for x in v] goes through: the items of a list, the keys of a
    dict, the characters of a string; nothing else can be iterated. *)
Definition iter (v : value F) : attempt (list (value F)) :=
  match v with
  | Array items => Got items
  | Object fields => Got (map (fun kv => Text (fst kv)) fields)
  | Text s => Got (map Text (Text.chars s))
  | Null | Bool _ | Int _ | Float _ => Threw TypeError
  end.

Definition as_text (v : value F) : option string :=
  match v with
  | Text s => Some s
  | _ => None
  end.

Fixpoint all_text (items : list (value F)) : option (list string) :=
  match items with
  | [] => Some []
  | item :: rest =>
      match as_text item, all_text rest with
      | Some s, Some l => Some (s :: l)
      | _, _ => None
      end
  end.

(** [sep.join(v)]: [v] has to be iterable and to yield strings only. *)
Definition join (sep : string) (v : value F) : attempt string :=
  items <-- iter v ;;
  match all_text items with
  | Some parts => Got (Text.join sep parts)
  | None => Threw TypeError
  end.

End Values.

End Json.

(** A [JobRecord] as a JSON adapter builds it.  The annotations of the
    dataclass are not checked when a record is made: a field taken from the
    payload holds whatever the payload held.  [source], [source_id] and
    [tags] are strings by construction. *)
Record LooseRecord (F : Type) : Type := mk_LooseRecord {
  loose_source : string;
  loose_source_id : string;
  loose_title : Json.value F;
  loose_company : Json.value F;
  loose_location : Json.value F;
  loose_url : Json.value F;
  loose_tags : string;
  loose_date_posted : Json.value F;
  loose_salary : Json.value F;
  loose_description : Json.value F
}.

Arguments mk_LooseRecord {F} _ _ _ _ _ _ _ _ _ _.
Arguments loose_source {F} _.
Arguments loose_source_id {F} _.
Arguments loose_title {F} _.
Arguments loose_company {F} _.
Arguments loose_location {F} _.
Arguments loose_url {F} _.
Arguments loose_tags {F} _.
Arguments loose_date_posted {F} _.
Arguments loose_salary {F} _.
Arguments loose_description {F} _.

Section Adapters.

Import Json.

Context {F : Type}.
Variable py : Builtins F.

(** The record the pipeline works on, when every field is a string. *)
Definition to_record (l : LooseRecord F) : option JobRecord :=
  match as_text (loose_title l), as_text (loose_company l),
        as_text (loose_location l), as_text (loose_url l),
        as_text (loose_date_posted l), as_text (loose_salary l),
        as_text (loose_description l) with
  | Some title, Some company, Some location, Some url, Some date_posted,
    Some salary, Some description =>
      Some (mk_JobRecord (loose_source l) (loose_source_id l) title company
                         location url (loose_tags l) date_posted salary
                         description)
  | _, _, _, _, _, _, _ => None
  end.




(** [isinstance(job, dict) and "id" in job] *)
Definition is_listing (job : value F) : bool :=
  match job with
  | Object fields =>
      match lookup "id" fields with Some _ => true | None => false end
  | _ => false
  end.

(** The body of the loop of [RemoteOkPortal.extract], past the test. *)
Definition RemoteOkPortal_record (job : value F) : attempt (LooseRecord F) :=
  id <-- get job "id" (Text "") ;;
  title <-- get job "position" (Text "") ;;
  company <-- get job "company" (Text "") ;;
  location <-- get job "location" (Text "") ;;
  url <-- get job "url" (Text "") ;;
  tag_list <-- get job "tags" (Array []) ;;
  tags <-- join ", " tag_list ;;
  date <-- get job "date" (Text "") ;;
  date_epoch <-- get job "date_epoch" date ;;
  paid <-- get job "salary" Null ;;
  salary <-- (if truth py paid
              then amount <-- get job "salary" (Text "") ;; Got (str py amount)
              else Got "") ;;
  description <-- get job "description" (Text "") ;;
  Got (mk_LooseRecord "remoteok" (str py id) title company location url tags
                      (Text (str py date_epoch)) (Text salary) description).

Fixpoint RemoteOkPortal_loop (jobs : list (value F))
    (records : list (LooseRecord F)) : attempt (list (LooseRecord F)) :=
  match jobs with
  | [] => Got records
  | job :: rest =>
      if negb (is_listing job) then RemoteOkPortal_loop rest records
      else
        record <-- RemoteOkPortal_record job ;;
        RemoteOkPortal_loop rest (records ++ [record])%list
  end.

(** [RemoteOkPortal.extract], from the parsed payload on. *)
Definition RemoteOkPortal_extract (payload : value F)
  : attempt (list (LooseRecord F)) :=
  jobs <-- iter payload ;;
  RemoteOkPortal_loop jobs [].

End Adapters.

(** ** The command line *)

Module Cli.

(** What [parse_args] returns. *)
Record Namespace : Type := mk_Namespace {
  sources : string;
  titles : string;
  output : string;
  format : string
}.

(** The values given on the command line, option by option. *)
Record Given : Type := mk_Given {
  given_sources : option string;
  given_titles : option string;
  given_output : option string;
  given_format : option string
}.

Definition default_sources : string := Text.join "," PORTALS.

Definition choices : list string := ["sqlite"; "csv"; "jsonl"].

(** [build_parser().parse_args()] on the option values: each option has its
    default, and a format outside the choices ends the process with status
    2 ([None]). *)
Definition parse_args (given : Given) : option Namespace :=
  let pick (value : option string) (default : string) : string :=
    match value with Some v => v | None => default end in
  let accepted :=
    match given_format given with
    | Some fmt => existsb (String.eqb fmt) choices
    | None => true
    end in
  if accepted
  then Some (mk_Namespace (pick (given_sources given) default_sources)
                          (pick (given_titles given) "")
                          (pick (given_output given) "jobs.sqlite3")
                          (pick (given_format given) "sqlite"))
  else None.

(** [[name.strip() for name in text.split(",") if name.strip()]] *)
Definition names (text : string) : list string :=
  map Str.strip
      (filter (fun name => negb (Str.is_empty (Str.strip name)))
              (Text.split "," text)).

(** A name as [main] hands it on: not empty, without a comma, without
    white space at either end. *)
Definition clean_name (name : string) : bool :=
  negb (Str.is_empty name) && Text.lacks "," name
  && Spec.no_outer_whitespace name.

(** Nothing but commas and white space. *)
Definition blank (text : string) : bool :=
  Str.all_chars (fun c => Str.isspace c || Ascii.eqb c ",") text.

(** A run of [main]: the world it leaves, the lines [main] itself printed
    on the standard error stream and what it returned or raised. *)
Record Run : Type := mk_Run {
  world : World;
  stderr : list string;
  returned : result Z
}.

End Cli.

(** [main], past [parse_args]. *)
Definition main (env : Env) (w : World) (args : Cli.Namespace) : Cli.Run :=
  let sources := Cli.names (Cli.sources args) in
  let titles := Cli.names (Cli.titles args) in
  if is_nil sources then Cli.mk_Run w ["No sources provided"] (Ok 1)
  else
    let '(w', r) :=
      run_etl env w sources (Cli.output args) (Cli.format args) titles in
    Cli.mk_Run w' [] r.

(** ** Readers of the text sinks *)

(** A reader of one line of such a file, as a consumer would write it: a
    JSON object of strings, with the separators [json.dumps] uses. *)
Module Reader.

Import Spec.

Definition unhex (c : ascii) : option Z :=
  if Str.isdecimal c then Some (Str.code c - 48)
  else if Str.between 97 102 c then Some (Str.code c - 87)
  else if Str.between 65 70 c then Some (Str.code c - 55)
  else None.

(** The character a two-character escape stands for. *)
Definition short (x : ascii) : option ascii :=
  if Ascii.eqb x Text.quote then Some Text.quote
  else if Ascii.eqb x "\" then Some "\"%char
  else if Ascii.eqb x "/" then Some "/"%char
  else if Ascii.eqb x "b" then Some (ascii_of_nat 8)
  else if Ascii.eqb x "f" then Some (ascii_of_nat 12)
  else if Ascii.eqb x "n" then Some Text.LF
  else if Ascii.eqb x "r" then Some Text.CR
  else if Ascii.eqb x "t" then Some (ascii_of_nat 9)
  else None.

Definition push (c : option ascii) (read : option (string * string))
  : option (string * string) :=
  match c, read with
  | Some c, Some (text, rest) => Some (String c text, rest)
  | _, _ => None
  end.

Definition code_point (h1 h2 h3 h4 : ascii) : option ascii :=
  a <~ unhex h1 ;; b <~ unhex h2 ;; c <~ unhex h3 ;; d <~ unhex h4 ;;
  let n := ((a * 16 + b) * 16 + c) * 16 + d in
  if n <? 256 then Some (ascii_of_N (Z.to_N n)) else None.

(** The inside of a string literal up to its closing quote: the text it
    denotes and what follows the quote. *)
Fixpoint read_string (s : string) : option (string * string) :=
  match s with
  | EmptyString => None
  | String c r =>
      if Ascii.eqb c Text.quote then Some (EmptyString, r)
      else if Ascii.eqb c "\" then
        match r with
        | String x r1 =>
            if Ascii.eqb x "u" then
              match r1 with
              | String h1 (String h2 (String h3 (String h4 r2))) =>
                  push (code_point h1 h2 h3 h4) (read_string r2)
              | _ => None
              end
            else push (short x) (read_string r1)
        | EmptyString => None
        end
      else if Str.code c <? 32 then None
      else push (Some c) (read_string r)
  end.

(** A literal text in front. *)
Definition skip (literal s : string) : option string :=
  if Str.starts_with literal s
  then Some (Str.drop (String.length literal) s)
  else None.

(** The items of an object with the keys [keys], in this order: their
    values and what follows the last one. *)
Fixpoint read_items (keys : list string) (s : string)
  : option (list string * string) :=
  match keys with
  | [] => Some ([], s)
  | key :: more =>
      s1 <~ expect Text.quote s ;;
      k <~ read_string s1 ;;
      if String.eqb (fst k) key then
        s2 <~ skip ": " (snd k) ;;
        s3 <~ expect Text.quote s2 ;;
        v <~ read_string s3 ;;
        match more with
        | [] => Some ([fst v], snd v)
        | _ :: _ =>
            s4 <~ skip ", " (snd v) ;;
            vs <~ read_items more s4 ;;
            Some (fst v :: fst vs, snd vs)
        end
      else None
  end.

Definition of_values (values : list string) : option JobRecord :=
  match values with
  | [a; b; c; d; e; f; g; h; i; j] => Some (mk_JobRecord a b c d e f g h i j)
  | _ => None
  end.

(** One line, without its line end, as a record. *)
Definition loads (line : string) : option JobRecord :=
  s1 <~ expect "{" line ;;
  vs <~ read_items field_names s1 ;;
  s2 <~ expect "}" (snd vs) ;;
  if Str.is_empty s2 then of_values (fst vs) else None.

End Reader.

(** A reader of the rows of such a file, as a consumer would write it, for
    rows of a known number of fields. *)
Module CsvReader.

Import Spec.

(** An unquoted field: up to the next comma or line break. *)
Fixpoint read_plain (s : string) : string * string :=
  match s with
  | EmptyString => (EmptyString, EmptyString)
  | String c r =>
      if Ascii.eqb c "," || Ascii.eqb c Text.CR || Ascii.eqb c Text.LF
      then (EmptyString, s)
      else let (text, rest) := read_plain r in (String c text, rest)
  end.

(** A quoted field, past its opening quote: up to the closing quote, two
    quotes standing for one. *)
Fixpoint read_quoted (s : string) : option (string * string) :=
  match s with
  | EmptyString => None
  | String c r =>
      if Ascii.eqb c Text.quote then
        match r with
        | String c2 r2 =>
            if Ascii.eqb c2 Text.quote
            then Reader.push (Some Text.quote) (read_quoted r2)
            else Some (EmptyString, r)
        | EmptyString => Some (EmptyString, EmptyString)
        end
      else Reader.push (Some c) (read_quoted r)
  end.

Definition read_field (s : string) : option (string * string) :=
  if starts Text.quote s then read_quoted (Str.drop 1 s)
  else Some (read_plain s).

(** A row of [width] fields and its line end: the fields and what follows
    the row. *)
Fixpoint read_row (width : nat) (s : string) : option (list string * string) :=
  match width with
  | O => None
  | S more =>
      f <~ read_field s ;;
      match more with
      | O =>
          rest <~ Reader.skip CsvText.line_end (snd f) ;;
          Some ([fst f], rest)
      | S _ =>
          s1 <~ expect "," (snd f) ;;
          fs <~ read_row more s1 ;;
          Some (fst f :: fst fs, snd fs)
      end
  end.

(** A comma or a carriage return: what follows a field in a row. *)
Definition ends_field (c : ascii) : bool :=
  Ascii.eqb c "," || Ascii.eqb c Text.CR.

(** Rows of [width] fields up to the end of the text, [fuel] rows at
    most. *)
Fixpoint read_rows (fuel width : nat) (s : string)
  : option (list (list string)) :=
  if Str.is_empty s then Some []
  else
    match fuel with
    | O => None
    | S fuel' =>
        r <~ read_row width s ;;
        rows <~ read_rows fuel' width (snd r) ;;
        Some (fst r :: rows)
    end.

(** The rows of a file of ten columns; a text has fewer rows than
    characters. *)
Definition read_file (s : string) : option (list (list string)) :=
  read_rows (String.length s) (List.length field_names) s.

End CsvReader.

(** ** Vocabulary of the properties *)

Module Facts.

Import Re.

(** The key of [row] is the key of one of the records. *)
Definition key_written (records : list JobRecord) (row : JobRecord) : bool :=
  existsb (same_key row) records.

(** The call of the sink that [run_etl] makes for a format. *)
Definition sink_of (fmt output : string) (records : list JobRecord)
  : option event :=
  if String.eqb fmt "csv" then Some (WriteCsv output records)
  else if String.eqb fmt "jsonl" then Some (WriteJsonl output records)
  else if String.eqb fmt "sqlite" then Some (WriteSqlite output records)
  else None.

(** The sink that [run_etl] calls for a supported format. *)
Definition load (fmt : string) (records : list JobRecord) (path : string)
    (w : World) : World * result unit :=
  if String.eqb fmt "csv" then Sink.csv records path w
  else if String.eqb fmt "jsonl" then Sink.jsonl records path w
  else Sink.sqlite records path w.

(** The seconds from the epoch to a date-time, its microseconds and those
    of its offset left out: the integer that [timestamp] would give with
    integers. *)
Definition epoch_seconds (tz : Z -> Z) (dt : DT.datetime) : result Z :=
  let t := DT.utc_to_seconds (DT.year dt) (DT.month dt) (DT.day dt)
                             (DT.hour dt) (DT.minute dt) (DT.second dt) in
  match DT.tzinfo dt with
  | None =>
      seconds <- Clock.local_to_seconds tz t ;;
      Ok (seconds - DT.EPOCH_SECONDS)
  | Some off => Ok (t - DT.EPOCH_SECONDS - off / DT.US_PER_SECOND)
  end.

(** The date of the record can be read without an error, and where it
    parses, its UTC offset, if it has one, is a whole number of seconds. *)
Definition whole_second_date (tz : Z -> Z) (r : JobRecord) : Prop :=
  match parse_datetime (date_posted r) with
  | Ok (Some dt) =>
      match DT.tzinfo dt with
      | None => True
      | Some off => off mod DT.US_PER_SECOND = 0
      end
      /\ exists s, epoch_seconds tz dt = Ok s
  | Ok None => True
  | Raised _ => False
  end.

(** The date of the record parses and is not earlier than a cutoff counted
    in microseconds from the epoch. *)
Definition not_older (tz : Z -> Z) (cutoff : Z) (r : JobRecord) : bool :=
  match parse_datetime (date_posted r) with
  | Ok (Some dt) =>
      match epoch_seconds tz dt with
      | Ok s => cutoff <=? s * DT.US_PER_SECOND
      | Raised _ => false
      end
  | _ => false
  end.

(** Each name is registered and its feed gave the records beside it. *)
Definition fetched (env : Env) (names : list string)
    (parts : list (list JobRecord)) : Prop :=
  Forall2 (fun name rs => Spec.registered name = true /\ feed env name = Ok rs)
          names parts.



(** A record with another date. *)
Definition with_date (r : JobRecord) (date : string) : JobRecord :=
  mk_JobRecord (source r) (source_id r) (title r) (company r) (location r)
               (url r) (tags r) date (salary r) (description r).

(** The expression can match the empty text. *)
Fixpoint nullable (r : re) : bool :=
  match r with
  | Eps => true
  | Chr _ | Plus _ => false
  | Seq r1 r2 => nullable r1 && nullable r2
  | Alt r1 r2 => nullable r1 || nullable r2
  | Group _ r1 => nullable r1
  end.

(** Every character that passes [p] passes [Q]. *)
Definition all_pass (p Q : ascii -> bool) : bool :=
  forallb (fun c => implb (p c) (Q c)) Str.all_chars_list.

(** The last character the expression consumes, if it consumes one, passes
    [Q]. *)
Fixpoint ends_in (Q : ascii -> bool) (r : re) : bool :=
  match r with
  | Eps => true
  | Chr p | Plus p => all_pass p Q
  | Seq r1 r2 => ends_in Q r2 && (if nullable r2 then ends_in Q r1 else true)
  | Alt r1 r2 => ends_in Q r1 && ends_in Q r2
  | Group _ r1 => ends_in Q r1
  end.

(** The last character of [pre], if there is one, passes [Q]. *)
Definition ended (Q : ascii -> bool) (pre : string) : Prop :=
  forall c, Str.last_char pre = Some c -> Q c = true.

(** What the text of a date can end with: a digit or the letter [Z]. *)
Definition closes_date (c : ascii) : bool :=
  Str.isdecimal c || Ascii.eqb c "Z".

End Facts.
(** ** Sample inputs *)

Module Sample.

Definition job (src id ttl date : string) : JobRecord :=
  mk_JobRecord src id ttl "Acme" "EU" "https://x/7" "python, remote" date "" "...".

(** A machine whose local time is UTC. *)
Definition utc (_ : Z) : Z := 0.

(** A machine whose local time is two hours east of UTC. *)
Definition utc_plus_2 (_ : Z) : Z := 7200.

(** A machine whose local time is five hours and a half east of UTC. *)
Definition utc_plus_530 (_ : Z) : Z := 19800.

Definition no_feed (_ : string) : result (list JobRecord) := Ok [].

(** 2024-06-02T12:00:00 UTC *)
Definition noon_2024_06_02 : Z := 1717329600 * 1000000.

(** The digit [0], [n] times. *)
Definition zeros (n : nat) : string := Strptime.zeros n.

End Sample.


(** Sample inputs for the adapters, the command line and the sinks. *)
Module Demo.

Definition engineer : JobRecord :=
  Sample.job "remotive" "7" "Senior Engineer" "2024-06-02T11:00:00+00:00".

Definition analyst : JobRecord :=
  Sample.job "remotive" "8" "Data Analyst" "2024-06-02T11:30:00+00:00".

(** One listing at Remotive, nothing elsewhere. *)
Definition feed_one (name : string) : result (list JobRecord) :=
  if String.eqb name "remotive" then Ok [engineer] else Ok [].

(** RemoteOK cannot be reached. *)
Definition feed_broken (name : string) : result (list JobRecord) :=
  if String.eqb name "remoteok"
  then Raised (FetchError "https://remoteok.com/api")
  else Ok [].

Definition env : Env := mk_Env Sample.noon_2024_06_02 Sample.utc feed_one.

(** A working directory that holds a database of one row, and has no
    directory [nodir]. *)
Definition world : World :=
  mk_World []
    (fun path =>
       if String.eqb path "jobs.sqlite3" then Database [analyst]
       else if String.eqb path "nodir/jobs.csv" then Unopenable
       else Absent).

Definition leaf (tag text : string) : Xml.Element :=
  Xml.mk_Element tag (Some text) [].

(** A feed of one item, its link padded with white space. *)
Definition rss : Xml.Element :=
  Xml.mk_Element "rss" None
    [Xml.mk_Element "channel" None
       [leaf "title" "We Work Remotely";
        Xml.mk_Element "item" None
          [leaf "title" " Acme: Backend Developer ";
           leaf "link" " https://weworkremotely.com/remote-jobs/acme-backend ";
           leaf "pubDate" "Sat, 01 Jun 2024 10:00:00 +0000";
           leaf "region" "Anywhere";
           leaf "category" "Programming";
           leaf "category" "Back-End"]]].

Definition rss_record : JobRecord :=
  mk_JobRecord "weworkremotely" "acme-backend" "Acme: Backend Developer" ""
               "Anywhere" "https://weworkremotely.com/remote-jobs/acme-backend"
               "Programming" "Sat, 01 Jun 2024 10:00:00 +0000" "" "".

(** Payloads without floats. *)
Definition py : Json.Builtins Empty_set :=
  Json.mk_Builtins Empty_set (fun f => match f with end) (fun _ => "[...]").



Definition remoteok_fields : list (string * Json.value Empty_set) :=
  [("id", Json.Int 1); ("position", Json.Text "Dev");
   ("company", Json.Text "Acme"); ("location", Json.Text "EU");
   ("url", Json.Text "https://remoteok.com/l/1");
   ("date", Json.Text "2024-06-02T11:00:00+00:00");
   ("date_epoch", Json.Int 1717326000);
   ("description", Json.Text "...")].

Definition remoteok_jobs : list (Json.value Empty_set) :=
  [Json.Object [("legal", Json.Text "terms of use")];
   Json.Object remoteok_fields;
   Json.Text "stray"].

Definition remoteok_loose : LooseRecord Empty_set :=
  mk_LooseRecord "remoteok" "1" (Json.Text "Dev") (Json.Text "Acme")
                 (Json.Text "EU") (Json.Text "https://remoteok.com/l/1") ""
                 (Json.Text "1717326000") (Json.Text "") (Json.Text "...").

Definition remoteok_record : JobRecord :=
  mk_JobRecord "remoteok" "1" "Dev" "Acme" "EU" "https://remoteok.com/l/1" ""
               "1717326000" "" "...".

Definition args : Cli.Namespace :=
  Cli.mk_Namespace " remotive , ,remoteok" "Engineer" "jobs.csv" "csv".

End Demo.
(** * Properties *)

(** ** Lists and strings *)

Section ListFacts.

Context {A B : Type}.


Lemma filter_all_false (p : A -> bool) (l : list A) :
  (forall x, In x l -> p x = false) -> filter p l = [].
Proof.
  induction l as [|x l IH]; simpl; intros H; [reflexivity|].
  rewrite (H x) by now left. apply IH. intros y Hy. apply H. now right.
Qed.

Lemma existsb_map (f : B -> bool) (g : A -> B) (l : list A) :
  existsb f (map g l) = existsb (fun x => f (g x)) l.
Proof.
  induction l as [|x l IH]; simpl; [reflexivity|]. now rewrite IH.
Qed.

Lemma is_nil_map (g : A -> B) (l : list A) : is_nil (map g l) = is_nil l.
Proof. now destruct l. Qed.

End ListFacts.

Lemma starts_with_spec (p s : string) :
  Str.starts_with p s = true <-> exists post, s = p ++ post.
Proof.
  revert s. induction p as [|a p IH]; intros s; simpl.
  - split; [intros _; now exists s | reflexivity].
  - destruct s as [|b s].
    + split; [discriminate | intros [post H]; discriminate].
    + rewrite andb_true_iff, Ascii.eqb_eq, IH. split.
      * intros [-> [post ->]]. now exists post.
      * intros [post H]. injection H as -> ->. split; [reflexivity | now exists post].
Qed.

Lemma contains_spec (sub s : string) :
  Str.contains sub s = true <-> exists pre post, s = pre ++ sub ++ post.
Proof.
  induction s as [|c s IH].
  - simpl. rewrite orb_false_r, starts_with_spec. split.
    + intros [post H]. now exists "", post.
    + intros (pre & post & H). destruct pre; [now exists post | discriminate].
  - cbn [Str.contains]. rewrite orb_true_iff, starts_with_spec, IH. split.
    + intros [[post H] | (pre & post & H)].
      * now exists "", post.
      * exists (String c pre), post. simpl. now rewrite H.
    + intros (pre & post & H). destruct pre as [|a pre].
      * left. now exists post.
      * right. simpl in H. injection H as _ H. now exists pre, post.
Qed.

(** ** The upsert sink *)

Lemma same_key_spec (a b : JobRecord) :
  same_key a b = true <-> Spec.key a = Spec.key b.
Proof.
  unfold same_key, Spec.key.
  rewrite andb_true_iff, !String.eqb_eq. split.
  - now intros [-> ->].
  - intros H. now injection H.
Qed.


Lemma same_key_refl (a : JobRecord) : same_key a a = true.
Proof. now apply same_key_spec. Qed.





Lemma load_to_sqlite_app (rs1 rs2 : list JobRecord) (t : table) :
  load_to_sqlite (rs1 ++ rs2) t = load_to_sqlite rs2 (load_to_sqlite rs1 t).
Proof. apply fold_left_app. Qed.



(** ** The Filter stage *)

Section FilterLoop.

Variables (tz : Z -> Z) (cutoff : F64.t) (titles : list string).

Lemma title_test_spec (r : JobRecord) :
  negb (is_nil (map Str.lower titles))
  && negb (title_matches (title r) (map Str.lower titles))
  = negb (Spec.title_ok titles r).
Proof.
  unfold Spec.title_ok, title_matches.
  rewrite is_nil_map, existsb_map, negb_orb. reflexivity.
Qed.

Lemma filter_loop_sound (records : list JobRecord) :
  forall filtered out,
    filter_loop tz cutoff (map Str.lower titles) records filtered = Ok out ->
    out = (filtered ++ filter (Spec.keeps tz cutoff titles) records)%list.
Proof.
  induction records as [|r rs IH]; intros filtered out; cbn [filter_loop filter].
  - intros H. injection H as <-. now rewrite app_nil_r.
  - rewrite title_test_spec. unfold Spec.keeps at 1, Spec.recent.
    destruct (Spec.title_ok titles r); cbn [negb andb].
    + destruct (parse_datetime (date_posted r)) as [[dt|]|e]; cbn [bind].
      * destruct (Clock.timestamp tz dt) as [ts|e]; cbn [bind]; [|discriminate].
        destruct (F64.ltb ts cutoff); cbn [negb]; intros H.
        -- now apply IH.
        -- apply IH in H. now rewrite <- app_assoc in H.
      * apply IH.
      * discriminate.
    + apply IH.
Qed.

Lemma filter_loop_total (records : list JobRecord) :
  (forall r, In r records -> Spec.recency_defined tz r) ->
  forall filtered,
    filter_loop tz cutoff (map Str.lower titles) records filtered
    = Ok (filtered ++ filter (Spec.keeps tz cutoff titles) records)%list.
Proof.
  induction records as [|r rs IH]; intros Hdef filtered; cbn [filter_loop filter].
  - now rewrite app_nil_r.
  - assert (Hr : Spec.recency_defined tz r) by (apply Hdef; now left).
    assert (Hrs : forall x, In x rs -> Spec.recency_defined tz x)
      by (intros x Hx; apply Hdef; now right).
    rewrite title_test_spec. unfold Spec.keeps at 1, Spec.recent.
    unfold Spec.recency_defined in Hr.
    destruct (Spec.title_ok titles r); cbn [negb andb].
    + destruct (parse_datetime (date_posted r)) as [[dt|]|e]; cbn [bind].
      * destruct Hr as [ts ->]. cbn [bind].
        destruct (F64.ltb ts cutoff); cbn [negb].
        -- now apply IH.
        -- rewrite IH by assumption. now rewrite <- app_assoc.
      * now apply IH.
      * contradiction.
    + now apply IH.
Qed.

End FilterLoop.

Lemma title_ok_spec (titles : list string) (r : JobRecord) :
  titles <> [] ->
  (Spec.title_ok titles r = true <->
   exists entry, In entry titles /\
     exists pre post, Str.lower (title r) = pre ++ Str.lower entry ++ post).
Proof.
  intros Hne. unfold Spec.title_ok.
  destruct titles as [|t ts]; [contradiction|].
  cbn [is_nil orb]. rewrite existsb_exists.
  split; intros (entry & Hin & H); exists entry; split; auto;
    now apply contains_spec.
Qed.

(** What Filter keeps.  Whenever [filter_jobs] returns, its result is the
    input list restricted, in its order, to the records that pass the title
    test and whose timestamp is not below the cutoff the code computes; it
    does return whenever the cutoff and the timestamp of each record can be
    evaluated.  The title test holds of every record when the title list
    is empty, and otherwise says that the lower-cased title contains one
    lower-cased entry of the list at least. *)
Lemma filter_jobs_keeps (env : Env) (records : list JobRecord)
    (titles : list string) :
  (forall out,
     filter_jobs env records titles = Ok out ->
     exists cutoff,
       cutoff_float env = Ok cutoff /\
       out = filter (Spec.keeps (utcoffset env) cutoff titles) records)
  /\ (forall cutoff,
        cutoff_float env = Ok cutoff ->
        (forall r, In r records -> Spec.recency_defined (utcoffset env) r) ->
        filter_jobs env records titles
        = Ok (filter (Spec.keeps (utcoffset env) cutoff titles) records))
  /\ (forall r, Spec.title_ok [] r = true)
  /\ (forall r,
        titles <> [] ->
        (Spec.title_ok titles r = true <->
         exists entry, In entry titles /\
           exists pre post,
             Str.lower (title r) = pre ++ Str.lower entry ++ post)).
Proof.
  unfold filter_jobs. split; [|split; [|split]].
  - intros out. destruct (cutoff_float env) as [cutoff|e]; cbn [bind]; [|discriminate].
    intros H. exists cutoff. split; [reflexivity|].
    now apply filter_loop_sound in H.
  - intros cutoff -> Hdef. cbn [bind].
    now rewrite filter_loop_total.
  - reflexivity.
  - intros r. apply title_ok_spec.
Qed.

(** ** The orchestrator *)

Lemma PORTALS_get_registered (name : string) :
  Spec.registered name = true -> PORTALS_get name = Some name.
Proof. unfold PORTALS_get, Spec.registered. now intros ->. Qed.

Lemma PORTALS_get_unknown (name : string) :
  Spec.registered name = false -> PORTALS_get name = None.
Proof. unfold PORTALS_get, Spec.registered. now intros ->. Qed.

Lemma logged_nil (w : World) : Spec.logged w [] = w.
Proof. destruct w. unfold Spec.logged. simpl. now rewrite app_nil_r. Qed.

Lemma logged_cons (w : World) (n : string) (names : list string) :
  Spec.logged (log (Extract n) w) names = Spec.logged w (n :: names).
Proof. unfold Spec.logged, log. simpl. now rewrite <- app_assoc. Qed.

Section ExtractLoop.

Variable env : Env.

Lemma extract_loop_unknown (pre : list string) (bad : string) (post : list string) :
  (forall n, In n pre -> Spec.extractable env n) ->
  Spec.registered bad = false ->
  forall records w,
    extract_loop env (pre ++ bad :: post) records w
    = (Spec.logged w pre, Raised (ValueError ("Unknown portal: " ++ bad))).
Proof.
  intros Hpre Hbad.
  induction pre as [|n pre IH]; intros records w; cbn [app extract_loop].
  - now rewrite PORTALS_get_unknown, logged_nil.
  - destruct (Hpre n (or_introl eq_refl)) as [Hn [rs Hrs]].
    rewrite PORTALS_get_registered, Hrs by assumption.
    rewrite IH by (intros x Hx; apply Hpre; now right).
    now rewrite logged_cons.
Qed.

Lemma extract_loop_all (selected : list string) :
  (forall n, In n selected -> Spec.extractable env n) ->
  forall records w,
    exists records',
      extract_loop env selected records w = (Spec.logged w selected, Ok records').
Proof.
  induction selected as [|n sel IH]; intros Hsel records w; cbn [extract_loop].
  - exists records. now rewrite logged_nil.
  - destruct (Hsel n (or_introl eq_refl)) as [Hn [rs Hrs]].
    rewrite PORTALS_get_registered, Hrs by assumption.
    destruct (IH (fun x Hx => Hsel x (or_intror Hx)) (records ++ rs)%list
                 (log (Extract n) w)) as [records' ->].
    exists records'. now rewrite logged_cons.
Qed.

Lemma extract_loop_world (selected : list string) :
  forall records w,
    exists names, fst (extract_loop env selected records w) = Spec.logged w names.
Proof.
  induction selected as [|n sel IH]; intros records w; cbn [extract_loop].
  - exists []. now rewrite logged_nil.
  - destruct (PORTALS_get n) as [p|].
    + destruct (feed env p) as [rs|e].
      * destruct (IH (records ++ rs)%list (log (Extract p) w)) as [names H].
        exists (p :: names). now rewrite H, logged_cons.
      * exists [p]. cbn [fst]. now rewrite <- logged_cons, logged_nil.
    + exists []. now rewrite logged_nil.
Qed.

End ExtractLoop.

Lemma writes_logged (w : World) (names : list string) :
  filter Spec.is_write (events (Spec.logged w names)) = filter Spec.is_write (events w).
Proof.
  unfold Spec.logged. cbn [events]. rewrite filter_app.
  rewrite (filter_all_false Spec.is_write (map Extract names)).
  - apply app_nil_r.
  - intros e He. apply in_map_iff in He as (n & <- & _). reflexivity.
Qed.

Lemma extractions_logged (w : World) (names : list string) :
  Spec.extractions (events (Spec.logged w names))
  = (Spec.extractions (events w) ++ names)%list.
Proof.
  unfold Spec.logged, Spec.extractions. cbn [events]. rewrite flat_map_app. f_equal.
  induction names as [|n names IH]; simpl; [reflexivity | now rewrite IH].
Qed.

(** A sink either does its work and returns, or raises what the file
    system or SQLite raised, which is no configuration error, and leaves
    the files as they were. *)
Lemma write_outcome (path content : string) (w : World) :
  Sink.write path content w = (put path (TextFile content) w, Ok tt)
  \/ exists e,
       Sink.write path content w = (w, Raised e)
       /\ Spec.is_configuration_error (@Raised Z e) = false.
Proof.
  unfold Sink.write, Sink.opens.
  destruct (negb (Text.lacks Sink.NUL path)); [right; now eexists|].
  destruct (Str.is_empty path); [right; now eexists|].
  destruct (files w path); auto; right; now eexists.
Qed.

Lemma sqlite_outcome (records : list JobRecord) (path : string) (w : World) :
  (exists w', Sink.sqlite records path w = (w', Ok tt) /\ events w' = events w)
  \/ exists e,
       Sink.sqlite records path w = (w, Raised e)
       /\ Spec.is_configuration_error (@Raised Z e) = false.
Proof.
  unfold Sink.sqlite, Sink.connect.
  destruct (negb (Text.lacks Sink.NUL path)); [right; now eexists|].
  destruct (Sink.private path); [left; now eexists|].
  destruct (files w path) as [| |content|jobs];
    try (left; now eexists); try (right; now eexists).
  destruct (Sink.no_bytes content); [left; now eexists|right; now eexists].
Qed.

Lemma load_outcome (fmt : string) (records : list JobRecord) (path : string)
    (w : World) :
  (exists w', Facts.load fmt records path w = (w', Ok tt)
              /\ events w' = events w)
  \/ exists e,
       Facts.load fmt records path w = (w, Raised e)
       /\ Spec.is_configuration_error (@Raised Z e) = false.
Proof.
  unfold Facts.load, Sink.csv, Sink.jsonl.
  destruct (String.eqb fmt "csv");
    [|destruct (String.eqb fmt "jsonl"); [|apply sqlite_outcome]];
    match goal with
    | |- context [Sink.write path ?c w] =>
        destruct (write_outcome path c w) as [-> | [e [-> He]]];
          [left; now eexists | right; now exists e]
    end.
Qed.

(** Past the three stages, [run_etl] is the sink of the format, then the
    message. *)
Lemma run_etl_stages (env : Env) (w w1 : World) (selected : list string)
    (output fmt : string) (titles : list string)
    (records cleaned filtered : list JobRecord) :
  extract_loop env selected [] w = (w1, Ok records) ->
  transform records = Ok cleaned ->
  filter_jobs env cleaned titles = Ok filtered ->
  run_etl env w selected output fmt titles
  = match Facts.sink_of fmt output filtered with
    | None => (w1, Raised (ValueError ("Unsupported format: " ++ fmt)))
    | Some sink =>
        match Facts.load fmt filtered output (log sink w1) with
        | (w2, Raised e) => (w2, Raised e)
        | (w2, Ok _) => (log (Print (List.length filtered) output) w2, Ok 0)
        end
    end.
Proof.
  intros He Ht Hf. unfold run_etl, Facts.sink_of, Facts.load.
  rewrite He, Ht, Hf.
  destruct (String.eqb fmt "csv"); [reflexivity|].
  destruct (String.eqb fmt "jsonl"); [reflexivity|].
  destruct (String.eqb fmt "sqlite"); reflexivity.
Qed.

Lemma is_write_sink (fmt output : string) (records : list JobRecord)
    (sink : event) :
  Facts.sink_of fmt output records = Some sink -> Spec.is_write sink = true.
Proof.
  unfold Facts.sink_of.
  destruct (String.eqb fmt "csv"); [now intros [= <-]|].
  destruct (String.eqb fmt "jsonl"); [now intros [= <-]|].
  destruct (String.eqb fmt "sqlite"); [now intros [= <-]|discriminate].
Qed.

(** C1, as the code has it.  The configuration error for an unknown source
    name is raised when the loop over the selected names reaches it: the
    adapters of the names before it have been extracted by then, in their
    order, and none after it.  The error for an unsupported format is raised
    after every selected adapter has been extracted and the records
    transformed and filtered.  When [run_etl] raises one of these two
    errors, no sink has been called and no file has changed. *)
Theorem run_etl_configuration_errors (env : Env) (w : World)
    (selected : list string) (output fmt : string) (titles : list string) :
  (forall pre bad post,
     selected = (pre ++ bad :: post)%list ->
     (forall n, In n pre -> Spec.extractable env n) ->
     Spec.registered bad = false ->
     run_etl env w selected output fmt titles
     = (Spec.logged w pre, Raised (ValueError ("Unknown portal: " ++ bad))))
  /\ (forall w1 records cleaned filtered,
        Spec.supported_format fmt = false ->
        extract_loop env selected [] w = (w1, Ok records) ->
        transform records = Ok cleaned ->
        filter_jobs env cleaned titles = Ok filtered ->
        (forall n, In n selected -> Spec.extractable env n) ->
        w1 = Spec.logged w selected /\
        run_etl env w selected output fmt titles
        = (w1, Raised (ValueError ("Unsupported format: " ++ fmt))))
  /\ (forall w' msg,
        run_etl env w selected output fmt titles
        = (w', Raised (ValueError msg)) ->
        Spec.is_configuration_error (@Raised Z (ValueError msg)) = true ->
        files w' = files w
        /\ filter Spec.is_write (events w') = filter Spec.is_write (events w)).
Proof.
  split; [|split].
  - intros pre bad post -> Hpre Hbad. unfold run_etl.
    now rewrite extract_loop_unknown.
  - intros w1 records cleaned filtered Hfmt Hext Htr Hfl Hsel.
    destruct (extract_loop_all env selected Hsel [] w) as [records' H'].
    rewrite Hext in H'. injection H' as -> _. split; [reflexivity|].
    unfold run_etl. rewrite Hext, Htr, Hfl.
    unfold Spec.supported_format in Hfmt.
    apply orb_false_iff in Hfmt as [Hfmt Hsq].
    apply orb_false_iff in Hfmt as [Hcsv Hjs].
    now rewrite Hcsv, Hjs, Hsq.
  - intros w' msg H Hcfg.
    destruct (extract_loop_world env selected [] w) as [names Hw].
    destruct (extract_loop env selected [] w) as [w1 [records|e1]] eqn:He;
      cbn [fst] in Hw; subst w1.
    + destruct (transform records) as [cleaned|e2] eqn:Ht.
      * destruct (filter_jobs env cleaned titles) as [filtered|e3] eqn:Hf.
        -- rewrite (run_etl_stages _ _ _ _ _ _ _ _ _ _ He Ht Hf) in H.
           destruct (Facts.sink_of fmt output filtered) as [sink|].
           ++ destruct (load_outcome fmt filtered output
                          (log sink (Spec.logged w names)))
                as [[w2 [E _]] | [e [E Hno]]]; rewrite E in H;
                [discriminate|].
              injection H as _ ->. congruence.
           ++ injection H as <- _.
              split; [reflexivity | apply writes_logged].
        -- unfold run_etl in H. rewrite He, Ht, Hf in H. injection H as <- _.
           split; [reflexivity | apply writes_logged].
      * unfold run_etl in H. rewrite He, Ht in H. injection H as <- _.
        split; [reflexivity | apply writes_logged].
    + unfold run_etl in H. rewrite He in H. injection H as <- _.
      split; [reflexivity | apply writes_logged].
Qed.

(** ** Characters, digits and padding *)

Lemma all_chars_list_complete (c : ascii) : In c Str.all_chars_list.
Proof.
  unfold Str.all_chars_list. apply in_map_iff. exists (nat_of_ascii c). split.
  - apply ascii_nat_embedding.
  - apply in_seq. pose proof (nat_ascii_bounded c). lia.
Qed.

(** An implication between two tests on characters that a run over the 256
    characters confirms. *)
Lemma char_implies (p q : ascii -> bool) :
  forallb (fun c => implb (p c) (q c)) Str.all_chars_list = true ->
  forall c, p c = true -> q c = true.
Proof.
  intros H c Hp. rewrite forallb_forall in H.
  specialize (H c (all_chars_list_complete c)). now rewrite Hp in H.
Qed.

Ltac char_fact := apply char_implies; vm_compute; reflexivity.

Lemma decimal_not_space (c : ascii) :
  Str.isdecimal c = true -> Str.isspace c = false.
Proof.
  intros H. apply negb_true_iff. revert c H. char_fact.
Qed.

Lemma decimal_isdigit_char (c : ascii) :
  Str.isdecimal c = true -> Str.isdigit_char c = true.
Proof. revert c. char_fact. Qed.

Lemma decimal_lower (c : ascii) :
  Str.isdecimal c = true -> Str.lower_char c = c.
Proof.
  intros H. apply Ascii.eqb_eq. revert c H. char_fact.
Qed.

Lemma lower_decimal (c : ascii) :
  Str.isdecimal (Str.lower_char c) = true -> Str.isdecimal c = true.
Proof. revert c. char_fact. Qed.

Lemma decimal_digit_char (c : ascii) :
  Str.isdecimal c = true -> Str.digit_char (Str.digit_val c) = c.
Proof.
  intros H. apply Ascii.eqb_eq. revert c H. char_fact.
Qed.

Lemma decimal_digit_val (c : ascii) :
  Str.isdecimal c = true -> 0 <= Str.digit_val c <= 9.
Proof.
  intros H.
  assert (E : (0 <=? Str.digit_val c) && (Str.digit_val c <=? 9) = true)
    by (revert c H; char_fact).
  apply andb_true_iff in E as [E1 E2]. lia.
Qed.

Lemma isdigit_char_not_special (c : ascii) :
  Str.isdigit_char c = true ->
  negb (Str.isspace c) && negb (Ascii.eqb c "+") && negb (Ascii.eqb c "-")
  && negb (Ascii.eqb c "_") = true.
Proof. revert c. char_fact. Qed.

(** A literal that is not a digit never matches a digit. *)
Lemma ieq_decimal (l c : ascii) :
  Str.isdecimal l = false -> Str.isdecimal c = true -> Re.ieq l c = false.
Proof.
  intros Hl Hc. unfold Re.ieq. rewrite (decimal_lower c Hc).
  destruct (Ascii.eqb c (Str.lower_char l)) eqn:E; [|reflexivity].
  apply Ascii.eqb_eq in E. subst c. apply lower_decimal in Hc. congruence.
Qed.

Lemma ieq_refl (c : ascii) : Re.ieq c c = true.
Proof. apply Ascii.eqb_refl. Qed.

(** Enumeration of an integer known to lie in a short range. *)
Lemma Z_in_range (lo : Z) (n : nat) (x : Z) :
  lo <= x < lo + Z.of_nat n ->
  In x (map (fun i => lo + Z.of_nat i) (seq 0 n)).
Proof.
  intros H. apply in_map_iff. exists (Z.to_nat (x - lo)). split; [lia|].
  apply in_seq. lia.
Qed.

Ltac enum x lo n :=
  let H := fresh "Hin" in
  assert (H : In x (map (fun i => lo + Z.of_nat i) (seq 0 n)))
    by (apply Z_in_range; lia);
  cbv in H;
  repeat (destruct H as [H | H]; [subst x | ]); [ .. | contradiction H].

(** Linear arithmetic with division and remainder by constants. *)
Ltac dlia := Z.div_mod_to_equations; lia.

Lemma digit_char_decimal (k : Z) :
  0 <= k <= 9 -> Str.isdecimal (Str.digit_char k) = true.
Proof. intros H. enum k 0 10%nat; reflexivity. Qed.

Lemma digit_val_digit_char (k : Z) :
  0 <= k <= 9 -> Str.digit_val (Str.digit_char k) = k.
Proof. intros H. enum k 0 10%nat; reflexivity. Qed.

Lemma digit_char_mod_decimal (n : Z) :
  Str.isdecimal (Str.digit_char (n mod 10)) = true.
Proof. apply digit_char_decimal. dlia. Qed.

(** ** Stripping and integer literals *)

Lemma lstrip_first (s : string) (a : ascii) :
  Str.first_char (Str.lstrip s) = Some a -> Str.isspace a = false.
Proof.
  induction s as [|c s IH]; simpl; [discriminate|].
  destruct (Str.isspace c) eqn:E; [assumption|].
  simpl. intros H. injection H as <-. assumption.
Qed.

Lemma rstrip_last (s : string) (b : ascii) :
  Str.last_char (Str.rstrip s) = Some b -> Str.isspace b = false.
Proof.
  induction s as [|c s IH]; simpl; [discriminate|].
  destruct (Str.rstrip s) as [|c' s'] eqn:E.
  - destruct (Str.isspace c) eqn:Ec; simpl; [discriminate|].
    intros H. injection H as <-. assumption.
  - rewrite andb_false_r. cbn [Str.last_char]. exact IH.
Qed.

Lemma rstrip_first (s : string) (a : ascii) :
  Str.first_char (Str.rstrip s) = Some a -> Str.first_char s = Some a.
Proof.
  destruct s as [|c s]; simpl; [discriminate|].
  destruct (Str.isspace c && Str.is_empty (Str.rstrip s)); simpl;
    [discriminate | trivial].
Qed.

(** [strip] leaves no white space at either end. *)
Lemma strip_clean (s : string) : Spec.no_outer_whitespace (Str.strip s) = true.
Proof.
  unfold Spec.no_outer_whitespace, Str.strip.
  destruct (Str.first_char (Str.rstrip (Str.lstrip s))) as [a|] eqn:Ea;
    [|reflexivity].
  destruct (Str.last_char (Str.rstrip (Str.lstrip s))) as [b|] eqn:Eb;
    [|reflexivity].
  apply rstrip_first, lstrip_first in Ea. apply rstrip_last in Eb.
  now rewrite Ea, Eb.
Qed.

Lemma rstrip_no_space (s : string) :
  Str.all_chars (fun c => negb (Str.isspace c)) s = true -> Str.rstrip s = s.
Proof.
  induction s as [|c s IH]; simpl; [reflexivity|].
  intros H. apply andb_true_iff in H as [Hc Hs].
  apply negb_true_iff in Hc. rewrite Hc, IH by assumption. reflexivity.
Qed.

Lemma lstrip_no_space (s : string) :
  Str.all_chars (fun c => negb (Str.isspace c)) s = true -> Str.lstrip s = s.
Proof.
  destruct s as [|c s]; simpl; [reflexivity|].
  intros H. apply andb_true_iff in H as [Hc _].
  apply negb_true_iff in Hc. now rewrite Hc.
Qed.

Lemma all_chars_impl (p q : ascii -> bool) (s : string) :
  (forall c, p c = true -> q c = true) ->
  Str.all_chars p s = true -> Str.all_chars q s = true.
Proof.
  intros Hpq. induction s as [|c s IH]; simpl; [reflexivity|].
  intros H. apply andb_true_iff in H as [Hc Hs].
  now rewrite (Hpq c Hc), IH.
Qed.

Lemma all_chars_app (p : ascii -> bool) (a b : string) :
  Str.all_chars p (a ++ b) = Str.all_chars p a && Str.all_chars p b.
Proof.
  induction a as [|c a IH]; simpl; [reflexivity|].
  now rewrite IH, andb_assoc.
Qed.

Lemma strip_isdigit (s : string) :
  Str.all_chars Str.isdigit_char s = true -> Str.strip s = s.
Proof.
  intros H.
  assert (Hs : Str.all_chars (fun c => negb (Str.isspace c)) s = true).
  { revert H. apply all_chars_impl. intros c Hc.
    apply isdigit_char_not_special in Hc.
    now repeat (apply andb_true_iff in Hc as [Hc _]). }
  unfold Str.strip. now rewrite lstrip_no_space, rstrip_no_space.
Qed.

Lemma int_digits_decimal (s : string) :
  Str.all_chars Str.isdecimal s = true ->
  forall acc b,
    Str.int_digits acc b s
    = if Str.is_empty s && negb b then None
      else Some (Spec.decimal_value_from acc s).
Proof.
  induction s as [|c s IH]; intros H acc b; simpl.
  - now destruct b.
  - simpl in H. apply andb_true_iff in H as [Hc Hs].
    rewrite Hc, IH by assumption. simpl. now rewrite andb_false_r.
Qed.

Lemma int_digits_superscript (s : string) :
  Str.all_chars Str.isdigit_char s = true ->
  Str.all_chars Str.isdecimal s = false ->
  forall acc b, Str.int_digits acc b s = None.
Proof.
  induction s as [|c s IH]; intros H Hd acc b; simpl in *; [discriminate|].
  apply andb_true_iff in H as [Hc Hs].
  destruct (Str.isdecimal c) eqn:E; simpl in Hd.
  - now apply IH.
  - apply isdigit_char_not_special in Hc.
    apply andb_true_iff in Hc as [_ Hu]. apply negb_true_iff in Hu.
    now rewrite Hu.
Qed.

Lemma count_decimal (s : string) :
  Str.all_chars Str.isdecimal s = true ->
  Str.count Str.isdecimal s = Str.len s.
Proof.
  unfold Str.len. induction s as [|c s IH]; [reflexivity|].
  cbn [Str.all_chars Str.count String.length]. intros H.
  apply andb_true_iff in H as [-> Hs]. rewrite IH by assumption. lia.
Qed.

(** [int] on a string that passes [isdigit]: the decimal value, or
    [ValueError] when a superscript digit occurs or the digits are more
    than [int] converts. *)
Lemma int_isdigit (s : string) :
  Str.isdigit s = true ->
  Str.int s
  = if Spec.decimal_string s && (Str.len s <=? Str.MAX_STR_DIGITS)
    then Some (Spec.decimal_value s) else None.
Proof.
  unfold Str.isdigit, Spec.decimal_string, Str.int. intros H.
  apply andb_true_iff in H as [Hne H]. rewrite Hne. cbn [andb].
  rewrite strip_isdigit by assumption.
  destruct s as [|c r]; [discriminate|].
  pose proof H as Hc. cbn [Str.all_chars] in Hc.
  apply andb_true_iff in Hc as [Hc _].
  apply isdigit_char_not_special in Hc.
  apply andb_true_iff in Hc as [Hc _]. apply andb_true_iff in Hc as [Hc Hm].
  apply andb_true_iff in Hc as [_ Hp].
  apply negb_true_iff in Hp, Hm. rewrite Hp, Hm.
  destruct (Str.all_chars Str.isdecimal (String c r)) eqn:E; cbn [andb].
  - rewrite (count_decimal _ E), Z.ltb_antisym.
    destruct (Str.len (String c r) <=? Str.MAX_STR_DIGITS); cbn [negb];
      [now rewrite int_digits_decimal | reflexivity].
  - destruct (_ <? _); [reflexivity|]. now apply int_digits_superscript.
Qed.

Lemma decimal_string_isdigit (s : string) :
  Spec.decimal_string s = true -> Str.isdigit s = true.
Proof.
  unfold Spec.decimal_string, Str.isdigit. intros H.
  apply andb_true_iff in H as [-> H]. simpl.
  revert H. apply all_chars_impl, decimal_isdigit_char.
Qed.

Lemma int_decimal (s : string) :
  Spec.decimal_string s = true -> Str.len s <= Str.MAX_STR_DIGITS ->
  Str.int s = Some (Spec.decimal_value s).
Proof.
  intros H Hlen. rewrite int_isdigit by now apply decimal_string_isdigit.
  apply Z.leb_le in Hlen. now rewrite H, Hlen.
Qed.

(** The padded numbers of a date are far below the limit of [int]. *)
Ltac few_digits := vm_compute; discriminate.

(** Two padded digits, read back. *)
Lemma zfill2_decimal (n : Z) :
  0 <= n <= 99 -> Str.all_chars Str.isdecimal (Str.zfill2 n) = true.
Proof.
  intros H. unfold Str.zfill2. cbn [Str.all_chars].
  rewrite digit_char_decimal, digit_char_mod_decimal; [reflexivity|].
  dlia.
Qed.

Lemma decimal_value_zfill2 (n acc : Z) (rest : string) :
  0 <= n <= 99 ->
  Spec.decimal_value_from acc (Str.zfill2 n ++ rest)
  = Spec.decimal_value_from (100 * acc + n) rest.
Proof.
  intros H. unfold Str.zfill2. cbn [append Spec.decimal_value_from].
  rewrite !digit_val_digit_char.
  - f_equal. dlia.
  - dlia.
  - dlia.
Qed.

Lemma digits_n_zfill2 (n acc : Z) (rest : string) :
  0 <= n <= 99 ->
  Spec.digits_n 2 acc (Str.zfill2 n ++ rest) = Some (100 * acc + n, rest).
Proof.
  intros H. unfold Str.zfill2. cbn [append Spec.digits_n].
  rewrite digit_char_decimal, digit_char_mod_decimal.
  - rewrite !digit_val_digit_char.
    + do 2 f_equal. dlia.
    + dlia.
    + dlia.
  - dlia.
Qed.

Lemma zfill4_decimal (n : Z) :
  0 <= n <= 9999 -> Str.all_chars Str.isdecimal (Str.zfill4 n) = true.
Proof.
  intros H. unfold Str.zfill4. rewrite all_chars_app, !zfill2_decimal.
  - reflexivity.
  - dlia.
  - dlia.
Qed.

Lemma digits_n_zfill4 (n : Z) (rest : string) :
  0 <= n <= 9999 ->
  Spec.digits_n 4 0 (Str.zfill4 n ++ rest) = Some (n, rest).
Proof.
  intros H. unfold Str.zfill4, Str.zfill2. cbn [append Spec.digits_n].
  rewrite !digit_char_decimal by dlia.
  rewrite !digit_val_digit_char by dlia.
  do 2 f_equal. dlia.
Qed.

Lemma append_assoc (a b c : string) : (a ++ b) ++ c = a ++ b ++ c.
Proof. induction a as [|x a IH]; simpl; [reflexivity | now rewrite IH]. Qed.

Lemma append_nil_r (a : string) : a ++ "" = a.
Proof. induction a as [|x a IH]; simpl; [reflexivity | now rewrite IH]. Qed.

(** ** The calendar *)

Section CalendarFacts.
Import Calendar.

Lemma days_before_year_decomp (n400 n100 n4 n1 : Z) :
  0 <= n100 <= 3 -> 0 <= n4 <= 24 -> 0 <= n1 <= 3 ->
  days_before_year (400 * n400 + 100 * n100 + 4 * n4 + n1 + 1)
  = 146097 * n400 + 36524 * n100 + 1461 * n4 + 365 * n1.
Proof. intros. unfold days_before_year. dlia. Qed.

Lemma is_leap_decomp (n400 n100 n4 n1 : Z) :
  0 <= n100 <= 3 -> 0 <= n4 <= 24 -> 0 <= n1 <= 3 ->
  is_leap (400 * n400 + 100 * n100 + 4 * n4 + n1 + 1)
  = (n1 =? 3) && (negb (n4 =? 24) || (n100 =? 3)).
Proof.
  intros. unfold is_leap.
  repeat match goal with
  | |- context [?a =? ?b] => destruct (Z.eqb_spec a b)
  end; simpl; try reflexivity; exfalso; dlia.
Qed.

Lemma month_day_ok_all (leapyear : bool) (n : Z) :
  0 <= n <= 364 -> Spec.month_day_ok leapyear n = true.
Proof.
  intros H.
  assert (E : forallb (fun i => Spec.month_day_ok true (Z.of_nat i)
                                && Spec.month_day_ok false (Z.of_nat i))
                      (seq 0 365) = true) by (vm_compute; reflexivity).
  rewrite forallb_forall in E.
  specialize (E (Z.to_nat n)). rewrite Z2Nat.id in E by lia.
  assert (Hin : In (Z.to_nat n) (seq 0 365)) by (apply in_seq; lia).
  apply E in Hin. apply andb_true_iff in Hin as [H1 H2].
  now destruct leapyear.
Qed.

Lemma ord2ymd_spec (n : Z) :
  1 <= n <= 3652059 ->
  exists y m d,
    ord2ymd n = (y, m, d)
    /\ DT.check_date_fields y m d = true
    /\ ymd2ord y m d = n.
Proof.
  intros Hn. unfold ord2ymd, DI400Y, DI100Y, DI4Y. cbv zeta.
  set (n0 := n - 1).
  set (n400 := n0 / 146097). set (r1 := n0 mod 146097).
  set (n100 := r1 / 36524). set (r2 := r1 mod 36524).
  set (n4 := r2 / 1461). set (r3 := r2 mod 1461).
  set (n1 := r3 / 365). set (r4 := r3 mod 365).
  assert (B : 0 <= n400 <= 24 /\ 0 <= n100 <= 4 /\ 0 <= n4 <= 24 /\ 0 <= n1 <= 4
              /\ 0 <= r4 <= 364
              /\ n = 146097 * n400 + 36524 * n100 + 1461 * n4 + 365 * n1 + r4 + 1
              /\ (n100 = 4 -> n4 = 0 /\ n1 = 0 /\ r4 = 0)
              /\ (n1 = 4 -> r4 = 0 /\ n4 <> 24))
    by (subst n0 n400 r1 n100 r2 n4 r3 n1 r4; dlia).
  clearbody n400 n100 n4 n1 r4. clear n0 r1 r2 r3.
  destruct B as (B400 & B100 & B4 & B1 & Br & Hdec & H100 & H1).
  destruct ((n1 =? 4) || (n100 =? 4)) eqn:Eb.
  - eexists _, _, _. split; [reflexivity|].
    assert (Hy : n400 * 400 + 1 + n100 * 100 + n4 * 4 + n1 - 1
                 = 400 * n400 + 100 * n100 + 4 * n4 + n1) by lia.
    rewrite Hy.
    apply orb_true_iff in Eb as [E | E]; apply Z.eqb_eq in E.
    + destruct H1 as [Hr4 Hn4]; [assumption|]. subst n1 r4.
      assert (Hl : is_leap (400 * n400 + 100 * n100 + 4 * n4 + 4) = true).
      { unfold is_leap.
        repeat match goal with
        | |- context [?a =? ?b] => destruct (Z.eqb_spec a b)
        end; simpl; try reflexivity; exfalso; dlia. }
      split.
      * unfold DT.check_date_fields, DT.MINYEAR, DT.MAXYEAR, days_in_month.
        cbn [Z.eqb andb DAYS_IN_MONTH].
        repeat (apply andb_true_iff; split); try reflexivity; apply Z.leb_le; lia.
      * unfold ymd2ord, days_before_month, days_before_year. rewrite Hl.
        cbn [DAYS_BEFORE_MONTH Z.ltb Z.compare Pos.compare Pos.compare_cont andb].
        dlia.
    + destruct H100 as (-> & -> & ->); [assumption|]. subst n100.
      assert (Hl : is_leap (400 * n400 + 100 * 4 + 4 * 0 + 0) = true).
      { unfold is_leap.
        repeat match goal with
        | |- context [?a =? ?b] => destruct (Z.eqb_spec a b)
        end; simpl; try reflexivity; exfalso; dlia. }
      split.
      * unfold DT.check_date_fields, DT.MINYEAR, DT.MAXYEAR, days_in_month.
        cbn [Z.eqb andb DAYS_IN_MONTH].
        repeat (apply andb_true_iff; split); try reflexivity; apply Z.leb_le; lia.
      * unfold ymd2ord, days_before_month, days_before_year. rewrite Hl.
        cbn [DAYS_BEFORE_MONTH Z.ltb Z.compare Pos.compare Pos.compare_cont andb].
        dlia.
  - apply orb_false_iff in Eb as [E1 E100].
    apply Z.eqb_neq in E1, E100.
    assert (Hy : n400 * 400 + 1 + n100 * 100 + n4 * 4 + n1
                 = 400 * n400 + 100 * n100 + 4 * n4 + n1 + 1) by lia.
    rewrite Hy.
    set (leapyear := (n1 =? 3) && (negb (n4 =? 24) || (n100 =? 3))).
    set (y := 400 * n400 + 100 * n100 + 4 * n4 + n1 + 1).
    assert (Hl : is_leap y = leapyear) by (apply is_leap_decomp; lia).
    assert (Hdy : days_before_year y
                  = 146097 * n400 + 36524 * n100 + 1461 * n4 + 365 * n1)
      by (apply days_before_year_decomp; lia).
    pose proof (month_day_ok_all leapyear r4 Br) as Hok.
    unfold Spec.month_day_ok, Spec.month_day in Hok. cbv zeta in Hok.
    assert (Hyr : 1 <= y <= 9999) by (subst y; lia).
    clearbody y leapyear.
    destruct (r4 <? DAYS_BEFORE_MONTH (Z.shiftr (r4 + 50) 5)
                    + (if (2 <? Z.shiftr (r4 + 50) 5) && leapyear then 1 else 0)).
    + eexists _, _, _. split; [reflexivity|].
      repeat (apply andb_true_iff in Hok as [Hok ?]).
      split.
      * unfold DT.check_date_fields, DT.MINYEAR, DT.MAXYEAR, days_in_month.
        rewrite Hl.
        repeat (apply andb_true_iff; split); try assumption; try (apply Z.leb_le; lia).
        match goal with H : (_ <=? DAYS_IN_MONTH _ + _) = true |- _ =>
          apply Z.leb_le in H; apply Z.leb_le end.
        destruct ((Z.shiftr (r4 + 50) 5 - 1 =? 2) && leapyear) eqn:E2; [|lia].
        apply andb_true_iff in E2 as [Em _]. apply Z.eqb_eq in Em.
        rewrite Em in *. cbn [DAYS_IN_MONTH] in *. lia.
      * unfold ymd2ord, days_before_month. rewrite Hl, Hdy.
        match goal with H : (_ =? r4 + 1) = true |- _ => apply Z.eqb_eq in H end.
        lia.
    + eexists _, _, _. split; [reflexivity|].
      repeat (apply andb_true_iff in Hok as [Hok ?]).
      split.
      * unfold DT.check_date_fields, DT.MINYEAR, DT.MAXYEAR, days_in_month.
        rewrite Hl.
        repeat (apply andb_true_iff; split); try assumption; try (apply Z.leb_le; lia).
        match goal with H : (_ <=? DAYS_IN_MONTH _ + _) = true |- _ =>
          apply Z.leb_le in H; apply Z.leb_le end.
        destruct ((Z.shiftr (r4 + 50) 5 =? 2) && leapyear) eqn:E2; [|lia].
        apply andb_true_iff in E2 as [Em _]. apply Z.eqb_eq in Em.
        rewrite Em in *. cbn [DAYS_IN_MONTH] in *. lia.
      * unfold ymd2ord, days_before_month. rewrite Hl, Hdy.
        match goal with H : (_ =? r4 + 1) = true |- _ => apply Z.eqb_eq in H end.
        lia.
Qed.

End CalendarFacts.

(** ** The formats of [parse_datetime] on padded fields *)

Import Re Strptime.

Lemma run_re_Y (A : Type) (a b c d : ascii) (rest acc : string) (g : groups)
    (k : cont A) :
  Str.isdecimal a = true -> Str.isdecimal b = true ->
  Str.isdecimal c = true -> Str.isdecimal d = true ->
  run A re_Y (String a (String b (String c (String d rest)))) acc g k
  = k rest (acc ++ String a (String b (String c (String d ""))))
      (("Y", String a (String b (String c (String d "")))) :: g).
Proof.
  intros Ha Hb Hc Hd. unfold re_Y. cbn [run seq digit].
  rewrite Ha, Hb, Hc, Hd. reflexivity.
Qed.

Ltac directive_case Hk :=
  match goal with
  | |- context [Str.zfill2 ?n] =>
      let v := eval vm_compute in (Str.zfill2 n) in
      change (Str.zfill2 n) with v in Hk |- *
  end;
  cbn in Hk |- *;
  match goal with
  | |- match ?k ?r ?a ?g with Some _ => _ | None => _ end = _ =>
      let E := fresh "E" in
      destruct (k r a g) eqn:E;
      [ reflexivity
      | destruct Hk as [Hk | Hk];
        [ congruence | rewrite ?Hk by reflexivity; reflexivity ] ]
  end.

Section Directives.

Variable A : Type.
Variables (rest acc : string) (g : groups) (k : cont A).

Lemma run_re_m (m : Z) :
  1 <= m <= 12 ->
  k rest (acc ++ Str.zfill2 m) (("m", Str.zfill2 m) :: g) <> None \/ digit_shy k ->
  run A re_m (Str.zfill2 m ++ rest) acc g k
  = k rest (acc ++ Str.zfill2 m) (("m", Str.zfill2 m) :: g).
Proof. intros Hm Hk. enum m 1 12%nat; directive_case Hk. Qed.

Lemma run_re_d (d : Z) :
  1 <= d <= 31 ->
  k rest (acc ++ Str.zfill2 d) (("d", Str.zfill2 d) :: g) <> None \/ digit_shy k ->
  run A re_d (Str.zfill2 d ++ rest) acc g k
  = k rest (acc ++ Str.zfill2 d) (("d", Str.zfill2 d) :: g).
Proof. intros Hd Hk. enum d 1 31%nat; directive_case Hk. Qed.

Lemma run_re_H (h : Z) :
  0 <= h <= 23 ->
  k rest (acc ++ Str.zfill2 h) (("H", Str.zfill2 h) :: g) <> None \/ digit_shy k ->
  run A re_H (Str.zfill2 h ++ rest) acc g k
  = k rest (acc ++ Str.zfill2 h) (("H", Str.zfill2 h) :: g).
Proof. intros Hh Hk. enum h 0 24%nat; directive_case Hk. Qed.

Lemma run_re_M (m : Z) :
  0 <= m <= 59 ->
  k rest (acc ++ Str.zfill2 m) (("M", Str.zfill2 m) :: g) <> None \/ digit_shy k ->
  run A re_M (Str.zfill2 m ++ rest) acc g k
  = k rest (acc ++ Str.zfill2 m) (("M", Str.zfill2 m) :: g).
Proof. intros Hm Hk. enum m 0 60%nat; directive_case Hk. Qed.

Lemma run_re_S (s : Z) :
  0 <= s <= 59 ->
  k rest (acc ++ Str.zfill2 s) (("S", Str.zfill2 s) :: g) <> None \/ digit_shy k ->
  run A re_S (Str.zfill2 s ++ rest) acc g k
  = k rest (acc ++ Str.zfill2 s) (("S", Str.zfill2 s) :: g).
Proof. intros Hs Hk. enum s 0 60%nat; directive_case Hk. Qed.

End Directives.

Lemma pattern_fmt1 :
  pattern "%Y-%m-%dT%H:%M:%S%z"
  = Some (Seq re_Y (Seq (lit "-") (Seq re_m (Seq (lit "-") (Seq re_d
         (Seq (lit "T") (Seq re_H (Seq (lit ":") (Seq re_M (Seq (lit ":")
         (Seq re_S (Seq re_z Eps)))))))))))).
Proof. reflexivity. Qed.

Lemma pattern_fmt2 :
  pattern "%a, %d %b %Y %H:%M:%S %z"
  = Some (Seq re_a (Seq (lit ",") (Seq (Plus Str.isspace) (Seq re_d
         (Seq (Plus Str.isspace) (Seq re_b (Seq (Plus Str.isspace) (Seq re_Y
         (Seq (Plus Str.isspace) (Seq re_H (Seq (lit ":") (Seq re_M
         (Seq (lit ":") (Seq re_S (Seq (Plus Str.isspace)
         (Seq re_z Eps)))))))))))))))).
Proof. reflexivity. Qed.

Lemma pattern_fmt3 :
  pattern "%Y-%m-%d"
  = Some (Seq re_Y (Seq (lit "-") (Seq re_m (Seq (lit "-") (Seq re_d Eps))))).
Proof. reflexivity. Qed.

Section Shy.

Variable A : Type.
Variables (r : re) (k : cont A).

Lemma shy_lit (l : ascii) :
  Str.isdecimal l = false ->
  digit_shy (fun s acc g => run A (Seq (lit l) r) s acc g k).
Proof.
  intros Hl c s acc g Hc. cbn [run lit]. now rewrite ieq_decimal.
Qed.

Lemma decimal_not_sign (c : ascii) :
  Str.isdecimal c = true -> sign_char c = false.
Proof. intros H. apply negb_true_iff. revert c H. char_fact. Qed.

Lemma decimal_not_Z (c : ascii) :
  Str.isdecimal c = true -> Ascii.eqb "Z" c = false.
Proof. intros H. apply negb_true_iff. revert c H. char_fact. Qed.

Lemma shy_re_z : digit_shy (fun s acc g => run A re_z s acc g k).
Proof.
  intros c s acc g Hc. unfold re_z. cbn [run seq lit_exact].
  now rewrite decimal_not_sign, decimal_not_Z.
Qed.

Lemma run_re_a_digit (c : ascii) (s acc : string) (g : groups) :
  Str.isdecimal c = true ->
  run A (Seq re_a r) (String c s) acc g k = None.
Proof.
  intros Hc. unfold re_a, a_weekday. cbn [run one_of word lit].
  now rewrite !(ieq_decimal _ c) by (reflexivity || assumption).
Qed.

End Shy.

Lemma fmt_fields_decimal (y : Z) :
  0 <= y <= 9999 ->
  Str.isdecimal (Str.digit_char (y / 100 / 10)) = true
  /\ Str.isdecimal (Str.digit_char ((y / 100) mod 10)) = true
  /\ Str.isdecimal (Str.digit_char (y mod 100 / 10)) = true
  /\ Str.isdecimal (Str.digit_char ((y mod 100) mod 10)) = true.
Proof. intros H. repeat split; apply digit_char_decimal; dlia. Qed.

Ltac open_year :=
  unfold Str.zfill4; unfold Str.zfill2 at 1 2; cbn [append].

Ltac lit_step := cbn [run lit]; rewrite ?ieq_refl; cbn [run].

(** The plain date format on a padded date. *)
Lemma match_fmt3_date (y m d : Z) (rest : string) :
  0 <= y <= 9999 -> 1 <= m <= 12 -> 1 <= d <= 31 ->
  match_prefix (Seq re_Y (Seq (lit "-") (Seq re_m (Seq (lit "-") (Seq re_d Eps)))))
    (Str.zfill4 y ++ "-" ++ Str.zfill2 m ++ "-" ++ Str.zfill2 d ++ rest)
  = Some (rest, [("d", Str.zfill2 d); ("m", Str.zfill2 m); ("Y", Str.zfill4 y)]).
Proof.
  intros Hy Hm Hd. destruct (fmt_fields_decimal y Hy) as (Y1 & Y2 & Y3 & Y4).
  unfold match_prefix. open_year. cbn [run].
  rewrite run_re_Y by assumption. lit_step.
  rewrite run_re_m; [|assumption|right; apply shy_lit; reflexivity].
  lit_step.
  rewrite run_re_d; [reflexivity|assumption|left; discriminate].
Qed.

Section DatePrefix.

Variable A : Type.
Variables (r : re) (k : cont A).

(** The three date directives of the ISO formats on a padded date. *)
Lemma run_date_prefix (y m d : Z) (rest acc : string) (g : groups) :
  0 <= y <= 9999 -> 1 <= m <= 12 -> 1 <= d <= 31 ->
  digit_shy (fun s a g' => run A r s a g' k) ->
  run A (Seq re_Y (Seq (lit "-") (Seq re_m (Seq (lit "-") (Seq re_d r)))))
    (Str.zfill4 y ++ "-" ++ Str.zfill2 m ++ "-" ++ Str.zfill2 d ++ rest) acc g k
  = run A r rest
      (acc ++ Str.zfill4 y ++ "-" ++ Str.zfill2 m ++ "-" ++ Str.zfill2 d)
      (("d", Str.zfill2 d) :: ("m", Str.zfill2 m) :: ("Y", Str.zfill4 y) :: g) k.
Proof.
  intros Hy Hm Hd Hk. destruct (fmt_fields_decimal y Hy) as (Y1 & Y2 & Y3 & Y4).
  open_year. cbn [run].
  rewrite run_re_Y by assumption. lit_step.
  rewrite run_re_m; [|assumption|right; apply shy_lit; reflexivity].
  lit_step.
  rewrite run_re_d; [|assumption|right; exact Hk].
  f_equal. rewrite !append_assoc. reflexivity.
Qed.

End DatePrefix.

Lemma int_zfill2 (n : Z) : 0 <= n <= 99 -> Str.int (Str.zfill2 n) = Some n.
Proof.
  intros H. rewrite int_decimal.
  - f_equal. unfold Spec.decimal_value.
    rewrite <- (append_nil_r (Str.zfill2 n)), decimal_value_zfill2 by assumption.
    cbn [Spec.decimal_value_from]. lia.
  - unfold Spec.decimal_string. now rewrite zfill2_decimal.
  - few_digits.
Qed.

Lemma int_zfill4 (n : Z) : 0 <= n <= 9999 -> Str.int (Str.zfill4 n) = Some n.
Proof.
  intros H. rewrite int_decimal.
  - f_equal. unfold Spec.decimal_value, Str.zfill4.
    rewrite decimal_value_zfill2 by dlia.
    rewrite <- (append_nil_r (Str.zfill2 (n mod 100))), decimal_value_zfill2 by dlia.
    cbn [Spec.decimal_value_from]. dlia.
  - unfold Spec.decimal_string. now rewrite zfill4_decimal.
  - few_digits.
Qed.

Lemma check_date_fields_bounds (y m d : Z) :
  DT.check_date_fields y m d = true ->
  1 <= y <= 9999 /\ 1 <= m <= 12 /\ 1 <= d <= 31
  /\ d <= Calendar.days_in_month y m.
Proof.
  unfold DT.check_date_fields, DT.MINYEAR, DT.MAXYEAR. intros H.
  repeat (apply andb_true_iff in H as [H ?]).
  repeat match goal with H : (_ <=? _) = true |- _ => apply Z.leb_le in H end.
  assert (Calendar.days_in_month y m <= 31).
  { unfold Calendar.days_in_month.
    destruct ((m =? 2) && Calendar.is_leap y); [lia|].
    assert (Hm : 1 <= m <= 12) by lia. enum m 1 12%nat; cbn; lia. }
  lia.
Qed.

Lemma check_time_fields_bounds (h mi s us : Z) :
  DT.check_time_fields h mi s us = true ->
  0 <= h <= 23 /\ 0 <= mi <= 59 /\ 0 <= s <= 59 /\ 0 <= us <= 999999.
Proof.
  unfold DT.check_time_fields. intros H.
  repeat (apply andb_true_iff in H as [H ?]).
  repeat match goal with H : (_ <=? _) = true |- _ => apply Z.leb_le in H end.
  lia.
Qed.

Arguments Str.zfill2 : simpl never.
Arguments Str.zfill4 : simpl never.
Arguments Str.zfill6 : simpl never.

(** [%Y-%m-%d] reads a padded date of the calendar back. *)
Lemma strptime_fmt3_date (y m d : Z) :
  DT.check_date_fields y m d = true ->
  strptime (Str.zfill4 y ++ "-" ++ Str.zfill2 m ++ "-" ++ Str.zfill2 d) "%Y-%m-%d"
  = Some (DT.mk_datetime y m d 0 0 0 0 None).
Proof.
  intros Hv. pose proof (check_date_fields_bounds y m d Hv) as (Hy & Hm & Hd & _).
  unfold strptime. rewrite pattern_fmt3.
  rewrite <- (append_nil_r (Str.zfill2 d)), match_fmt3_date by lia.
  cbn [Str.is_empty]. unfold build, int_group, month_group, tz_group.
  cbn. rewrite int_zfill4, !int_zfill2 by lia.
  unfold DT.datetime_new. now rewrite Hv.
Qed.

(** The first format needs a [T] after the date. *)
Lemma strptime_fmt1_date (y m d : Z) :
  DT.check_date_fields y m d = true ->
  strptime (Str.zfill4 y ++ "-" ++ Str.zfill2 m ++ "-" ++ Str.zfill2 d)
           "%Y-%m-%dT%H:%M:%S%z"
  = None.
Proof.
  intros Hv. pose proof (check_date_fields_bounds y m d Hv) as (Hy & Hm & Hd & _).
  unfold strptime. rewrite pattern_fmt1. unfold match_prefix.
  rewrite <- (append_nil_r (Str.zfill2 d)).
  rewrite run_date_prefix; [reflexivity|lia|lia|lia|].
  apply shy_lit. reflexivity.
Qed.

(** The second format starts with the name of a day. *)
Lemma strptime_fmt2_digit (c : ascii) (s : string) :
  Str.isdecimal c = true ->
  strptime (String c s) "%a, %d %b %Y %H:%M:%S %z" = None.
Proof.
  intros Hc. unfold strptime. rewrite pattern_fmt2. unfold match_prefix.
  now rewrite run_re_a_digit.
Qed.

(** ** Plain dates and date-times without offset *)

Lemma contains_char (x : ascii) (s : string) :
  Str.contains (String x "") s
  = negb (Str.all_chars (fun c => negb (Ascii.eqb x c)) s).
Proof.
  induction s as [|c s IH]; [reflexivity|].
  cbn [Str.contains Str.starts_with Str.all_chars].
  rewrite IH. destruct (Ascii.eqb x c); destruct s; reflexivity.
Qed.

Lemma decimal_not_T (c : ascii) :
  Str.isdecimal c = true -> negb (Ascii.eqb "T" c) = true.
Proof. revert c. char_fact. Qed.

Lemma decimal_not_colon (c : ascii) :
  Str.isdecimal c = true -> negb (Ascii.eqb ":" c) = true.
Proof. revert c. char_fact. Qed.

Lemma ymd_string_chars (p : ascii -> bool) (y m d : Z) :
  0 <= y <= 9999 -> 0 <= m <= 99 -> 0 <= d <= 99 ->
  (forall c, Str.isdecimal c = true -> p c = true) -> p "-"%char = true ->
  Str.all_chars p (Spec.ymd_string y m d) = true.
Proof.
  intros Hy Hm Hd Hp Hdash. unfold Spec.ymd_string.
  rewrite !all_chars_app. cbn [Str.all_chars]. rewrite Hdash.
  rewrite (all_chars_impl _ p _ Hp (zfill4_decimal y Hy)).
  rewrite (all_chars_impl _ p _ Hp (zfill2_decimal m Hm)).
  rewrite (all_chars_impl _ p _ Hp (zfill2_decimal d Hd)).
  reflexivity.
Qed.

Lemma ymd_string_not_isdigit (y m d : Z) (rest : string) :
  0 <= y <= 9999 -> Str.isdigit (Spec.ymd_string y m d ++ rest) = false.
Proof.
  intros Hy. unfold Str.isdigit, Spec.ymd_string.
  rewrite !all_chars_app. cbn [append Str.all_chars].
  change (Str.isdigit_char "-") with false.
  repeat (rewrite ?andb_false_r; cbn [andb]). reflexivity.
Qed.

(** A plain date of the calendar is parsed by the third format. *)
Lemma parse_datetime_date (y m d : Z) :
  DT.check_date_fields y m d = true ->
  parse_datetime (Spec.ymd_string y m d)
  = Ok (Some (DT.mk_datetime y m d 0 0 0 0 None)).
Proof.
  intros Hv. pose proof (check_date_fields_bounds y m d Hv) as (Hy & Hm & Hd & _).
  unfold parse_datetime.
  rewrite <- (append_nil_r (Spec.ymd_string y m d)) at 2.
  rewrite ymd_string_not_isdigit by lia.
  assert (He : Str.is_empty (Spec.ymd_string y m d) = false)
    by (unfold Spec.ymd_string; open_year; reflexivity).
  rewrite He. unfold FORMATS. cbn [try_formats].
  unfold Spec.ymd_string.
  rewrite strptime_fmt1_date by assumption.
  rewrite strptime_fmt3_date by assumption.
  assert (H2 : strptime (Str.zfill4 y ++ "-" ++ Str.zfill2 m ++ "-" ++ Str.zfill2 d)
                 "%a, %d %b %Y %H:%M:%S %z" = None).
  { destruct (fmt_fields_decimal y) as (Y1 & _); [lia|].
    open_year. now apply strptime_fmt2_digit. }
  now rewrite H2.
Qed.

Lemma ymd_string_no_indicator (y m d : Z) :
  0 <= y <= 9999 -> 0 <= m <= 99 -> 0 <= d <= 99 ->
  Spec.has_time_indicator (Spec.ymd_string y m d) = false.
Proof.
  intros Hy Hm Hd. unfold Spec.has_time_indicator.
  rewrite !contains_char.
  rewrite !ymd_string_chars; auto using decimal_not_T, decimal_not_colon.
Qed.

(** A plain date of the calendar is a fixed point of [normalize_date]. *)
Lemma normalize_date_date (y m d : Z) :
  DT.check_date_fields y m d = true ->
  normalize_date (Spec.ymd_string y m d) = Ok (Spec.ymd_string y m d).
Proof.
  intros Hv. pose proof (check_date_fields_bounds y m d Hv) as (Hy & Hm & Hd & _).
  unfold normalize_date. rewrite parse_datetime_date by assumption.
  cbn [bind].
  rewrite <- (append_nil_r (Spec.ymd_string y m d)) at 1.
  rewrite ymd_string_not_isdigit by lia.
  pose proof (ymd_string_no_indicator y m d) as Hi.
  unfold Spec.has_time_indicator in Hi. cbn [orb]. rewrite Hi by lia.
  reflexivity.
Qed.

Lemma naive_string_unfold (y m d hh mm ss : Z) :
  Spec.naive_string y m d hh mm ss
  = Str.zfill4 y ++ "-" ++ Str.zfill2 m ++ "-" ++ Str.zfill2 d
    ++ String "T" (Str.zfill2 hh ++ String ":" (Str.zfill2 mm ++ String ":"
       (Str.zfill2 ss ++ ""))).
Proof.
  unfold Spec.naive_string, Spec.ymd_string. rewrite !append_assoc.
  cbn [append]. now rewrite append_nil_r.
Qed.

Lemma strptime_fmt1_naive (y m d hh mm ss : Z) :
  DT.check_date_fields y m d = true ->
  DT.check_time_fields hh mm ss 0 = true ->
  strptime (Spec.naive_string y m d hh mm ss) "%Y-%m-%dT%H:%M:%S%z" = None.
Proof.
  intros Hv Ht.
  pose proof (check_date_fields_bounds y m d Hv) as (Hy & Hm & Hd & _).
  pose proof (check_time_fields_bounds _ _ _ _ Ht) as (Hh & Hmi & Hs & _).
  unfold strptime. rewrite pattern_fmt1, naive_string_unfold.
  unfold match_prefix.
  rewrite run_date_prefix; [|lia|lia|lia|apply shy_lit; reflexivity].
  lit_step.
  rewrite run_re_H; [|assumption|right; apply shy_lit; reflexivity].
  lit_step.
  rewrite run_re_M; [|assumption|right; apply shy_lit; reflexivity].
  lit_step.
  rewrite run_re_S; [|assumption|right; apply shy_re_z].
  reflexivity.
Qed.

Lemma strptime_fmt3_naive (y m d hh mm ss : Z) :
  DT.check_date_fields y m d = true ->
  strptime (Spec.naive_string y m d hh mm ss) "%Y-%m-%d" = None.
Proof.
  intros Hv.
  pose proof (check_date_fields_bounds y m d Hv) as (Hy & Hm & Hd & _).
  unfold strptime. rewrite pattern_fmt3, naive_string_unfold.
  now rewrite match_fmt3_date by lia.
Qed.

(** No format of [parse_datetime] reads a date-time without offset. *)
Lemma parse_datetime_naive (y m d hh mm ss : Z) :
  DT.check_date_fields y m d = true ->
  DT.check_time_fields hh mm ss 0 = true ->
  parse_datetime (Spec.naive_string y m d hh mm ss) = Ok None.
Proof.
  intros Hv Ht.
  pose proof (check_date_fields_bounds y m d Hv) as (Hy & Hm & Hd & _).
  unfold parse_datetime.
  assert (Hd' : Str.isdigit (Spec.naive_string y m d hh mm ss) = false)
    by (unfold Spec.naive_string; apply ymd_string_not_isdigit; lia).
  assert (He : Str.is_empty (Spec.naive_string y m d hh mm ss) = false)
    by (rewrite naive_string_unfold; open_year; reflexivity).
  rewrite Hd', He. unfold FORMATS. cbn [try_formats].
  rewrite strptime_fmt1_naive, strptime_fmt3_naive by assumption.
  assert (H2 : strptime (Spec.naive_string y m d hh mm ss)
                 "%a, %d %b %Y %H:%M:%S %z" = None).
  { destruct (fmt_fields_decimal y) as (Y1 & _); [lia|].
    rewrite naive_string_unfold. open_year. now apply strptime_fmt2_digit. }
  now rewrite H2.
Qed.

(** ** ISO-8601 texts *)

Lemma digits_n_zfill6 (n : Z) (rest : string) :
  0 <= n <= 999999 ->
  Spec.digits_n 6 0 (Str.zfill6 n ++ rest) = Some (n, rest).
Proof.
  intros H. unfold Str.zfill6, Str.zfill4, Str.zfill2.
  cbn [append Spec.digits_n].
  rewrite !digit_char_decimal by dlia.
  rewrite !digit_val_digit_char by dlia.
  do 2 f_equal. dlia.
Qed.

Lemma iso_date_prefix_ymd (y m d : Z) (rest : string) :
  DT.check_date_fields y m d = true ->
  Spec.iso_date_prefix (Spec.ymd_string y m d ++ rest)
  = Some (Calendar.ymd2ord y m d - Calendar.EPOCH_ORDINAL, rest).
Proof.
  intros Hv. pose proof (check_date_fields_bounds y m d Hv) as (Hy & Hm & Hd & Hdim).
  unfold Spec.iso_date_prefix, Spec.ymd_string.
  rewrite !append_assoc.
  rewrite digits_n_zfill4 by lia. cbn [snd fst append Spec.expect].
  change (Ascii.eqb "-" "-") with true. cbn iota.
  rewrite digits_n_zfill2 by lia. cbn [snd fst append Spec.expect].
  change (Ascii.eqb "-" "-") with true. cbn iota.
  rewrite digits_n_zfill2 by lia. cbn [snd fst].
  replace (100 * 0 + m) with m by lia. replace (100 * 0 + d) with d by lia.
  assert (E : (1 <=? m) && (m <=? 12) && (1 <=? d)
              && (d <=? Calendar.days_in_month y m) = true).
  { repeat (apply andb_true_iff; split); apply Z.leb_le; lia. }
  now rewrite E.
Qed.

Lemma is_iso_date_ymd (y m d : Z) :
  DT.check_date_fields y m d = true ->
  Spec.is_iso_date (Spec.ymd_string y m d) = true.
Proof.
  intros Hv. unfold Spec.is_iso_date.
  rewrite <- (append_nil_r (Spec.ymd_string y m d)).
  now rewrite iso_date_prefix_ymd.
Qed.

Lemma iso_clock_hms (hh mm ss : Z) (rest : string) :
  DT.check_time_fields hh mm ss 0 = true ->
  Spec.starts "." rest = false ->
  Spec.iso_clock 23 (Str.zfill2 hh ++ ":" ++ Str.zfill2 mm ++ ":"
                     ++ Str.zfill2 ss ++ rest)
  = Some ((hh * 3600 + mm * 60 + ss) * 1000000, rest).
Proof.
  intros Ht Hr.
  pose proof (check_time_fields_bounds _ _ _ _ Ht) as (Hh & Hmi & Hs & _).
  unfold Spec.iso_clock.
  rewrite digits_n_zfill2 by lia. cbn [snd fst append Spec.expect].
  change (Ascii.eqb ":" ":") with true. cbn iota.
  rewrite digits_n_zfill2 by lia. cbn [snd fst append Spec.expect].
  change (Ascii.eqb ":" ":") with true. cbn iota.
  rewrite digits_n_zfill2 by lia. cbn [snd fst].
  unfold Spec.iso_fraction. rewrite Hr. cbn [fst snd].
  replace (100 * 0 + hh) with hh by lia.
  replace (100 * 0 + mm) with mm by lia.
  replace (100 * 0 + ss) with ss by lia.
  assert (E : (hh <=? 23) && (mm <=? 59) && (ss <=? 59) = true).
  { repeat (apply andb_true_iff; split); apply Z.leb_le; lia. }
  rewrite E. do 2 f_equal. lia.
Qed.

Lemma iso_offset_format (off : Z) :
  - DT.US_PER_DAY < off < DT.US_PER_DAY ->
  off mod (60 * 1000000) = 0 ->
  Spec.starts "." (DT.format_offset (Some off)) = false
  /\ Str.is_empty (DT.format_offset (Some off)) = false
  /\ Spec.iso_offset (DT.format_offset (Some off)) = Some (off, "").
Proof.
  unfold DT.US_PER_DAY, DT.US_PER_SECOND. intros Hoff Hmin.
  unfold DT.format_offset, DT.US_PER_SECOND. cbv zeta.
  set (a := if off <? 0 then - off else off).
  assert (Ha : 0 <= a < 86400000000 /\ (off < 0 -> a = - off)
               /\ (0 <= off -> a = off) /\ a mod 60000000 = 0).
  { subst a. destruct (Z.ltb_spec off 0); repeat split; dlia. }
  destruct Ha as (Ha & Hneg & Hpos & Hamin).
  set (hh := a / (3600 * 1000000)).
  set (mo := a mod (3600 * 1000000)).
  set (ss := mo mod (60 * 1000000)).
  set (mm := mo / (60 * 1000000)).
  assert (B : 0 <= hh <= 23 /\ 0 <= mm <= 59 /\ ss = 0
              /\ a = (hh * 3600 + mm * 60) * 1000000)
    by (subst hh mm ss mo; dlia).
  clearbody a hh mm ss. clear mo.
  destruct B as (Bh & Bm & -> & Hdec).
  assert (Hsign : forall rest,
             Spec.starts "." ((if off <? 0 then "-" else "+") ++ rest) = false
             /\ Str.is_empty ((if off <? 0 then "-" else "+") ++ rest) = false)
    by (intros rest; destruct (off <? 0); split; reflexivity).
  split; [apply Hsign|]. split; [apply Hsign|].
  unfold Spec.iso_offset. cbn [Z.eqb].
  assert (Hst : forall rest,
             Spec.starts "+" ((if off <? 0 then "-" else "+") ++ rest)
             || Spec.starts "-" ((if off <? 0 then "-" else "+") ++ rest) = true
             /\ Spec.starts "-" ((if off <? 0 then "-" else "+") ++ rest)
                = (off <? 0)
             /\ Str.drop 1 ((if off <? 0 then "-" else "+") ++ rest) = rest)
    by (intros rest; destruct (off <? 0); repeat split; reflexivity).
  destruct (Hst (Str.zfill2 hh ++ ":" ++ Str.zfill2 mm ++ "")) as (-> & -> & ->).
  rewrite digits_n_zfill2 by lia. cbn [snd fst append Spec.expect].
  change (Ascii.eqb ":" ":") with true. cbn iota.
  rewrite digits_n_zfill2 by lia. cbn [snd fst].
  replace (100 * 0 + hh) with hh by lia.
  replace (100 * 0 + mm) with mm by lia.
  assert (E : (hh <=? 23) && (mm <=? 59)
              && negb ((off <? 0) && ((hh * 3600 + mm * 60) * 1000000 =? 0))
              = true).
  { repeat (apply andb_true_iff; split); try (apply Z.leb_le; lia).
    apply negb_true_iff, andb_false_iff.
    destruct (Z.ltb_spec off 0); [right; apply Z.eqb_neq; lia | now left]. }
  rewrite E. do 2 f_equal.
  destruct (Z.ltb_spec off 0); lia.
Qed.

(** An offset with seconds is printed as [+HH:MM:SS], which the ISO-8601
    offset does not span. *)
Lemma iso_offset_format_seconds (off : Z) :
  - DT.US_PER_DAY < off < DT.US_PER_DAY ->
  off mod (60 * 1000000) <> 0 ->
  Spec.starts "." (DT.format_offset (Some off)) = false
  /\ Str.is_empty (DT.format_offset (Some off)) = false
  /\ match Spec.iso_offset (DT.format_offset (Some off)) with
     | Some (_, rest) => Str.is_empty rest = false
     | None => True
     end.
Proof.
  unfold DT.US_PER_DAY, DT.US_PER_SECOND. intros Hoff Hmin.
  unfold DT.format_offset, DT.US_PER_SECOND. cbv zeta.
  set (a := if off <? 0 then - off else off).
  assert (Ha : 0 <= a < 86400000000 /\ a mod 60000000 <> 0).
  { subst a. destruct (Z.ltb_spec off 0); split; dlia. }
  destruct Ha as (Ha & Hamin).
  set (hh := a / (3600 * 1000000)).
  set (mo := a mod (3600 * 1000000)).
  set (ss := mo mod (60 * 1000000)).
  set (mm := mo / (60 * 1000000)).
  assert (B : 0 <= hh <= 23 /\ 0 <= mm <= 59 /\ ss <> 0)
    by (subst hh mm ss mo; dlia).
  clearbody a hh mm ss. clear mo.
  destruct B as (Bh & Bm & Bs).
  apply Z.eqb_neq in Bs. rewrite Bs.
  assert (Hsign : forall rest,
             Spec.starts "." ((if off <? 0 then "-" else "+") ++ rest) = false
             /\ Str.is_empty ((if off <? 0 then "-" else "+") ++ rest) = false)
    by (intros rest; destruct (off <? 0); split; reflexivity).
  split; [apply Hsign|]. split; [apply Hsign|].
  unfold Spec.iso_offset.
  assert (Hst : forall rest,
             Spec.starts "+" ((if off <? 0 then "-" else "+") ++ rest)
             || Spec.starts "-" ((if off <? 0 then "-" else "+") ++ rest) = true
             /\ Str.drop 1 ((if off <? 0 then "-" else "+") ++ rest) = rest)
    by (intros rest; destruct (off <? 0); repeat split; reflexivity).
  match goal with
  | |- context [(if off <? 0 then "-" else "+") ++ ?rest] =>
      destruct (Hst rest) as (-> & ->)
  end.
  rewrite digits_n_zfill2 by lia. cbn [snd fst append Spec.expect].
  change (Ascii.eqb ":" ":") with true. cbn iota.
  rewrite digits_n_zfill2 by lia. cbn [snd fst].
  match goal with
  | |- match (if ?c then _ else _) with _ => _ end => destruct c
  end; [reflexivity | exact I].
Qed.

(** ** What the parsers return *)

Lemma datetime_new_some (y m d h mi s us : Z) (tz : option Z) (dt : DT.datetime) :
  DT.datetime_new y m d h mi s us tz = Some dt ->
  dt = DT.mk_datetime y m d h mi s us tz
  /\ DT.check_date_fields y m d = true
  /\ DT.check_time_fields h mi s us = true.
Proof.
  unfold DT.datetime_new.
  destruct (DT.check_date_fields y m d); [|discriminate].
  destruct (DT.check_time_fields h mi s us); [|discriminate].
  intros H. injection H as <-. auto.
Qed.

Lemma timezone_new_some (off tz : Z) :
  DT.timezone_new off = Some tz ->
  tz = off /\ (- DT.US_PER_DAY <? off) && (off <? DT.US_PER_DAY) = true.
Proof.
  unfold DT.timezone_new.
  destruct ((- DT.US_PER_DAY <? off) && (off <? DT.US_PER_DAY)); [|discriminate].
  intros H. injection H as <-. auto.
Qed.

Lemma build_valid (g : groups) (dt : DT.datetime) :
  build g = Some dt ->
  Spec.valid_datetime dt = true /\ DT.microsecond dt = 0.
Proof.
  unfold build.
  destruct (int_group "Y" 1900 g) as [y|]; [|discriminate].
  destruct (month_group g) as [m|]; [|discriminate].
  destruct (int_group "d" 1 g) as [d|]; [|discriminate].
  destruct (int_group "H" 0 g) as [hh|]; [|discriminate].
  destruct (int_group "M" 0 g) as [mm|]; [|discriminate].
  destruct (int_group "S" 0 g) as [ss|]; [|discriminate].
  destruct (tz_group g) as [tz|] eqn:Etz; [|discriminate].
  intros H. apply datetime_new_some in H as (-> & Hd & Ht).
  split; [|reflexivity]. unfold Spec.valid_datetime. cbn.
  rewrite Hd, Ht. cbn [andb].
  destruct tz as [off|]; [|reflexivity].
  unfold tz_group in Etz.
  destruct (lookup "z" g) as [z|]; [|discriminate].
  destruct (parse_z z) as [[gmtoff frac]|]; [|discriminate].
  destruct (DT.timezone_new (gmtoff * DT.US_PER_SECOND + frac)) as [tz|] eqn:E;
    [|discriminate].
  cbn in Etz. injection Etz as ->.
  apply timezone_new_some in E as [-> E]. exact E.
Qed.

Lemma strptime_valid (v fmt : string) (dt : DT.datetime) :
  strptime v fmt = Some dt ->
  Spec.valid_datetime dt = true /\ DT.microsecond dt = 0.
Proof.
  unfold strptime.
  destruct (pattern fmt) as [r|]; [|discriminate].
  destruct (match_prefix r v) as [[rest g]|]; [|discriminate].
  destruct (Str.is_empty rest); [|discriminate].
  apply build_valid.
Qed.

Lemma try_formats_valid (v : string) (fmts : list string) (dt : DT.datetime) :
  try_formats v fmts = Some dt ->
  Spec.valid_datetime dt = true /\ DT.microsecond dt = 0.
Proof.
  induction fmts as [|f fmts IH]; cbn [try_formats]; [discriminate|].
  destruct (strptime v f) as [dt'|] eqn:E; [|exact IH].
  intros H. injection H as <-. now apply strptime_valid in E.
Qed.

Lemma utcfromtimestamp_valid (t : Z) (dt : DT.datetime) :
  DT.utcfromtimestamp t = Ok dt ->
  Spec.valid_datetime dt = true /\ DT.microsecond dt = 0 /\ DT.tzinfo dt = None.
Proof.
  unfold DT.utcfromtimestamp.
  destruct (DT.gmtime t) as [[[[[y m] d] hh] mm] ss].
  destruct (DT.datetime_new y m d hh mm ss 0 None) as [dt'|] eqn:E; [|discriminate].
  intros H. injection H as <-.
  apply datetime_new_some in E as (-> & Hd & Ht).
  unfold Spec.valid_datetime. cbn. now rewrite Hd, Ht.
Qed.

(** What [parse_datetime] returns is a [datetime] its constructor admits,
    without microseconds. *)
Lemma parse_datetime_valid (v : string) (dt : DT.datetime) :
  parse_datetime v = Ok (Some dt) ->
  Spec.valid_datetime dt = true /\ DT.microsecond dt = 0.
Proof.
  unfold parse_datetime.
  destruct (Str.is_empty v); [discriminate|].
  destruct (Str.isdigit v).
  - destruct (Str.int v) as [t|]; [|discriminate].
    destruct (DT.utcfromtimestamp t) as [dt'|e] eqn:E; cbn [bind]; [|discriminate].
    intros H. injection H as <-.
    apply utcfromtimestamp_valid in E as (? & ? & _). auto.
  - intros H.
    assert (H' : try_formats v FORMATS = Some dt) by congruence.
    now apply try_formats_valid in H'.
Qed.

Lemma parse_datetime_isdigit (v : string) (dt : DT.datetime) :
  parse_datetime v = Ok (Some dt) ->
  Str.isdigit v = Spec.decimal_string v.
Proof.
  unfold parse_datetime.
  destruct (Str.is_empty v); [discriminate|].
  destruct (Str.isdigit v) eqn:Ed.
  - rewrite (int_isdigit v Ed).
    destruct (Spec.decimal_string v); [reflexivity | discriminate].
  - intros _. destruct (Spec.decimal_string v) eqn:E; [|reflexivity].
    apply decimal_string_isdigit in E. congruence.
Qed.

Lemma valid_datetime_fields (dt : DT.datetime) :
  Spec.valid_datetime dt = true ->
  DT.check_date_fields (DT.year dt) (DT.month dt) (DT.day dt) = true
  /\ DT.check_time_fields (DT.hour dt) (DT.minute dt) (DT.second dt)
                          (DT.microsecond dt) = true
  /\ match DT.tzinfo dt with
     | None => True
     | Some off => - DT.US_PER_DAY < off < DT.US_PER_DAY
     end.
Proof.
  unfold Spec.valid_datetime. intros H.
  apply andb_true_iff in H as [H Htz]. apply andb_true_iff in H as [Hd Ht].
  repeat split; try assumption.
  destruct (DT.tzinfo dt); [|exact I].
  apply andb_true_iff in Htz as [H1 H2].
  apply Z.ltb_lt in H1, H2. lia.
Qed.

Lemma date_isoformat_ymd (dt : DT.datetime) :
  DT.date_isoformat dt = Spec.ymd_string (DT.year dt) (DT.month dt) (DT.day dt).
Proof. reflexivity. Qed.

Lemma isoformat_naive (dt : DT.datetime) :
  DT.microsecond dt = 0 -> DT.tzinfo dt = None ->
  DT.isoformat dt
  = Spec.naive_string (DT.year dt) (DT.month dt) (DT.day dt)
                      (DT.hour dt) (DT.minute dt) (DT.second dt).
Proof.
  intros Hus Htz. unfold DT.isoformat, DT.format_time, Spec.naive_string.
  rewrite Hus, Htz, date_isoformat_ymd. cbn [Z.eqb DT.format_offset].
  now rewrite !append_assoc, !append_nil_r.
Qed.

(** [isoformat] prints a full ISO-8601 date-time: its wall clock and its
    offset can be read back. *)
Lemma iso_datetime_isoformat (dt : DT.datetime) :
  Spec.valid_datetime dt = true -> DT.microsecond dt = 0 ->
  Spec.whole_minutes (DT.tzinfo dt) = true ->
  Spec.iso_datetime (DT.isoformat dt)
  = Some (((Calendar.ymd2ord (DT.year dt) (DT.month dt) (DT.day dt)
            - Calendar.EPOCH_ORDINAL) * 86400
           + DT.hour dt * 3600 + DT.minute dt * 60 + DT.second dt) * 1000000,
          DT.tzinfo dt).
Proof.
  intros Hv Hus Hmin. apply valid_datetime_fields in Hv as (Hd & Ht & Htz).
  rewrite Hus in Ht.
  unfold DT.isoformat, Spec.iso_datetime. rewrite date_isoformat_ymd.
  rewrite iso_date_prefix_ymd by assumption.
  cbn [snd fst append Spec.expect].
  change (Ascii.eqb "T" "T") with true. cbn iota.
  unfold DT.format_time. rewrite Hus. cbn [Z.eqb].
  rewrite !append_assoc. cbn [append].
  change (String ":" (Str.zfill2 (DT.minute dt) ++ String ":"
            (Str.zfill2 (DT.second dt) ++ DT.format_offset (DT.tzinfo dt))))
    with (":" ++ Str.zfill2 (DT.minute dt) ++ ":" ++ Str.zfill2 (DT.second dt)
          ++ DT.format_offset (DT.tzinfo dt)).
  destruct (DT.tzinfo dt) as [off|].
  - apply Z.eqb_eq in Hmin.
    destruct (iso_offset_format off Htz Hmin) as (Hdot & Hne & Hoff).
    rewrite iso_clock_hms by assumption. cbn [snd fst].
    rewrite Hne, Hoff. cbn [snd fst Str.is_empty]. do 2 f_equal. lia.
  - rewrite iso_clock_hms by (assumption || reflexivity). cbn [snd fst].
    cbn [DT.format_offset Str.is_empty]. do 2 f_equal. lia.
Qed.

(** [isoformat] prints valid ISO-8601 exactly when the offset, if any, is
    one of whole minutes. *)
Lemma is_iso_datetime_isoformat (dt : DT.datetime) :
  Spec.valid_datetime dt = true -> DT.microsecond dt = 0 ->
  Spec.is_iso_datetime (DT.isoformat dt) = Spec.whole_minutes (DT.tzinfo dt).
Proof.
  intros Hv Hus. unfold Spec.is_iso_datetime.
  destruct (Spec.whole_minutes (DT.tzinfo dt)) eqn:Hmin.
  - now rewrite iso_datetime_isoformat.
  - apply valid_datetime_fields in Hv as (Hd & Ht & Htz).
    rewrite Hus in Ht.
    unfold DT.isoformat, Spec.iso_datetime. rewrite date_isoformat_ymd.
    rewrite iso_date_prefix_ymd by assumption.
    cbn [snd fst append Spec.expect].
    change (Ascii.eqb "T" "T") with true. cbn iota.
    unfold DT.format_time. rewrite Hus. cbn [Z.eqb].
    rewrite !append_assoc. cbn [append].
    change (String ":" (Str.zfill2 (DT.minute dt) ++ String ":"
              (Str.zfill2 (DT.second dt) ++ DT.format_offset (DT.tzinfo dt))))
      with (":" ++ Str.zfill2 (DT.minute dt) ++ ":" ++ Str.zfill2 (DT.second dt)
            ++ DT.format_offset (DT.tzinfo dt)).
    destruct (DT.tzinfo dt) as [off|]; [|discriminate].
    cbn [Spec.whole_minutes] in Hmin. apply Z.eqb_neq in Hmin.
    destruct (iso_offset_format_seconds off Htz Hmin) as (Hdot & Hne & Hoff).
    rewrite iso_clock_hms by assumption. cbn [snd fst]. rewrite Hne.
    destruct (Spec.iso_offset (DT.format_offset (Some off))) as [[o rest]|];
      [|reflexivity].
    cbn [snd fst]. now rewrite Hoff.
Qed.


(** ** The Date Normalizer *)

Lemma decimal_value_from_nonneg (s : string) :
  Str.all_chars Str.isdecimal s = true ->
  forall acc, 0 <= acc -> 0 <= Spec.decimal_value_from acc s.
Proof.
  induction s as [|c s IH]; cbn [Str.all_chars Spec.decimal_value_from];
    intros H acc Hacc; [assumption|].
  apply andb_true_iff in H as [Hc Hs]. apply IH; [assumption|].
  pose proof (decimal_digit_val c Hc). lia.
Qed.

Lemma decimal_value_nonneg (s : string) :
  Spec.decimal_string s = true -> 0 <= Spec.decimal_value s.
Proof.
  unfold Spec.decimal_string, Spec.decimal_value. intros H.
  apply andb_true_iff in H as [_ H].
  now apply decimal_value_from_nonneg.
Qed.

(** Within the years 1970..9999 [utcfromtimestamp] returns, and what it
    returns counts back to its argument. *)
Lemma utcfromtimestamp_in_range (t : Z) :
  0 <= t <= Spec.MAX_EPOCH ->
  exists dt,
    DT.utcfromtimestamp t = Ok dt
    /\ (Calendar.ymd2ord (DT.year dt) (DT.month dt) (DT.day dt)
        - Calendar.EPOCH_ORDINAL) * 86400
       + DT.hour dt * 3600 + DT.minute dt * 60 + DT.second dt = t.
Proof.
  unfold Spec.MAX_EPOCH. intros Ht.
  unfold DT.utcfromtimestamp, DT.gmtime, Calendar.EPOCH_ORDINAL.
  destruct (ord2ymd_spec (t / 86400 + 719163)) as (y & m & d & -> & Hd & Hord);
    [dlia|].
  unfold DT.datetime_new. rewrite Hd.
  assert (Hc : DT.check_time_fields (t mod 86400 / 3600)
                 ((t mod 86400) mod 3600 / 60) ((t mod 86400) mod 60) 0 = true).
  { unfold DT.check_time_fields.
    repeat (apply andb_true_iff; split); apply Z.leb_le; dlia. }
  rewrite Hc. cbn [andb]. eexists. split; [reflexivity|].
  cbn [DT.year DT.month DT.day DT.hour DT.minute DT.second].
  rewrite Hord. dlia.
Qed.

(** An epoch input in range: what [normalize_date] returns. *)
Lemma normalize_date_epoch (v : string) :
  Spec.decimal_string v = true ->
  Str.len v <= Str.MAX_STR_DIGITS ->
  Spec.decimal_value v <= Spec.MAX_EPOCH ->
  exists dt,
    DT.utcfromtimestamp (Spec.decimal_value v) = Ok dt
    /\ parse_datetime v = Ok (Some dt)
    /\ normalize_date v = Ok (DT.isoformat dt)
    /\ Spec.iso_datetime (DT.isoformat dt)
       = Some (Spec.decimal_value v * 1000000, None).
Proof.
  intros Hv Hlen Hmax. pose proof (decimal_value_nonneg v Hv) as H0.
  destruct (utcfromtimestamp_in_range (Spec.decimal_value v)) as (dt & Hdt & Hback);
    [lia|].
  exists dt. split; [assumption|].
  assert (Hp : parse_datetime v = Ok (Some dt)).
  { unfold parse_datetime.
    pose proof (decimal_string_isdigit v Hv) as Hd. rewrite Hd.
    unfold Str.isdigit in Hd. apply andb_true_iff in Hd as [Hne _].
    apply negb_true_iff in Hne. rewrite Hne.
    rewrite int_decimal by assumption. now rewrite Hdt. }
  split; [assumption|].
  apply utcfromtimestamp_valid in Hdt as (Hvalid & Hus & Htz).
  split.
  - unfold normalize_date. rewrite Hp. cbn [bind].
    now rewrite (decimal_string_isdigit v Hv).
  - rewrite iso_datetime_isoformat by (assumption || now rewrite Htz).
    rewrite Htz. do 2 f_equal. lia.
Qed.

(** Granularity follows the input. *)
Lemma normalize_date_granularity (v : string) (dt : DT.datetime) :
  parse_datetime v = Ok (Some dt) ->
  normalize_date v
  = Ok (if Spec.decimal_string v || Spec.has_time_indicator v
        then DT.isoformat dt else DT.date_isoformat dt)
  /\ Spec.is_iso_datetime (DT.isoformat dt) = Spec.whole_minutes (DT.tzinfo dt)
  /\ Spec.is_iso_date (DT.date_isoformat dt) = true.
Proof.
  intros Hp. pose proof (parse_datetime_valid v dt Hp) as [Hvalid Hus].
  split; [|split].
  - unfold normalize_date. rewrite Hp. cbn [bind].
    rewrite (parse_datetime_isdigit v dt Hp).
    unfold Spec.has_time_indicator. rewrite orb_assoc.
    now destruct (Spec.decimal_string v || Str.contains "T" v || Str.contains ":" v).
  - now apply is_iso_datetime_isoformat.
  - rewrite date_isoformat_ymd. apply is_iso_date_ymd.
    now apply valid_datetime_fields in Hvalid.
Qed.

(** C3, as the code has it.  For every input made of decimal digits only,
    at most 4300 of them, whose value is at most 253402300799 (the last
    second of the year 9999), [normalize_date] returns a full ISO-8601
    date-time without offset whose wall clock, read as UTC, is the input
    taken as epoch seconds.  For every input that [parse_datetime] parses,
    the output is the full date-time [isoformat] prints for the parsed
    value when the input is made of digits only or contains [T] or a colon,
    and that text is valid ISO-8601 exactly when the UTC offset of the
    input, if it has one, is a whole number of minutes; otherwise the
    output is the ISO-8601 date [YYYY-MM-DD] of the parsed value. *)
Theorem normalize_date_epoch_and_granularity :
  (forall v,
     Spec.decimal_string v = true ->
     Str.len v <= Str.MAX_STR_DIGITS ->
     Spec.decimal_value v <= Spec.MAX_EPOCH ->
     exists s,
       normalize_date v = Ok s
       /\ Spec.iso_datetime s = Some (Spec.decimal_value v * 1000000, None))
  /\ (forall v dt,
        parse_datetime v = Ok (Some dt) ->
        (Spec.decimal_string v || Spec.has_time_indicator v = true ->
         normalize_date v = Ok (DT.isoformat dt)
         /\ Spec.is_iso_datetime (DT.isoformat dt)
            = Spec.whole_minutes (DT.tzinfo dt))
        /\ (Spec.decimal_string v || Spec.has_time_indicator v = false ->
            normalize_date v = Ok (DT.date_isoformat dt)
            /\ Spec.is_iso_date (DT.date_isoformat dt) = true)).
Proof.
  split.
  - intros v Hv Hlen Hmax.
    destruct (normalize_date_epoch v Hv Hlen Hmax) as (dt & _ & _ & Hn & Hi).
    now exists (DT.isoformat dt).
  - intros v dt Hp.
    destruct (normalize_date_granularity v dt Hp) as (Hn & Hdt & Hd).
    split; intros E; rewrite E in Hn; auto.
Qed.

(** C3 fails as stated, in three ways.  253402300800 is made of digits
    only, and [normalize_date] raises on it: the year would be 10000.  A
    text of 4301 zeros is made of digits only and its value is 0, and
    [normalize_date] raises on it: [int] converts 4300 digits at most.  An
    input whose UTC offset has seconds comes back with that offset, which
    no ISO-8601 date-time has. *)
Lemma normalize_date_epoch_overflow :
  (Spec.decimal_string "253402300800" = true
   /\ normalize_date "253402300800" = Raised (ValueError "year is out of range"))
  /\ (Spec.decimal_string (Sample.zeros 4301) = true
      /\ Spec.decimal_value (Sample.zeros 4301) = 0
      /\ normalize_date (Sample.zeros 4301)
         = Raised (ValueError "invalid literal for int() with base 10"))
  /\ (Spec.has_time_indicator "2024-06-01T10:00:00+05:30:45" = true
      /\ normalize_date "2024-06-01T10:00:00+05:30:45"
         = Ok "2024-06-01T10:00:00+05:30:45"
      /\ Spec.is_iso_datetime "2024-06-01T10:00:00+05:30:45" = false).
Proof. repeat split; vm_compute; reflexivity. Qed.


Lemma digits_n_step (n : nat) (acc : Z) (c : ascii) (r : string) :
  Spec.digits_n (S n) acc (String c r)
  = if Str.isdecimal c then Spec.digits_n n (10 * acc + Str.digit_val c) r
    else None.
Proof. reflexivity. Qed.

Lemma digits_n_done (acc : Z) (s : string) : Spec.digits_n 0 acc s = Some (acc, s).
Proof. reflexivity. Qed.

Lemma digits_n_short (n : nat) (acc : Z) : Spec.digits_n (S n) acc "" = None.
Proof. reflexivity. Qed.

Ltac digits_inv :=
  repeat (rewrite ?digits_n_step, ?digits_n_short, ?digits_n_done;
          match goal with
          | |- context [if Str.isdecimal ?x then _ else _] =>
              let E := fresh "E" in
              destruct (Str.isdecimal x) eqn:E; [|discriminate]
          | |- None = Some _ -> _ => discriminate
          end).

Lemma digits_2_inv (s rest : string) (n : Z) :
  Spec.digits_n 2 0 s = Some (n, rest) ->
  s = Str.zfill2 n ++ rest /\ 0 <= n <= 99.
Proof.
  destruct s as [|a [|b s]]; digits_inv; rewrite ?digits_n_done.
  intros H.
  assert (Hn : n = 10 * (10 * 0 + Str.digit_val a) + Str.digit_val b) by congruence.
  assert (Hr : rest = s) by congruence. subst n rest. clear H.
  pose proof (decimal_digit_val a E). pose proof (decimal_digit_val b E0).
  split; [|lia].
  unfold Str.zfill2. cbn [append].
  replace ((10 * (10 * 0 + Str.digit_val a) + Str.digit_val b) / 10)
    with (Str.digit_val a) by dlia.
  replace ((10 * (10 * 0 + Str.digit_val a) + Str.digit_val b) mod 10)
    with (Str.digit_val b) by dlia.
  now rewrite !decimal_digit_char.
Qed.

Lemma digits_4_inv (s rest : string) (n : Z) :
  Spec.digits_n 4 0 s = Some (n, rest) ->
  s = Str.zfill4 n ++ rest /\ 0 <= n <= 9999.
Proof.
  destruct s as [|a [|b [|c [|d s]]]]; digits_inv; rewrite ?digits_n_done.
  intros H.
  assert (Hn : n = 10 * (10 * (10 * (10 * 0 + Str.digit_val a) + Str.digit_val b)
                         + Str.digit_val c) + Str.digit_val d) by congruence.
  assert (Hr : rest = s) by congruence. subst n rest. clear H.
  pose proof (decimal_digit_val a E). pose proof (decimal_digit_val b E0).
  pose proof (decimal_digit_val c E1). pose proof (decimal_digit_val d E2).
  split; [|lia].
  unfold Str.zfill4, Str.zfill2. cbn [append].
  set (n := 10 * (10 * (10 * (10 * 0 + Str.digit_val a) + Str.digit_val b)
                  + Str.digit_val c) + Str.digit_val d).
  replace (n / 100 / 10) with (Str.digit_val a) by (subst n; dlia).
  replace ((n / 100) mod 10) with (Str.digit_val b) by (subst n; dlia).
  replace (n mod 100 / 10) with (Str.digit_val c) by (subst n; dlia).
  replace ((n mod 100) mod 10) with (Str.digit_val d) by (subst n; dlia).
  now rewrite !decimal_digit_char.
Qed.

Lemma expect_inv (c : ascii) (s rest : string) :
  Spec.expect c s = Some rest -> s = String c rest.
Proof.
  destruct s as [|x s]; cbn [Spec.expect]; [discriminate|].
  destruct (Ascii.eqb x c) eqn:E; [|discriminate].
  apply Ascii.eqb_eq in E. intros H. injection H as <-. now subst.
Qed.

(** A text of the shape [YYYY-MM-DD] is the text of the numbers it shows. *)
Lemma ymd_shape_string (s : string) (y m d : Z) :
  Spec.ymd_shape s = Some (y, m, d) -> s = Spec.ymd_string y m d.
Proof.
  unfold Spec.ymd_shape.
  destruct (Spec.digits_n 4 0 s) as [[y' s0]|] eqn:Ey; [|discriminate].
  cbn [fst snd].
  destruct (Spec.expect "-" s0) as [s1|] eqn:E1; [|discriminate].
  destruct (Spec.digits_n 2 0 s1) as [[m' s2]|] eqn:Em; [|discriminate].
  cbn [fst snd].
  destruct (Spec.expect "-" s2) as [s3|] eqn:E2; [|discriminate].
  destruct (Spec.digits_n 2 0 s3) as [[d' s4]|] eqn:Ed; [|discriminate].
  cbn [fst snd].
  destruct s4; [|discriminate]. cbn [Str.is_empty].
  intros H. injection H as -> -> ->.
  apply digits_4_inv in Ey as [-> _]. apply expect_inv in E1 as ->.
  apply digits_2_inv in Em as [-> _]. apply expect_inv in E2 as ->.
  apply digits_2_inv in Ed as [-> _].
  unfold Spec.ymd_string. now rewrite append_nil_r.
Qed.

(** C4, as the code has it.  An input of the shape [YYYY-MM-DD] whose three
    numbers name a day of the calendar (year 1 to 9999, month 1 to 12, a day
    of that month) is returned unchanged. *)
Theorem normalize_date_plain_date (v : string) (y m d : Z) :
  Spec.ymd_shape v = Some (y, m, d) ->
  DT.check_date_fields y m d = true ->
  normalize_date v = Ok v.
Proof.
  intros Hs Hv. apply ymd_shape_string in Hs as ->.
  now apply normalize_date_date.
Qed.

(** C4 fails as stated: 2023-02-29 has the shape and comes back empty. *)
Lemma normalize_date_shape_not_a_day :
  Spec.ymd_shape "2023-02-29" = Some (2023, 2, 29)
  /\ normalize_date "2023-02-29" = Ok "".
Proof. split; vm_compute; reflexivity. Qed.


(** ** The Transform stage *)

Lemma transform_loop_spec (records : list JobRecord) :
  forall acc cleaned,
    transform_loop records acc = Ok cleaned ->
    exists images,
      cleaned = (acc ++ images)%list
      /\ Forall2 (fun r r' => transform_record r = Ok r') records images.
Proof.
  induction records as [|r rs IH]; intros acc cleaned; cbn [transform_loop].
  - intros H. injection H as <-. exists []. split; [now rewrite app_nil_r | constructor].
  - destruct (transform_record r) as [r'|e] eqn:E; cbn [bind]; [|discriminate].
    intros H. apply IH in H as (images & -> & HF).
    exists (r' :: images). split; [now rewrite <- app_assoc | now constructor].
Qed.

(** Transform maps [transform_record] over its input, in order. *)
Lemma transform_spec (records cleaned : list JobRecord) :
  transform records = Ok cleaned ->
  Forall2 (fun r r' => transform_record r = Ok r') records cleaned.
Proof.
  unfold transform. intros H.
  now apply transform_loop_spec in H as (images & -> & HF).
Qed.

Lemma Forall2_in_l {A B : Type} (R : A -> B -> Prop) (l : list A) (l' : list B) :
  Forall2 R l l' -> forall x, In x l -> exists y, In y l' /\ R x y.
Proof.
  induction 1 as [|a b l l' Hab HF IH]; intros x Hx; [contradiction|].
  destruct Hx as [<- | Hx].
  - exists b. split; [now left | assumption].
  - destruct (IH x Hx) as (y & Hy & Hxy). exists y. split; [now right | assumption].
Qed.

Lemma Forall2_in_r {A B : Type} (R : A -> B -> Prop) (l : list A) (l' : list B) :
  Forall2 R l l' -> forall y, In y l' -> exists x, In x l /\ R x y.
Proof.
  induction 1 as [|a b l l' Hab HF IH]; intros y Hy; [contradiction|].
  destruct Hy as [<- | Hy].
  - exists a. split; [now left | assumption].
  - destruct (IH y Hy) as (x & Hx & Hxy). exists x. split; [now right | assumption].
Qed.

Lemma transform_record_date (r r' : JobRecord) :
  transform_record r = Ok r' ->
  normalize_date (date_posted r) = Ok (date_posted r').
Proof.
  unfold transform_record.
  destruct (normalize_date (date_posted r)) as [s|e]; cbn [bind]; [|discriminate].
  intros H. injection H as <-. reflexivity.
Qed.

(** What [normalize_date] makes of an input that passes [isdigit] is a
    date-time without offset, which [parse_datetime] does not read. *)
Lemma normalize_date_isdigit_reparse (v s : string) :
  Str.isdigit v = true ->
  normalize_date v = Ok s ->
  parse_datetime s = Ok None.
Proof.
  intros Hd. unfold normalize_date, parse_datetime at 1. rewrite Hd.
  unfold Str.isdigit in Hd. apply andb_true_iff in Hd as [Hne _].
  apply negb_true_iff in Hne. rewrite Hne.
  destruct (Str.int v) as [t|]; [|discriminate].
  destruct (DT.utcfromtimestamp t) as [dt|e] eqn:E; cbn [bind]; [|discriminate].
  cbn [orb]. intros H. injection H as <-.
  apply utcfromtimestamp_valid in E as (Hv & Hus & Htz).
  rewrite isoformat_naive by assumption.
  apply valid_datetime_fields in Hv as (Hdf & Htf & _). rewrite Hus in Htf.
  now apply parse_datetime_naive.
Qed.

(** Off the digit path [normalize_date] never raises. *)
Lemma normalize_date_returns (v : string) :
  Str.isdigit v = false -> exists s, normalize_date v = Ok s.
Proof.
  intros Hd. unfold normalize_date, parse_datetime. rewrite Hd.
  destruct (Str.is_empty v); cbn [bind]; [now exists ""|].
  destruct (try_formats v FORMATS) as [dt|]; [|now exists ""].
  cbn [orb].
  destruct (Str.contains "T" v || Str.contains ":" v); eexists; reflexivity.
Qed.

(** Filter drops every record whose date [parse_datetime] does not read,
    whatever the titles. *)
Lemma filter_jobs_drops_unparsed (env : Env) (records : list JobRecord)
    (titles : list string) (out : list JobRecord) (r : JobRecord) :
  filter_jobs env records titles = Ok out ->
  parse_datetime (date_posted r) = Ok None ->
  ~ In r out.
Proof.
  unfold filter_jobs.
  destruct (cutoff_float env) as [cutoff|e]; cbn [bind]; [|discriminate].
  intros H Hp Hin. apply filter_loop_sound in H. subst out.
  cbn [app] in Hin. apply filter_In in Hin as [_ Hk].
  unfold Spec.keeps, Spec.recent in Hk. rewrite Hp in Hk.
  now rewrite andb_false_r in Hk.
Qed.

(** An epoch input, once normalized, is a date-time without UTC offset. *)
Lemma normalize_date_isdigit_naive (v s : string) :
  Str.isdigit v = true ->
  normalize_date v = Ok s ->
  exists wall, Spec.iso_datetime s = Some (wall, None).
Proof.
  intros Hd. unfold normalize_date, parse_datetime. rewrite Hd.
  unfold Str.isdigit in Hd. apply andb_true_iff in Hd as [Hne _].
  apply negb_true_iff in Hne. rewrite Hne.
  destruct (Str.int v) as [t|]; [|discriminate].
  destruct (DT.utcfromtimestamp t) as [dt|e] eqn:E; cbn [bind]; [|discriminate].
  cbn [orb]. intros H. injection H as <-.
  apply utcfromtimestamp_valid in E as (Hv & Hus & Htz).
  rewrite iso_datetime_isoformat, Htz by (assumption || now rewrite Htz).
  eexists. reflexivity.
Qed.

(** C10.  A record whose raw date is made of digits only never passes
    Transform then Filter, whatever the clock, the time zone and the titles:
    when Transform returns, the image of the record is in its output and
    not in the output of Filter.  The reason is the one the claim gives: the
    normalized date is a date-time without UTC offset, and [parse_datetime]
    does not read it.  Transform does return on such a record when the
    digits are at most the 4300 that [int] converts and their value is
    within the range of [datetime]. *)
Theorem epoch_dated_records_are_dropped :
  (forall r,
     Spec.decimal_string (date_posted r) = true ->
     Str.len (date_posted r) <= Str.MAX_STR_DIGITS ->
     Spec.decimal_value (date_posted r) <= Spec.MAX_EPOCH ->
     exists r', transform_record r = Ok r')
  /\ (forall env records titles cleaned out r,
        transform records = Ok cleaned ->
        filter_jobs env cleaned titles = Ok out ->
        In r records ->
        Spec.decimal_string (date_posted r) = true ->
        exists r',
          transform_record r = Ok r' /\ In r' cleaned /\ ~ In r' out)
  /\ (forall v s,
        Spec.decimal_string v = true ->
        normalize_date v = Ok s ->
        (exists wall, Spec.iso_datetime s = Some (wall, None))
        /\ parse_datetime s = Ok None).
Proof.
  split; [|split].
  - intros r Hd Hlen Hmax.
    destruct (normalize_date_epoch _ Hd Hlen Hmax) as (dt & _ & _ & Hn & _).
    unfold transform_record. rewrite Hn. cbn [bind]. eexists. reflexivity.
  - intros env records titles cleaned out r Ht Hf Hin Hd.
    apply transform_spec in Ht.
    destruct (Forall2_in_l _ _ _ Ht r Hin) as (r' & Hin' & Hr').
    exists r'. split; [assumption|]. split; [assumption|].
    apply (filter_jobs_drops_unparsed env cleaned titles out r' Hf).
    apply (normalize_date_isdigit_reparse (date_posted r)).
    + now apply decimal_string_isdigit.
    + now apply transform_record_date.
  - intros v s Hd Hn. apply decimal_string_isdigit in Hd. split.
    + now apply (normalize_date_isdigit_naive v).
    + now apply (normalize_date_isdigit_reparse v).
Qed.

(** C2 fails on the code: Transform turns the epoch date 1700000000 into
    a date-time without offset, and a second Transform turns that into the
    empty string.  Off the epoch path Transform is idempotent, see
    [transform_idempotent_off_epoch]. *)
Lemma transform_twice_on_epoch :
  let r := Sample.job "remoteok" "1" "Dev" "1700000000" in
  let r1 := Sample.job "remoteok" "1" "Dev" "2023-11-14T22:13:20" in
  let r2 := Sample.job "remoteok" "1" "Dev" "" in
  transform [r] = Ok [r1] /\ transform [r1] = Ok [r2] /\ r1 <> r2.
Proof. repeat split; try (vm_compute; reflexivity). discriminate. Qed.

(** C5 fails on the code: on digits beyond the range of [datetime], and on
    a superscript digit, [normalize_date] raises. *)
Lemma normalize_date_raises :
  normalize_date "99999999999999999999"
  = Raised (ValueError "year is out of range")
  /\ normalize_date (String (ascii_of_nat 178) "")
     = Raised (ValueError "invalid literal for int() with base 10").
Proof. split; vm_compute; reflexivity. Qed.


(** ** White space after Transform *)

Lemma last_char_some (x : ascii) (s : string) :
  exists c, Str.last_char (String x s) = Some c.
Proof.
  revert x. induction s as [|y s IH]; intros x.
  - now exists x.
  - destruct (IH y) as [c Hc]. exists c. exact Hc.
Qed.

Lemma last_char_cons (x : ascii) (s : string) :
  Str.last_char (String x s)
  = match Str.last_char s with
    | Some c => Some c
    | None => Some x
    end.
Proof.
  destruct s as [|y s]; [reflexivity|].
  destruct (last_char_some y s) as [c Hc].
  change (Str.last_char (String x (String y s))) with (Str.last_char (String y s)).
  now rewrite Hc.
Qed.

Lemma last_char_app (a b : string) :
  Str.last_char (a ++ b)
  = match Str.last_char b with
    | Some c => Some c
    | None => Str.last_char a
    end.
Proof.
  induction a as [|x a IH]; cbn [append].
  - now destruct (Str.last_char b).
  - rewrite !last_char_cons, IH.
    destruct (Str.last_char b), (Str.last_char a); reflexivity.
Qed.

Lemma ends_decimal_app (a b : string) :
  Spec.ends_decimal b = true -> Spec.ends_decimal (a ++ b) = true.
Proof.
  unfold Spec.ends_decimal. rewrite last_char_app.
  now destruct (Str.last_char b).
Qed.

Lemma ends_decimal_zfill2 (n : Z) : Spec.ends_decimal (Str.zfill2 n) = true.
Proof. unfold Spec.ends_decimal, Str.zfill2. cbn [Str.last_char]. apply digit_char_mod_decimal. Qed.

Lemma ends_decimal_zfill6 (n : Z) : Spec.ends_decimal (Str.zfill6 n) = true.
Proof.
  unfold Str.zfill6, Str.zfill4.
  do 2 apply ends_decimal_app. apply ends_decimal_zfill2.
Qed.

Lemma ends_decimal_format_offset (off : Z) :
  Spec.ends_decimal (DT.format_offset (Some off)) = true.
Proof.
  unfold DT.format_offset. cbv zeta.
  do 3 apply ends_decimal_app.
  match goal with |- context [if ?b then "" else _] => destruct b end.
  - rewrite append_nil_r. apply ends_decimal_zfill2.
  - do 2 apply ends_decimal_app.
    match goal with |- context [if ?b then "" else _] => destruct b end.
    + rewrite append_nil_r. apply ends_decimal_zfill2.
    + do 2 apply ends_decimal_app. apply ends_decimal_zfill6.
Qed.

Lemma ends_decimal_isoformat (dt : DT.datetime) :
  Spec.ends_decimal (DT.isoformat dt) = true.
Proof.
  unfold DT.isoformat.
  destruct (DT.tzinfo dt) as [off|].
  - do 3 apply ends_decimal_app. apply ends_decimal_format_offset.
  - cbn [DT.format_offset]. rewrite !append_nil_r.
    do 2 apply ends_decimal_app. unfold DT.format_time.
    do 4 apply ends_decimal_app.
    destruct (DT.microsecond dt =? 0).
    + rewrite append_nil_r. apply ends_decimal_zfill2.
    + do 2 apply ends_decimal_app. apply ends_decimal_zfill6.
Qed.

Lemma first_char_ymd (y m d : Z) (rest : string) :
  Str.first_char (Spec.ymd_string y m d ++ rest)
  = Some (Str.digit_char (y / 100 / 10)).
Proof. reflexivity. Qed.

Lemma clean_between_digits (s : string) (a : ascii) :
  Str.first_char s = Some a -> Str.isdecimal a = true ->
  Spec.ends_decimal s = true ->
  Spec.no_outer_whitespace s = true.
Proof.
  unfold Spec.ends_decimal, Spec.no_outer_whitespace. intros -> Ha.
  destruct (Str.last_char s) as [b|]; [|reflexivity].
  intros Hb. now rewrite (decimal_not_space a Ha), (decimal_not_space b Hb).
Qed.

(** What [normalize_date] returns has no white space at its ends. *)
Lemma normalize_date_clean (v s : string) :
  normalize_date v = Ok s -> Spec.no_outer_whitespace s = true.
Proof.
  unfold normalize_date.
  destruct (parse_datetime v) as [[dt|]|e] eqn:Ep; cbn [bind]; [| |discriminate].
  - apply parse_datetime_valid in Ep as [Hv _].
    apply valid_datetime_fields in Hv as (Hd & _ & _).
    apply check_date_fields_bounds in Hd as (Hy & _).
    assert (Hfirst : Str.isdecimal (Str.digit_char (DT.year dt / 100 / 10)) = true)
      by (apply digit_char_decimal; dlia).
    destruct (Str.isdigit v || Str.contains "T" v || Str.contains ":" v);
      intros H; injection H as <-.
    + apply (clean_between_digits _ _ (first_char_ymd _ _ _ _) Hfirst).
      apply ends_decimal_isoformat.
    + rewrite date_isoformat_ymd.
      rewrite <- (append_nil_r (Spec.ymd_string _ _ _)).
      apply (clean_between_digits _ _ (first_char_ymd _ _ _ _) Hfirst).
      rewrite append_nil_r. unfold Spec.ymd_string.
      do 4 apply ends_decimal_app. apply ends_decimal_zfill2.
  - intros H. injection H as <-. reflexivity.
Qed.

(** C8, as the code has it.  In every record that Transform returns, the
    eight fields title, company, location, url, tags, date_posted, salary
    and description carry no white space at either end; source and
    source_id are those of the input record, unchanged. *)
Theorem transform_strips_fields (records cleaned : list JobRecord) :
  transform records = Ok cleaned ->
  forall r', In r' cleaned ->
    Forall (fun s => Spec.no_outer_whitespace s = true) (Spec.cleaned_fields r')
    /\ exists r, In r records /\ transform_record r = Ok r'
                 /\ source r' = source r /\ source_id r' = source_id r.
Proof.
  intros Ht r' Hin. apply transform_spec in Ht.
  destruct (Forall2_in_r _ _ _ Ht r' Hin) as (r & Hr & Hrr').
  split.
  - pose proof (transform_record_date r r' Hrr') as Hdate.
    apply normalize_date_clean in Hdate.
    unfold transform_record in Hrr'.
    destruct (normalize_date (date_posted r)) as [s|e]; cbn [bind] in Hrr';
      [|discriminate].
    injection Hrr' as <-. unfold Spec.cleaned_fields.
    cbn [title company location url tags date_posted salary description] in *.
    repeat constructor; try apply strip_clean. exact Hdate.
  - exists r. repeat split; try assumption;
      unfold transform_record in Hrr';
      destruct (normalize_date (date_posted r)); cbn [bind] in Hrr';
      try discriminate; injection Hrr' as <-; reflexivity.
Qed.

(** C8 fails as stated: Transform leaves the white space of a source_id
    in place. *)
Lemma transform_keeps_source_id :
  let r := Sample.job "remoteok" " 7" "Dev" "2024-06-01" in
  transform [r] = Ok [r]
  /\ Spec.no_outer_whitespace (source_id r) = false
  /\ In (source_id r) (Spec.all_fields r).
Proof. repeat split; try (vm_compute; reflexivity). right. now left. Qed.
(** ** Floats: what rounding keeps *)

Lemma round_half_even_close (n d : Z) :
  0 < d ->
  - d <= 2 * (F64.round_half_even n d * d - n) <= d.
Proof.
  intro Hd. unfold F64.round_half_even. cbv zeta.
  pose proof (Z.div_mod n d ltac:(lia)) as Hn.
  pose proof (Z.mod_pos_bound n d Hd) as Hr.
  destruct (Z.ltb_spec (2 * (n mod d)) d); [nia|].
  destruct (Z.ltb_spec d (2 * (n mod d))); [nia|].
  destruct (Z.even (n / d)); nia.
Qed.

Lemma round_half_even_exact (k d : Z) :
  0 < d -> F64.round_half_even (k * d) d = k.
Proof.
  intro Hd. unfold F64.round_half_even. cbv zeta.
  rewrite Z.div_mul, Z.mod_mul by lia.
  now destruct (Z.ltb_spec (2 * 0) d); [|lia].
Qed.

Lemma nearest_close (n d e : Z) :
  0 <= n -> 0 < d -> 0 <= e -> Z.log2 (n / d) - 52 <= e ->
  - (d * 2 ^ e) <= 2 * (F64.nearest n d * d - n) <= d * 2 ^ e.
Proof.
  intros Hn Hd He Hlog. unfold F64.nearest. cbv zeta.
  rewrite Z.abs_eq by assumption.
  destruct (Z.ltb_spec n 0) as [|_]; [lia|].
  assert (0 < 2 ^ e) by (apply Z.pow_pos_nonneg; lia).
  destruct (Z.leb_spec (Z.log2 (n / d)) 52) as [Hs|Hl].
  - pose proof (round_half_even_close n d Hd). nia.
  - set (p := 2 ^ (Z.log2 (n / d) - 52)).
    assert (0 < p <= 2 ^ e) as Hp.
    { subst p. split; [apply Z.pow_pos_nonneg; lia|].
      apply Z.pow_le_mono_r; lia. }
    pose proof (round_half_even_close n (d * p) ltac:(nia)).
    nia.
Qed.

Lemma nearest_exact (k d : Z) :
  0 <= k -> 0 < d ->
  (Z.log2 k <= 52 \/ exists m, k = m * 2 ^ (Z.log2 k - 52)) ->
  F64.nearest (k * d) d = k.
Proof.
  intros Hk Hd Hrep. unfold F64.nearest. cbv zeta.
  rewrite Z.abs_eq by nia. rewrite Z.div_mul by lia.
  destruct (Z.ltb_spec (k * d) 0) as [|_]; [nia|].
  destruct (Z.leb_spec (Z.log2 k) 52) as [Hs|Hl].
  - now apply round_half_even_exact.
  - destruct Hrep as [|[m Hm]]; [lia|].
    set (p := 2 ^ (Z.log2 k - 52)) in *.
    assert (0 < p) by (subst p; apply Z.pow_pos_nonneg; lia).
    rewrite Hm at 1.
    replace (m * p * d) with (m * (d * p)) by ring.
    rewrite round_half_even_exact by nia. lia.
Qed.

Lemma nearest_zero (d : Z) : 0 < d -> F64.nearest 0 d = 0.
Proof.
  intro Hd. unfold F64.nearest, F64.round_half_even. cbv zeta.
  change (Z.abs 0) with 0. rewrite Z.div_0_l, Z.mod_0_l by lia.
  change (Z.log2 0 <=? 52) with true. change (0 <? 0) with false. cbv iota.
  destruct (Z.ltb_spec (2 * 0) d); [reflexivity|lia].
Qed.

Lemma nearest_opp (n d : Z) :
  0 < d -> F64.nearest (- n) d = - F64.nearest n d.
Proof.
  intro Hd. destruct (Z.eq_dec n 0) as [->|Hn].
  - change (- 0) with 0. now rewrite nearest_zero.
  - unfold F64.nearest. cbv zeta. rewrite Z.abs_opp.
    destruct (Z.ltb_spec (- n) 0), (Z.ltb_spec n 0); lia.
Qed.

(** Whole numbers below [2^53] are floats, and the operations on them
    are exact. *)
Lemma whole_fits (n : Z) :
  0 <= n < 2 ^ 53 ->
  Z.log2 (n * F64.one) <= 52
  \/ exists m, n * F64.one = m * 2 ^ (Z.log2 (n * F64.one) - 52).
Proof.
  intros [Hn Hmax]. unfold F64.one.
  destruct (Z.eq_dec n 0) as [->|Hz]; [left; cbn; lia|].
  right. rewrite Z.log2_mul_pow2 by lia.
  assert (Z.log2 n < 53) by (apply Z.log2_lt_pow2; lia).
  pose proof (Z.log2_nonneg n).
  exists (n * 2 ^ (52 - Z.log2 n)).
  rewrite <- Z.mul_assoc, <- Z.pow_add_r by lia.
  f_equal. f_equal. lia.
Qed.

Lemma nearest_whole (n d : Z) :
  - 2 ^ 53 < n < 2 ^ 53 -> 0 < d ->
  F64.nearest (n * F64.one * d) d = n * F64.one.
Proof.
  intros Hn Hd. destruct (Z.le_gt_cases 0 n) as [Hp|Hneg].
  - apply nearest_exact; [unfold F64.one; nia|assumption|].
    apply whole_fits. lia.
  - replace (n * F64.one * d) with (- (- n * F64.one * d)) by ring.
    rewrite nearest_opp by assumption.
    rewrite (nearest_exact (- n * F64.one) d).
    + lia.
    + unfold F64.one. nia.
    + assumption.
    + apply whole_fits. lia.
Qed.

Lemma of_int_whole (n : Z) :
  - 2 ^ 53 < n < 2 ^ 53 -> F64.of_int n = n * F64.one.
Proof.
  intro Hn. unfold F64.of_int.
  rewrite <- (Z.mul_1_r (n * F64.one)) at 1. now apply nearest_whole.
Qed.

Lemma div_int_whole (k d : Z) :
  - 2 ^ 53 < k < 2 ^ 53 -> 0 < d -> F64.div_int (k * d) d = k * F64.one.
Proof.
  intros Hk Hd. unfold F64.div_int.
  replace (k * d * F64.one) with (k * F64.one * d) by ring.
  now apply nearest_whole.
Qed.

Lemma add_whole (n m : Z) :
  - 2 ^ 53 < n + m < 2 ^ 53 ->
  F64.add (n * F64.one) (m * F64.one) = (n + m) * F64.one.
Proof.
  intro H. unfold F64.add.
  replace (n * F64.one + m * F64.one) with ((n + m) * F64.one * 1) by ring.
  now apply nearest_whole.
Qed.

Lemma sub_whole (n m : Z) :
  - 2 ^ 53 < n - m < 2 ^ 53 ->
  F64.sub (n * F64.one) (m * F64.one) = (n - m) * F64.one.
Proof.
  intro H. unfold F64.sub.
  replace (n * F64.one - m * F64.one) with ((n - m) * F64.one * 1) by ring.
  now apply nearest_whole.
Qed.

Lemma one_value : F64.one = 340282366920938463463374607431768211456.
Proof. reflexivity. Qed.

(** The cutoff of a clock at [S] seconds and [us] microseconds, before the
    year 2106: it is within half a microsecond of the exact one. *)
Lemma cutoff_close (S us : Z) :
  2 * 86400 <= S -> S + 1 <= 2 ^ 32 -> 0 <= us < 1000000 ->
  let c := F64.sub (F64.add (F64.of_int S) (F64.div_int us 1000000))
                   (F64.of_int 86400) in
  let exact := ((S - 86400) * 1000000 + us) * F64.one in
  - (1000000 * (2 ^ 107 + 2 ^ 74)) <= c * 1000000 - exact
  <= 1000000 * (2 ^ 107 + 2 ^ 74).
Proof.
  intros HS Hmax Hus. cbv zeta.
  rewrite !of_int_whole by lia.
  unfold F64.div_int.
  pose proof (nearest_close (us * F64.one) 1000000 75) as Hf.
  set (f := F64.nearest (us * F64.one) 1000000) in *.
  assert (Z.log2 (us * F64.one / 1000000) - 52 <= 75) as Hlf.
  { assert (us * F64.one / 1000000 <= 2 ^ 128 - 1) as Hq.
    { rewrite one_value. apply Z.lt_succ_r. apply Z.div_lt_upper_bound; lia. }
    apply Z.log2_le_mono in Hq.
    change (Z.log2 (2 ^ 128 - 1)) with 127 in Hq. lia. }
  specialize (Hf ltac:(rewrite one_value; lia) ltac:(lia) ltac:(lia) Hlf).
  change (2 ^ 75) with 37778931862957161709568 in Hf.
  rewrite one_value in Hf.
  unfold F64.add.
  pose proof (nearest_close (S * F64.one + f) 1 107) as Ht.
  set (ts := F64.nearest (S * F64.one + f) 1) in *.
  rewrite one_value in *.
  assert (Z.log2 ((S * 340282366920938463463374607431768211456 + f) / 1) - 52
          <= 107) as Hlt.
  { rewrite Z.div_1_r.
    assert (S * 340282366920938463463374607431768211456 + f <= 2 ^ 160 - 1) as Hq.
    { change (2 ^ 32) with 4294967296 in Hmax.
      change (2 ^ 160 - 1)
        with 1461501637330902918203684832716283019655932542975. lia. }
    apply Z.log2_le_mono in Hq.
    change (Z.log2 (2 ^ 160 - 1)) with 159 in Hq. lia. }
  specialize (Ht ltac:(lia) ltac:(lia) ltac:(lia) Hlt).
  change (2 ^ 107) with 162259276829213363391578010288128 in *.
  unfold F64.sub.
  pose proof (nearest_close (ts - 86400 * 340282366920938463463374607431768211456)
                1 107) as Hc.
  set (c := F64.nearest (ts - 86400 * 340282366920938463463374607431768211456) 1)
    in *.
  assert (Z.log2 ((ts - 86400 * 340282366920938463463374607431768211456) / 1) - 52
          <= 107) as Hlc.
  { rewrite Z.div_1_r.
    assert (ts - 86400 * 340282366920938463463374607431768211456 <= 2 ^ 160 - 1)
      as Hq.
    { change (2 ^ 32) with 4294967296 in Hmax.
      change (2 ^ 160 - 1)
        with 1461501637330902918203684832716283019655932542975. lia. }
    apply Z.log2_le_mono in Hq.
    change (Z.log2 (2 ^ 160 - 1)) with 159 in Hq. lia. }
  specialize (Hc ltac:(lia) ltac:(lia) ltac:(lia) Hlc).
  change (2 ^ 107) with 162259276829213363391578010288128 in *.
  change (2 ^ 74) with 18889465931478580854784.
  lia.
Qed.

Lemma micros_close (c E : Z) :
  - F64.one <= 2 * (c * 1000000 - E * F64.one) < F64.one ->
  F64.micros c = E.
Proof.
  intro H. unfold F64.micros. rewrite one_value in *.
  symmetry.
  apply (Z.div_unique_pos _ _ E
           (2 * c * 1000000 + 340282366920938463463374607431768211456
            - 2 * 340282366920938463463374607431768211456 * E)); lia.
Qed.

Lemma div_int_zero (d : Z) : 0 < d -> F64.div_int 0 d = 0.
Proof. intro Hd. unfold F64.div_int. now apply nearest_zero. Qed.

(** A float cutoff against a whole number of seconds decides as the
    integers do. *)
Lemma cutoff_decision (S us T : Z) :
  2 * 86400 <= S -> S + 1 <= 2 ^ 32 -> 0 <= us < 1000000 ->
  - 2 ^ 53 < T < 2 ^ 53 ->
  F64.ltb (T * F64.one)
          (F64.sub (F64.add (F64.of_int S) (F64.div_int us 1000000))
                   (F64.of_int 86400))
  = (T * 1000000 <? (S - 86400) * 1000000 + us).
Proof.
  intros HS Hmax Hus HT. unfold F64.ltb.
  change (2 ^ 32) with 4294967296 in Hmax.
  change (2 ^ 53) with 9007199254740992 in HT.
  destruct (Z.eq_dec us 0) as [->|Hpos].
  - rewrite div_int_zero by lia.
    rewrite !of_int_whole by (change (2 ^ 53) with 9007199254740992; lia).
    change 0 with (0 * F64.one) at 1.
    rewrite add_whole, sub_whole by (change (2 ^ 53) with 9007199254740992; lia).
    rewrite one_value.
    destruct (Z.ltb_spec (T * 340282366920938463463374607431768211456)
                ((S + 0 - 86400) * 340282366920938463463374607431768211456)),
      (Z.ltb_spec (T * 1000000) ((S - 86400) * 1000000 + 0)); lia.
  - pose proof (cutoff_close S us HS ltac:(change (2 ^ 32) with 4294967296; lia) Hus)
      as Hc.
    cbv zeta in Hc.
    set (c := F64.sub _ _) in *.
    rewrite one_value in *.
    change (2 ^ 107) with 162259276829213363391578010288128 in Hc.
    change (2 ^ 74) with 18889465931478580854784 in Hc.
    destruct (Z.ltb_spec (T * 340282366920938463463374607431768211456) c),
      (Z.ltb_spec (T * 1000000) ((S - 86400) * 1000000 + us)); lia.
Qed.

Lemma cutoff_micros (S us : Z) :
  2 * 86400 <= S -> S + 1 <= 2 ^ 32 -> 0 <= us < 1000000 ->
  F64.micros (F64.sub (F64.add (F64.of_int S) (F64.div_int us 1000000))
                      (F64.of_int 86400))
  = (S - 86400) * 1000000 + us.
Proof.
  intros HS Hmax Hus. apply micros_close.
  pose proof (cutoff_close S us HS Hmax Hus) as Hc. cbv zeta in Hc.
  set (c := F64.sub _ _) in *.
  rewrite one_value in *.
  change (2 ^ 107) with 162259276829213363391578010288128 in Hc.
  change (2 ^ 74) with 18889465931478580854784 in Hc.
  lia.
Qed.

Lemma days_before_month_bounds (y m : Z) :
  1 <= m <= 12 -> 0 <= Calendar.days_before_month y m <= 335.
Proof.
  intro Hm. unfold Calendar.days_before_month.
  assert (m = 1 \/ m = 2 \/ m = 3 \/ m = 4 \/ m = 5 \/ m = 6 \/ m = 7 \/ m = 8
          \/ m = 9 \/ m = 10 \/ m = 11 \/ m = 12) as H by lia.
  repeat (destruct H as [->|H]); try subst m;
    cbn [Calendar.DAYS_BEFORE_MONTH Z.ltb Z.compare Pos.compare Pos.compare_cont
         andb];
    try destruct (Calendar.is_leap y); lia.
Qed.

Lemma utc_to_seconds_bounds (y m d hh mm ss us : Z) :
  DT.check_date_fields y m d = true ->
  DT.check_time_fields hh mm ss us = true ->
  0 <= DT.utc_to_seconds y m d hh mm ss <= 400000000000.
Proof.
  intros Hd Ht. apply check_date_fields_bounds in Hd as (Hy & Hm & Hd & _).
  apply check_time_fields_bounds in Ht as (Hh & Hmi & Hs & _).
  pose proof (days_before_month_bounds y m Hm).
  unfold DT.utc_to_seconds, Calendar.ymd2ord, Calendar.days_before_year.
  cbv zeta. dlia.
Qed.

(** Under a fixed offset [local_to_seconds] subtracts the offset, wherever
    it returns. *)
Lemma local_to_seconds_fixed_inv (off t s : Z) :
  Clock.local_to_seconds (fun _ => off) t = Ok s -> s = t - off.
Proof.
  unfold Clock.local_to_seconds, Clock.local, Clock.max_fold_seconds.
  destruct (_ && _); cbn [bind]; [|discriminate]. cbv zeta.
  destruct (_ && _); cbn [bind]; [|discriminate].
  replace (t - (t + off - t) + off =? t) with true
    by (symmetry; apply Z.eqb_eq; lia).
  destruct (_ && _); cbn [bind]; [|discriminate].
  replace (t + off - t =?
           t - (t + off - t) - 24 * 3600 + off - (t - (t + off - t) - 24 * 3600))
    with true by (symmetry; apply Z.eqb_eq; lia).
  intros [= <-]. lia.
Qed.



(** ** The recency cutoff *)

Lemma gmtime_spec (t : Z) :
  0 <= t <= Spec.MAX_EPOCH ->
  exists y m d hh mm ss,
    DT.gmtime t = (y, m, d, hh, mm, ss)
    /\ DT.check_date_fields y m d = true
    /\ (forall us, 0 <= us <= 999999 ->
                   DT.check_time_fields hh mm ss us = true)
    /\ DT.utc_to_seconds y m d hh mm ss = t + DT.EPOCH_SECONDS.
Proof.
  unfold Spec.MAX_EPOCH. intros Ht.
  unfold DT.gmtime, Calendar.EPOCH_ORDINAL.
  destruct (ord2ymd_spec (t / 86400 + 719163)) as (y & m & d & -> & Hd & Hord);
    [dlia|].
  eexists _, _, _, _, _, _. split; [reflexivity|]. split; [assumption|]. split.
  - intros us Hus. unfold DT.check_time_fields.
    repeat (apply andb_true_iff; split); apply Z.leb_le; dlia.
  - unfold DT.utc_to_seconds, DT.EPOCH_SECONDS, Calendar.EPOCH_ORDINAL.
    rewrite Hord. dlia.
Qed.

Lemma local_fixed (off u : Z) :
  86400 <= u + off < 3652060 * 86400 ->
  Clock.local (fun _ => off) u = Ok (u + off).
Proof.
  intros H. unfold Clock.local, DT.MINYEAR.
  assert (E : (1 * 86400 <=? u + off) && (u + off <? (3652059 + 1) * 86400) = true).
  { apply andb_true_iff. split; [apply Z.leb_le | apply Z.ltb_lt]; lia. }
  now rewrite E.
Qed.

Lemma local_to_seconds_fixed (off t : Z) :
  -86400 <= off <= 86400 ->
  3 * 86400 <= t < 3652058 * 86400 ->
  Clock.local_to_seconds (fun _ => off) t = Ok (t - off).
Proof.
  intros Hoff Ht. unfold Clock.local_to_seconds, Clock.max_fold_seconds.
  rewrite local_fixed by lia. cbn [bind]. cbv zeta.
  replace (t - (t + off - t)) with (t - off) by lia.
  rewrite local_fixed by lia. cbn [bind].
  replace (t - off + off) with t by lia. rewrite Z.eqb_refl.
  rewrite local_fixed by lia. cbn [bind].
  replace (t - off - 24 * 3600 + off - (t - off - 24 * 3600)) with off by lia.
  replace (t + off - t) with off by lia.
  now rewrite Z.eqb_refl.
Qed.

(** A date-time a whole number of seconds from the epoch: its timestamp is
    that number, exactly. *)
Lemma timestamp_whole (tz : Z -> Z) (dt : DT.datetime) (s : Z) :
  DT.microsecond dt = 0 ->
  match DT.tzinfo dt with
  | None => True
  | Some off => off mod DT.US_PER_SECOND = 0
  end ->
  Facts.epoch_seconds tz dt = Ok s ->
  - 2 ^ 53 < s < 2 ^ 53 ->
  Clock.timestamp tz dt = Ok (s * F64.one).
Proof.
  unfold Facts.epoch_seconds, Clock.timestamp, DT.US_PER_SECOND.
  intros -> Hoff Hs Hb.
  destruct (DT.tzinfo dt) as [off|].
  - injection Hs as <-. f_equal.
    match goal with
    | |- F64.div_int ?n _ = ?k * _ => replace n with (k * 1000000) by dlia
    end.
    apply div_int_whole; lia.
  - destruct (Clock.local_to_seconds tz _) as [seconds|e]; [|discriminate].
    cbn [bind] in *. injection Hs as <-. f_equal.
    rewrite div_int_zero, of_int_whole by lia.
    match goal with
    | |- F64.add ?x 0 = _ => change (F64.add x 0) with (F64.add x (0 * F64.one))
    end.
    rewrite add_whole by lia. f_equal. lia.
Qed.

Lemma epoch_seconds_fixed_bounds (off : Z) (dt : DT.datetime) (s : Z) :
  Spec.valid_datetime dt = true ->
  -86400 <= off <= 86400 ->
  Facts.epoch_seconds (fun _ => off) dt = Ok s ->
  - 2 ^ 53 < s < 2 ^ 53.
Proof.
  intros Hv Hoff. apply valid_datetime_fields in Hv as (Hd & Ht & Htz).
  pose proof (utc_to_seconds_bounds _ _ _ _ _ _ _ Hd Ht) as Hb.
  unfold Facts.epoch_seconds, DT.EPOCH_SECONDS, Calendar.EPOCH_ORDINAL,
    DT.US_PER_DAY, DT.US_PER_SECOND in *.
  change (2 ^ 53) with 9007199254740992.
  destruct (DT.tzinfo dt) as [o|].
  - intros [= <-]. dlia.
  - destruct (Clock.local_to_seconds _ _) as [seconds|e] eqn:E; [|discriminate].
    apply local_to_seconds_fixed_inv in E. cbn [bind]. intros [= <-]. lia.
Qed.

Section FixedOffset.

Variables (now off : Z) (feed : string -> result (list JobRecord)).

Hypothesis Hoff : -86400 <= off <= 86400.

Lemma cutoff_float_fixed :
  0 <= now -> now / 1000000 + 2 * 86400 <= Spec.MAX_EPOCH ->
  cutoff_float (mk_Env now (fun _ => off) feed)
  = Ok (F64.sub (F64.add (F64.of_int (now / 1000000 - off))
                         (F64.div_int (now mod 1000000) 1000000))
                (F64.of_int 86400)).
Proof.
  unfold Spec.MAX_EPOCH. intros Hnow Hmax.
  unfold cutoff_float, Clock.utcnow, DT.US_PER_SECOND. cbn [now_us utcoffset].
  destruct (gmtime_spec (now / 1000000)) as (y & m & d & hh & mm & ss & -> & Hd & Ht & Hs);
    [unfold Spec.MAX_EPOCH; dlia|].
  unfold DT.datetime_new. rewrite Hd, Ht by dlia. cbn [andb bind].
  unfold Clock.timestamp.
  cbn [DT.year DT.month DT.day DT.hour DT.minute DT.second DT.microsecond DT.tzinfo].
  rewrite Hs. unfold DT.EPOCH_SECONDS, Calendar.EPOCH_ORDINAL, DT.US_PER_SECOND.
  rewrite local_to_seconds_fixed by dlia. cbn [bind].
  do 4 f_equal. lia.
Qed.

Hypothesis Hlow : 3 * 86400 <= now / 1000000.
Hypothesis Hhigh : now / 1000000 + 2 * 86400 < 2 ^ 32.

(** On a machine whose local time is [off] seconds east of UTC the cutoff
    is, to the microsecond, the current time minus 24 hours minus [off]:
    it is 24 hours back when the local time is UTC, and only then. *)
Lemma cutoff_of_fixed_offset :
  cutoff_of (mk_Env now (fun _ => off) feed)
  = Ok (now - 24 * 60 * 60 * 1000000 - off * 1000000).
Proof.
  change (2 ^ 32) with 4294967296 in Hhigh.
  unfold cutoff_of. rewrite cutoff_float_fixed by (unfold Spec.MAX_EPOCH; dlia).
  cbn [bind]. f_equal.
  rewrite cutoff_micros by (change (2 ^ 32) with 4294967296; dlia). dlia.
Qed.

Lemma recent_fixed (cutoff : F64.t) (r : JobRecord) :
  cutoff_float (mk_Env now (fun _ => off) feed) = Ok cutoff ->
  Facts.whole_second_date (fun _ => off) r ->
  Spec.recency_defined (fun _ => off) r
  /\ Spec.recent (fun _ => off) cutoff r
     = Facts.not_older (fun _ => off)
         (now - 24 * 60 * 60 * 1000000 - off * 1000000) r.
Proof.
  change (2 ^ 32) with 4294967296 in Hhigh.
  rewrite cutoff_float_fixed by (unfold Spec.MAX_EPOCH; dlia).
  intros [= <-].
  unfold Facts.whole_second_date, Spec.recency_defined, Spec.recent,
    Facts.not_older.
  destruct (parse_datetime (date_posted r)) as [[dt|]|e] eqn:Ep;
    [|intros _; now split|contradiction].
  intros [Hw [s Hs]].
  destruct (parse_datetime_valid _ _ Ep) as [Hv Hus].
  pose proof (epoch_seconds_fixed_bounds off dt s Hv Hoff Hs) as Hb.
  rewrite (timestamp_whole _ _ _ Hus Hw Hs Hb), Hs.
  split; [now eexists|].
  rewrite cutoff_decision by (change (2 ^ 32) with 4294967296; dlia).
  rewrite Z.leb_antisym. unfold DT.US_PER_SECOND. do 2 f_equal. dlia.
Qed.

Lemma filter_jobs_fixed (records : list JobRecord) (titles : list string) :
  (forall r, In r records -> Facts.whole_second_date (fun _ => off) r) ->
  filter_jobs (mk_Env now (fun _ => off) feed) records titles
  = Ok (filter (fun r =>
                  Spec.title_ok titles r
                  && Facts.not_older (fun _ => off)
                       (now - 24 * 60 * 60 * 1000000 - off * 1000000) r)
               records).
Proof.
  intro Hw. unfold filter_jobs.
  destruct (cutoff_float (mk_Env now (fun _ => off) feed)) as [cutoff|e] eqn:Ec.
  - cbn [bind utcoffset]. rewrite filter_loop_total.
    + cbn [app]. f_equal. apply filter_ext_in. intros r Hr.
      unfold Spec.keeps. f_equal. now apply recent_fixed, Hw.
    + intros r Hr. now apply (recent_fixed cutoff r Ec), Hw.
  - change (2 ^ 32) with 4294967296 in Hhigh.
    rewrite cutoff_float_fixed in Ec by (unfold Spec.MAX_EPOCH; dlia).
    discriminate.
Qed.

End FixedOffset.

(** Under a fixed offset below 24 hours, before the year 2106, a record
    dated a whole number of seconds and 48 hours behind the clock is
    dropped, whatever the titles. *)
Lemma filter_jobs_drops_two_days_old (now off : Z)
    (feed : string -> result (list JobRecord))
    (records : list JobRecord) (titles : list string) (out : list JobRecord)
    (r : JobRecord) (dt : DT.datetime) (s : Z) :
  -86400 <= off < 86400 ->
  3 * 86400 <= now / 1000000 -> now / 1000000 + 2 * 86400 < 2 ^ 32 ->
  filter_jobs (mk_Env now (fun _ => off) feed) records titles = Ok out ->
  Facts.whole_second_date (fun _ => off) r ->
  parse_datetime (date_posted r) = Ok (Some dt) ->
  Facts.epoch_seconds (fun _ => off) dt = Ok s ->
  s * 1000000 <= now - 48 * 3600 * 1000000 ->
  ~ In r out.
Proof.
  intros Hoff Hlow Hhigh Hf Hw Hp Hs Hold Hin.
  destruct (filter_jobs_keeps (mk_Env now (fun _ => off) feed) records titles)
    as [Hsound _].
  destruct (Hsound out Hf) as (cutoff & Hc & ->).
  apply filter_In in Hin as [_ Hk].
  unfold Spec.keeps in Hk. apply andb_true_iff in Hk as [_ Hk].
  cbn [utcoffset] in Hk.
  destruct (recent_fixed now off feed ltac:(lia) Hlow Hhigh cutoff r Hc Hw)
    as [_ Hr].
  rewrite Hr in Hk. unfold Facts.not_older in Hk. rewrite Hp, Hs in Hk.
  apply Z.leb_le in Hk. unfold DT.US_PER_SECOND in Hk. lia.
Qed.

(** C7 fails on the code: on a machine two hours east of UTC, at
    2024-06-02T12:00:00Z, the cutoff is 26 hours back, and a record posted
    24 hours and a half before the current time is kept. *)
Lemma filter_jobs_keeps_older_than_24h :
  let env := mk_Env Sample.noon_2024_06_02 Sample.utc_plus_2 Sample.no_feed in
  let r := Sample.job "remotive" "7" "Senior Engineer" "2024-06-01T11:30:00+00:00" in
  cutoff_of env = Ok (now_us env - 26 * 3600 * 1000000)
  /\ Spec.iso_datetime (date_posted r) = Some (1717241400 * 1000000, Some 0)
  /\ 1717241400 * 1000000 < now_us env - 24 * 3600 * 1000000
  /\ filter_jobs env [r] [] = Ok [r].
Proof. repeat split; vm_compute; reflexivity. Qed.

(** C6 fails on the code: the recency check follows the local time zone.
    On a machine five hours and a half east of UTC, at
    2024-06-02T12:00:00Z, a record posted 29 hours before does not pass the
    recency check, and [filter_jobs] keeps it: with the empty title list
    next to a recent record, and with a title list that matches it.  On a
    machine whose local time is UTC the same calls drop it.  The title test
    and the order are as the claim has them. *)
Lemma filter_jobs_keeps_stale_records :
  let now := Sample.noon_2024_06_02 in
  let east := mk_Env now Sample.utc_plus_530 Sample.no_feed in
  let utc := mk_Env now Sample.utc Sample.no_feed in
  let stale := Sample.job "remotive" "9" "Data Analyst" "2024-06-01T07:00:00+00:00" in
  let fresh := Sample.job "remotive" "7" "Senior Engineer" "2024-06-02T11:00:00+00:00" in
  (Spec.iso_datetime (date_posted stale) = Some (1717225200 * 1000000, Some 0)
   /\ 1717225200 * 1000000 = now - 29 * 3600 * 1000000
   /\ 1717225200 * 1000000 < now - 24 * 3600 * 1000000)
  /\ filter_jobs east [stale; fresh] [] = Ok [stale; fresh]
  /\ filter_jobs east [stale; fresh] ["analyst"] = Ok [stale]
  /\ filter_jobs east [stale; fresh] ["engineer"] = Ok [fresh]
  /\ filter_jobs utc [stale; fresh] [] = Ok [fresh]
  /\ filter_jobs utc [stale; fresh] ["analyst"] = Ok [].
Proof. repeat split; vm_compute; reflexivity. Qed.

(** ** Offsets that [isoformat] prints *)

Lemma digit_char_low (k : Z) :
  0 <= k <= 5 ->
  Str.between (Str.code "0") (Str.code "5") (Str.digit_char k) = true.
Proof. intros H. enum k 0 6%nat; reflexivity. Qed.

(** The fields that [format_offset] prints. *)
Lemma offset_fields (off : Z) :
  - DT.US_PER_DAY < off < DT.US_PER_DAY ->
  let a := if off <? 0 then - off else off in
  let hh := a / (3600 * DT.US_PER_SECOND) in
  let mo := a mod (3600 * DT.US_PER_SECOND) in
  let ss := mo mod (60 * DT.US_PER_SECOND) in
  let mm := mo / (60 * DT.US_PER_SECOND) in
  0 <= hh <= 23 /\ 0 <= mm <= 59 /\ 0 <= ss < 60000000
  /\ a = (hh * 3600 + mm * 60) * 1000000 + ss
  /\ 0 <= ss / DT.US_PER_SECOND <= 59
  /\ 0 <= ss mod DT.US_PER_SECOND <= 999999
  /\ ss = ss / DT.US_PER_SECOND * 1000000 + ss mod DT.US_PER_SECOND
  /\ (off < 0 -> a = - off) /\ (0 <= off -> a = off).
Proof.
  unfold DT.US_PER_DAY, DT.US_PER_SECOND. intros Hoff. cbv zeta.
  destruct (Z.ltb_spec off 0); dlia.
Qed.

Section OffsetText.

Variable A : Type.
Variables (acc : string) (g : groups) (k : cont A).

Ltac z_tests :=
  repeat first
    [ rewrite ieq_refl
    | rewrite digit_char_low by dlia
    | rewrite digit_char_decimal by dlia ].

(** [%z] reads the whole of an offset that [isoformat] printed. *)
Lemma run_re_z_offset (off : Z) :
  - DT.US_PER_DAY < off < DT.US_PER_DAY ->
  k "" (acc ++ DT.format_offset (Some off))
       (("z", DT.format_offset (Some off)) :: g) <> None ->
  run A re_z (DT.format_offset (Some off)) acc g k
  = k "" (acc ++ DT.format_offset (Some off))
         (("z", DT.format_offset (Some off)) :: g).
Proof.
  intros Hoff. pose proof (offset_fields off Hoff) as B. cbv zeta in B.
  unfold DT.format_offset. cbv zeta.
  set (a := if off <? 0 then - off else off) in *.
  set (hh := a / (3600 * DT.US_PER_SECOND)) in *.
  set (mo := a mod (3600 * DT.US_PER_SECOND)) in *.
  set (ss := mo mod (60 * DT.US_PER_SECOND)) in *.
  set (mm := mo / (60 * DT.US_PER_SECOND)) in *.
  set (sec := ss / DT.US_PER_SECOND) in *.
  set (us := ss mod DT.US_PER_SECOND) in *.
  clearbody a hh mm ss sec us. clear mo.
  destruct B as (Bh & Bm & Bs & Hdec & Bsec & Bus & Hss & _).
  unfold re_z, digits_1_6.
  destruct (off <? 0); destruct (ss =? 0); try destruct (us =? 0);
    unfold Str.zfill6, Str.zfill4, Str.zfill2; cbn [append];
    intros Hk;
    cbn [run seq Opt digit range lit lit_exact];
    try change (sign_char "-") with true;
    try change (sign_char "+") with true;
    cbn iota; z_tests; cbn [append] in *;
    match goal with
    | |- context [k "" ?x ?y] =>
        let E := fresh "E" in
        destruct (k "" x y) eqn:E; [reflexivity | exfalso; now apply Hk]
    end.
Qed.

End OffsetText.

Lemma int_zfill6 (n : Z) : 0 <= n <= 999999 -> Str.int (Str.zfill6 n) = Some n.
Proof.
  intros H. rewrite int_decimal.
  - f_equal. unfold Spec.decimal_value, Str.zfill6, Str.zfill4.
    rewrite decimal_value_zfill2 by dlia.
    rewrite decimal_value_zfill2 by dlia.
    rewrite <- (append_nil_r (Str.zfill2 _)), decimal_value_zfill2 by dlia.
    cbn [Spec.decimal_value_from]. dlia.
  - unfold Spec.decimal_string, Str.zfill6.
    rewrite all_chars_app, zfill2_decimal, zfill4_decimal by dlia.
    reflexivity.
  - few_digits.
Qed.

Lemma length_zfill6 (n : Z) : String.length (Str.zfill6 n) = 6%nat.
Proof. reflexivity. Qed.

Ltac fold_zfill2 :=
  repeat match goal with
  | |- context [String (Str.digit_char (?x / 10))
                  (String (Str.digit_char (?x mod 10)) "")] =>
      change (String (Str.digit_char (x / 10))
                (String (Str.digit_char (x mod 10)) ""))
        with (Str.zfill2 x)
  end.

(** The offset [_strptime] reads from a text that [isoformat] printed. *)
Lemma tz_of_offset (off : Z) (g : groups) :
  - DT.US_PER_DAY < off < DT.US_PER_DAY ->
  tz_group (("z", DT.format_offset (Some off)) :: g) = Some (Some off).
Proof.
  intros Hoff. pose proof (offset_fields off Hoff) as B. cbv zeta in B.
  unfold tz_group. cbn [lookup String.eqb Ascii.eqb Bool.eqb].
  cbn [lookup]. change (String.eqb "z" "z") with true. cbn iota.
  unfold DT.format_offset. cbv zeta.
  set (a := if off <? 0 then - off else off) in *.
  set (hh := a / (3600 * DT.US_PER_SECOND)) in *.
  set (mo := a mod (3600 * DT.US_PER_SECOND)) in *.
  set (ss := mo mod (60 * DT.US_PER_SECOND)) in *.
  set (mm := mo / (60 * DT.US_PER_SECOND)) in *.
  set (sec := ss / DT.US_PER_SECOND) in *.
  set (us := ss mod DT.US_PER_SECOND) in *.
  clearbody a hh mm ss sec us. clear mo.
  destruct B as (Bh & Bm & Bs & Hdec & Bsec & Bus & Hss & Hneg & Hpos).
  assert (Htz : forall x, x = off -> DT.timezone_new x = Some off).
  { intros x ->. unfold DT.timezone_new.
    destruct (Z.ltb_spec (- DT.US_PER_DAY) off); [|lia].
    destruct (Z.ltb_spec off DT.US_PER_DAY); [|lia]. reflexivity. }
  unfold parse_z.
  destruct (Z.ltb_spec off 0); destruct (Z.eqb_spec ss 0);
    try destruct (Z.eqb_spec us 0);
    unfold Str.zfill2; cbn [append];
    cbn [String.eqb Ascii.eqb Bool.eqb nth_char Str.drop Str.first_char is_char
         Str.take append String.length Nat.ltb Nat.leb Str.slice Nat.sub
         Str.is_empty Str.starts_with andb zeros];
    rewrite ?length_zfill6;
    cbn [Nat.sub zeros];
    fold_zfill2; rewrite ?int_zfill2 by lia;
    rewrite ?append_nil_r, ?int_zfill6 by lia;
    try (change (Str.int "000000") with (Some 0));
    cbn [option_map]; rewrite Htz; try reflexivity;
    unfold DT.US_PER_SECOND in *; lia.
Qed.


(** ** What a successful match tells *)

Section RunFacts.

Variable A : Type.

Lemma plus_run_success (p : ascii -> bool) (s : string) :
  forall acc g (k : cont A) x,
    plus_run A p s acc g k = Some x ->
    exists s' acc' g', k s' acc' g' = Some x.
Proof.
  induction s as [|c s IH]; intros acc g k x; cbn [plus_run]; [discriminate|].
  destruct (p c); [|discriminate].
  destruct (plus_run A p s (acc ++ String c "") g k) eqn:E.
  - intros H. injection H as ->. now apply IH in E.
  - intros H. eexists _, _, _. exact H.
Qed.

(** A match that succeeds has called its continuation with success. *)
Lemma run_success (r : re) :
  forall s acc g (k : cont A) x,
    run A r s acc g k = Some x ->
    exists s' acc' g', k s' acc' g' = Some x.
Proof.
  induction r as [|p|r1 IH1 r2 IH2|r1 IH1 r2 IH2|p|name r1 IH1];
    intros s acc g k x; cbn [run].
  - intros H. eexists _, _, _. exact H.
  - destruct s as [|c s]; [discriminate|].
    destruct (p c); [|discriminate]. intros H. eexists _, _, _. exact H.
  - intros H. apply IH1 in H as (s1 & a1 & g1 & H). now apply IH2 in H.
  - destruct (run A r1 s acc g k) eqn:E.
    + intros H. injection H as ->. now apply IH1 in E.
    + apply IH2.
  - apply plus_run_success.
  - intros H. apply IH1 in H as (s1 & a1 & g1 & H). eexists _, _, _. exact H.
Qed.

(** A group that matched is the latest of the groups handed on. *)
Lemma run_group_success (name : string) (r : re) :
  forall s acc g (k : cont A) x,
    run A (Group name r) s acc g k = Some x ->
    exists s' acc' g' text, k s' acc' ((name, text) :: g') = Some x.
Proof.
  intros s acc g k x. cbn [run]. intros H.
  apply run_success in H as (s1 & a1 & g1 & H). eexists _, _, _, _. exact H.
Qed.

Lemma plus_run_consumes (P p : ascii -> bool) (s : string) :
  (forall c, p c = true -> P c = true) ->
  forall acc g (k : cont A) x,
    plus_run A p s acc g k = Some x ->
    exists pre s' acc' g',
      s = pre ++ s' /\ Str.all_chars P pre = true /\ k s' acc' g' = Some x.
Proof.
  intros Hp. induction s as [|c s IH]; intros acc g k x; cbn [plus_run];
    [discriminate|].
  destruct (p c) eqn:Ec; [|discriminate].
  destruct (plus_run A p s (acc ++ String c "") g k) eqn:E.
  - intros H. injection H as ->.
    apply IH in E as (pre & s' & a' & g' & -> & Hpre & Hk).
    exists (String c pre), s', a', g'. cbn [append Str.all_chars].
    now rewrite (Hp c Ec), Hpre.
  - intros H. exists (String c ""), s, (acc ++ String c ""), g.
    cbn [append Str.all_chars]. now rewrite (Hp c Ec).
Qed.

(** The text a match went over is made of characters the expression
    admits. *)
Lemma run_consumes (P : ascii -> bool) (r : re) :
  chars_ok P r ->
  forall s acc g (k : cont A) x,
    run A r s acc g k = Some x ->
    exists pre s' acc' g',
      s = pre ++ s' /\ Str.all_chars P pre = true /\ k s' acc' g' = Some x.
Proof.
  induction r as [|p|r1 IH1 r2 IH2|r1 IH1 r2 IH2|p|name r1 IH1];
    cbn [chars_ok]; intros Hok s acc g k x; cbn [run].
  - intros H. now exists "", s, acc, g.
  - destruct s as [|c s]; [discriminate|].
    destruct (p c) eqn:Ec; [|discriminate]. intros H.
    exists (String c ""), s, (acc ++ String c ""), g.
    cbn [append Str.all_chars]. now rewrite (Hok c Ec).
  - destruct Hok as [H1 H2]. intros H.
    apply (IH1 H1) in H as (pre1 & s1 & a1 & g1 & -> & Hp1 & H).
    apply (IH2 H2) in H as (pre2 & s2 & a2 & g2 & -> & Hp2 & H).
    exists (pre1 ++ pre2), s2, a2, g2.
    now rewrite append_assoc, all_chars_app, Hp1, Hp2.
  - destruct Hok as [H1 H2].
    destruct (run A r1 s acc g k) eqn:E.
    + intros H. injection H as ->. now apply (IH1 H1) in E.
    + now apply IH2.
  - now apply plus_run_consumes.
  - intros H. apply (IH1 Hok) in H as (pre & s1 & a1 & g1 & -> & Hp & H).
    eexists pre, s1, _, _. repeat split; [assumption | exact H].
Qed.

End RunFacts.

Lemma run_ends_with_z (prefix : list re) :
  forall (v acc : string) (g0 : groups) (rest : string) (g : groups),
    run (string * groups) (fold_right Seq (Seq re_z Eps) prefix) v acc g0
        (fun s' _ g' => Some (s', g')) = Some (rest, g) ->
    exists z g', g = ("z", z) :: g'.
Proof.
  induction prefix as [|r rs IH]; intros v acc g0 rest g; cbn [fold_right run].
  - intros H. unfold re_z in H.
    apply run_group_success in H as (s' & a' & g' & text & H).
    cbn beta in H. injection H as _ Hg. exists text, g'. now rewrite <- Hg.
  - intros H. apply run_success in H as (s1 & a1 & g1 & H). now apply IH in H.
Qed.

(** A pattern that ends with [%z] leaves the group [z] first. *)
Lemma match_ends_with_z (prefix : list re) (v rest : string) (g : groups) :
  match_prefix (fold_right Seq (Seq re_z Eps) prefix) v = Some (rest, g) ->
  exists z g', g = ("z", z) :: g'.
Proof. apply run_ends_with_z. Qed.

Lemma pattern_fmt1_fold :
  pattern "%Y-%m-%dT%H:%M:%S%z"
  = Some (fold_right Seq (Seq re_z Eps)
            [re_Y; lit "-"; re_m; lit "-"; re_d; lit "T"; re_H; lit ":"; re_M;
             lit ":"; re_S]).
Proof. reflexivity. Qed.

Lemma pattern_fmt2_fold :
  pattern "%a, %d %b %Y %H:%M:%S %z"
  = Some (fold_right Seq (Seq re_z Eps)
            [re_a; lit ","; Plus Str.isspace; re_d; Plus Str.isspace; re_b;
             Plus Str.isspace; re_Y; Plus Str.isspace; re_H; lit ":"; re_M;
             lit ":"; re_S; Plus Str.isspace]).
Proof. reflexivity. Qed.

(** What the two formats with [%z] return is aware. *)
Lemma strptime_z_aware (prefix : list re) (fmt v : string) (dt : DT.datetime) :
  pattern fmt = Some (fold_right Seq (Seq re_z Eps) prefix) ->
  strptime v fmt = Some dt ->
  exists off, DT.tzinfo dt = Some off.
Proof.
  intros Hp. unfold strptime. rewrite Hp.
  destruct (match_prefix _ v) as [[rest g]|] eqn:E; [|discriminate].
  apply match_ends_with_z in E as (z & g' & ->).
  destruct (Str.is_empty rest); [|discriminate].
  unfold build.
  destruct (int_group "Y" 1900 _) as [y|]; [|discriminate].
  destruct (month_group _) as [m|]; [|discriminate].
  destruct (int_group "d" 1 _) as [d|]; [|discriminate].
  destruct (int_group "H" 0 _) as [hh|]; [|discriminate].
  destruct (int_group "M" 0 _) as [mm|]; [|discriminate].
  destruct (int_group "S" 0 _) as [ss|]; [|discriminate].
  destruct (tz_group _) as [tz|] eqn:Etz; [|discriminate].
  intros H. apply datetime_new_some in H as (-> & _ & _). cbn [DT.tzinfo].
  unfold tz_group in Etz. cbn [lookup] in Etz.
  change (String.eqb "z" "z") with true in Etz. cbn iota in Etz.
  destruct (parse_z z) as [[gmtoff frac]|]; [|discriminate].
  destruct (DT.timezone_new _) as [off|]; [|discriminate].
  cbn [option_map] in Etz. injection Etz as <-. now exists off.
Qed.

(** A text that the plain date format reads has no time indicator. *)
Lemma strptime_fmt3_no_indicator (v : string) (dt : DT.datetime) :
  strptime v "%Y-%m-%d" = Some dt -> Spec.has_time_indicator v = false.
Proof.
  unfold strptime. rewrite pattern_fmt3.
  destruct (match_prefix _ v) as [[rest g]|] eqn:E; [|discriminate].
  destruct rest; [|discriminate]. intros _.
  unfold match_prefix in E.
  apply (run_consumes _ Spec.no_indicator_char) in E
    as (pre & s' & a' & g' & -> & Hpre & H).
  - injection H as -> _. rewrite append_nil_r.
    unfold Spec.has_time_indicator. rewrite !contains_char.
    rewrite (all_chars_impl Spec.no_indicator_char _ pre), 
            (all_chars_impl Spec.no_indicator_char _ pre); auto.
    + intros c Hc. unfold Spec.no_indicator_char in Hc.
      now apply andb_true_iff in Hc as [_ Hc].
    + intros c Hc. unfold Spec.no_indicator_char in Hc.
      now apply andb_true_iff in Hc as [Hc _].
  - unfold re_Y, re_m, re_d. cbn [chars_ok seq alt digit range lit].
    repeat split; char_fact.
Qed.


(** ** Idempotence off the epoch path *)

(** The first format reads an aware date-time that [isoformat] printed. *)
Lemma strptime_fmt1_aware (dt : DT.datetime) (off : Z) :
  Spec.valid_datetime dt = true -> DT.microsecond dt = 0 ->
  DT.tzinfo dt = Some off ->
  strptime (DT.isoformat dt) "%Y-%m-%dT%H:%M:%S%z" = Some dt.
Proof.
  intros Hv Hus Htz. apply valid_datetime_fields in Hv as (Hdf & Htf & Hoff).
  rewrite Htz in Hoff. rewrite Hus in Htf.
  pose proof (check_date_fields_bounds _ _ _ Hdf) as (Hy & Hm & Hd & _).
  pose proof (check_time_fields_bounds _ _ _ _ Htf) as (Hh & Hmi & Hs & _).
  destruct dt as [y m d hh mm ss us tz].
  cbn [DT.year DT.month DT.day DT.hour DT.minute DT.second DT.microsecond
       DT.tzinfo] in *. subst us tz.
  unfold strptime. rewrite pattern_fmt1.
  unfold DT.isoformat, DT.date_isoformat, DT.format_time.
  cbn [DT.year DT.month DT.day DT.hour DT.minute DT.second DT.microsecond
       DT.tzinfo Z.eqb].
  rewrite !append_assoc. cbn [append].
  unfold match_prefix.
  change (Str.zfill4 y ++ String "-" (Str.zfill2 m ++ String "-" (Str.zfill2 d ++ ?r)))
    with (Str.zfill4 y ++ "-" ++ Str.zfill2 m ++ "-" ++ Str.zfill2 d ++ r).
  rewrite run_date_prefix; [|lia|lia|lia|apply shy_lit; reflexivity].
  lit_step.
  rewrite run_re_H; [|assumption|right; apply shy_lit; reflexivity].
  lit_step.
  rewrite run_re_M; [|assumption|right; apply shy_lit; reflexivity].
  lit_step.
  rewrite run_re_S; [|assumption|right; apply shy_re_z].
  rewrite run_re_z_offset; [|assumption|discriminate].
  cbn [Str.is_empty]. unfold build, int_group, month_group.
  rewrite tz_of_offset by assumption.
  cbn [lookup String.eqb Ascii.eqb Bool.eqb].
  rewrite int_zfill4, !int_zfill2 by lia.
  unfold DT.datetime_new. now rewrite Hdf, Htf.
Qed.

Lemma isoformat_has_T (dt : DT.datetime) :
  Str.contains "T" (DT.isoformat dt) = true.
Proof.
  apply contains_spec. exists (DT.date_isoformat dt).
  exists (DT.format_time dt ++ DT.format_offset (DT.tzinfo dt)).
  reflexivity.
Qed.

(** An aware date-time that [isoformat] printed is a fixed point. *)
Lemma normalize_date_aware (dt : DT.datetime) (off : Z) :
  Spec.valid_datetime dt = true -> DT.microsecond dt = 0 ->
  DT.tzinfo dt = Some off ->
  normalize_date (DT.isoformat dt) = Ok (DT.isoformat dt).
Proof.
  intros Hv Hus Htz.
  pose proof (valid_datetime_fields dt Hv) as (Hdf & _ & _).
  pose proof (check_date_fields_bounds _ _ _ Hdf) as (Hy & _).
  assert (Hnd : Str.isdigit (DT.isoformat dt) = false).
  { unfold DT.isoformat. rewrite date_isoformat_ymd.
    apply ymd_string_not_isdigit. lia. }
  assert (Hne : Str.is_empty (DT.isoformat dt) = false) by reflexivity.
  unfold normalize_date, parse_datetime. rewrite Hne, Hnd.
  unfold FORMATS. cbn [try_formats].
  rewrite (strptime_fmt1_aware dt off) by assumption.
  cbn [bind orb]. now rewrite isoformat_has_T.
Qed.

(** C2 holds off the epoch path: what [normalize_date] returns for an
    input that does not pass [isdigit] is a fixed point of it. *)
Lemma normalize_date_idempotent (v s : string) :
  Str.isdigit v = false ->
  normalize_date v = Ok s ->
  normalize_date s = Ok s.
Proof.
  intros Hd. unfold normalize_date at 1, parse_datetime. rewrite Hd.
  destruct (Str.is_empty v); cbn [bind].
  { intros H. injection H as <-. reflexivity. }
  destruct (try_formats v FORMATS) as [dt|] eqn:Et.
  2:{ intros H. injection H as <-. reflexivity. }
  pose proof (try_formats_valid _ _ _ Et) as [Hv Hus].
  pose proof (valid_datetime_fields dt Hv) as (Hdf & _ & _).
  cbn [orb].
  destruct (Str.contains "T" v || Str.contains ":" v) eqn:Ei;
    intros H; injection H as <-.
  - unfold FORMATS in Et. cbn [try_formats] in Et.
    destruct (strptime v "%Y-%m-%dT%H:%M:%S%z") as [dt1|] eqn:E1.
    { injection Et as ->.
      destruct (strptime_z_aware _ _ _ _ pattern_fmt1_fold E1) as [off Hoff].
      now apply (normalize_date_aware dt off). }
    destruct (strptime v "%a, %d %b %Y %H:%M:%S %z") as [dt2|] eqn:E2.
    { injection Et as ->.
      destruct (strptime_z_aware _ _ _ _ pattern_fmt2_fold E2) as [off Hoff].
      now apply (normalize_date_aware dt off). }
    destruct (strptime v "%Y-%m-%d") as [dt3|] eqn:E3; [|discriminate].
    apply strptime_fmt3_no_indicator in E3.
    unfold Spec.has_time_indicator in E3. congruence.
  - rewrite date_isoformat_ymd. now apply normalize_date_date.
Qed.

Lemma rstrip_clean (s : string) (b : ascii) :
  Str.last_char s = Some b -> Str.isspace b = false -> Str.rstrip s = s.
Proof.
  induction s as [|c s IH]; [discriminate|].
  rewrite last_char_cons. cbn [Str.rstrip].
  destruct (Str.last_char s) as [b'|] eqn:El.
  - intros H Hb. injection H as ->. rewrite IH by auto.
    destruct s; [discriminate|]. cbn [Str.is_empty]. now rewrite andb_false_r.
  - intros H Hb. injection H as ->. rewrite Hb. cbn [andb].
    destruct s as [|c' s']; [reflexivity|].
    destruct (last_char_some c' s') as [x Hx]. congruence.
Qed.

(** [strip] changes nothing in a text without white space at its ends. *)
Lemma strip_fixed (s : string) :
  Spec.no_outer_whitespace s = true -> Str.strip s = s.
Proof.
  unfold Spec.no_outer_whitespace, Str.strip.
  destruct s as [|c s]; [reflexivity|]. cbn [Str.first_char].
  destruct (last_char_some c s) as [b Hb]. rewrite Hb.
  intros H. apply andb_true_iff in H as [Hc Hb'].
  apply negb_true_iff in Hc, Hb'.
  cbn [Str.lstrip]. rewrite Hc. now apply (rstrip_clean _ b).
Qed.

Lemma strip_idempotent (s : string) : Str.strip (Str.strip s) = Str.strip s.
Proof. apply strip_fixed, strip_clean. Qed.

Lemma normalize_date_not_isdigit (v s : string) :
  normalize_date v = Ok s -> Str.isdigit s = false.
Proof.
  unfold normalize_date.
  destruct (parse_datetime v) as [[dt|]|e] eqn:Ep; cbn [bind]; [| |discriminate].
  - apply parse_datetime_valid in Ep as [Hv _].
    apply valid_datetime_fields in Hv as (Hdf & _ & _).
    apply check_date_fields_bounds in Hdf as (Hy & _).
    destruct (Str.isdigit v || Str.contains "T" v || Str.contains ":" v);
      intros H; injection H as <-.
    + unfold DT.isoformat. rewrite date_isoformat_ymd.
      apply ymd_string_not_isdigit. lia.
    + rewrite date_isoformat_ymd, <- (append_nil_r (Spec.ymd_string _ _ _)).
      apply ymd_string_not_isdigit. lia.
  - intros H. injection H as <-. reflexivity.
Qed.

(** Transform changes nothing in the image of a record whose raw date does
    not pass [isdigit]. *)
Lemma transform_record_idempotent (r r' : JobRecord) :
  Str.isdigit (date_posted r) = false ->
  transform_record r = Ok r' ->
  transform_record r' = Ok r'.
Proof.
  intros Hd. unfold transform_record at 1.
  destruct (normalize_date (date_posted r)) as [s|e] eqn:En; cbn [bind];
    [|discriminate].
  intros H. injection H as <-. unfold transform_record.
  cbn [source source_id title company location url tags date_posted salary
       description].
  rewrite (normalize_date_idempotent _ _ Hd En). cbn [bind].
  now rewrite !strip_idempotent.
Qed.

(** Transform is idempotent on every list of records whose raw dates do not
    pass [isdigit]. *)
Lemma transform_idempotent_off_epoch (records cleaned : list JobRecord) :
  (forall r, In r records -> Str.isdigit (date_posted r) = false) ->
  transform records = Ok cleaned ->
  transform cleaned = Ok cleaned.
Proof.
  intros Hd Ht. apply transform_spec in Ht.
  unfold transform.
  enough (H : forall acc, transform_loop cleaned acc = Ok (acc ++ cleaned)%list)
    by apply (H []).
  induction Ht as [|r r' rs rs' Hr HF IH]; intros acc; cbn [transform_loop].
  - now rewrite app_nil_r.
  - rewrite (transform_record_idempotent r r') by (auto using in_eq).
    cbn [bind]. rewrite IH by (intros x Hx; apply Hd; now right).
    now rewrite <- app_assoc.
Qed.

(** * Further properties of the code *)

(** ** The upsert sink, load after load *)

Lemma filter_twice {A : Type} (p q : A -> bool) (l : list A) :
  filter p (filter q l) = filter (fun x => p x && q x) l.
Proof.
  induction l as [|x l IH]; [reflexivity|].
  cbn. destruct (q x) eqn:Eq; cbn.
  - destruct (p x); cbn; now rewrite IH.
  - now rewrite Bool.andb_false_r.
Qed.

Lemma key_written_snoc (records : list JobRecord) (x row : JobRecord) :
  Facts.key_written (records ++ [x]) row
  = Facts.key_written records row || same_key row x.
Proof.
  unfold Facts.key_written. rewrite existsb_app. cbn.
  now rewrite Bool.orb_false_r.
Qed.

(** A load leaves the rows under other keys in place and puts its own
    behind them. *)
Lemma load_to_sqlite_split (records : list JobRecord) :
  forall t,
    load_to_sqlite records t
    = (filter (fun row => negb (Facts.key_written records row)) t
       ++ load_to_sqlite records [])%list.
Proof.
  induction records as [|x records IH] using rev_ind; intro t.
  - cbn. rewrite app_nil_r. induction t as [|r t IHt]; [reflexivity|].
    cbn. now rewrite <- IHt.
  - rewrite !load_to_sqlite_app. cbn. unfold insert_or_replace.
    rewrite (IH t). rewrite filter_app, filter_twice, <- app_assoc.
    f_equal. apply filter_ext. intro row.
    rewrite key_written_snoc, Bool.negb_orb. apply Bool.andb_comm.
Qed.

Lemma load_to_sqlite_rows (records : list JobRecord) :
  forall t row,
    In row (load_to_sqlite records t) -> In row t \/ In row records.
Proof.
  induction records as [|x records IH]; intros t row Hin; [now left|].
  cbn in Hin. apply IH in Hin. destruct Hin as [Hin|Hin]; [|right; now right].
  unfold insert_or_replace in Hin. apply in_app_or in Hin.
  destruct Hin as [Hin|[<-|[]]].
  - left. now apply filter_In in Hin.
  - right. now left.
Qed.

Lemma key_written_in (records : list JobRecord) (row : JobRecord) :
  In row records -> Facts.key_written records row = true.
Proof.
  intro Hin. apply existsb_exists. exists row. split; [exact Hin|].
  apply same_key_refl.
Qed.

Lemma load_to_sqlite_own_rows (records : list JobRecord) :
  filter (fun row => negb (Facts.key_written records row))
         (load_to_sqlite records [])
  = [].
Proof.
  apply filter_all_false. intros row Hin. apply load_to_sqlite_rows in Hin.
  destruct Hin as [[]|Hin]. now rewrite key_written_in.
Qed.

Lemma load_to_sqlite_again (records : list JobRecord) (t : table) :
  load_to_sqlite records (load_to_sqlite records t) = load_to_sqlite records t.
Proof.
  rewrite (load_to_sqlite_split records (load_to_sqlite records t)).
  rewrite (load_to_sqlite_split records t) at 1.
  rewrite filter_app, filter_twice, load_to_sqlite_own_rows, app_nil_r.
  rewrite (load_to_sqlite_split records t). f_equal.
  apply filter_ext. intro row. now destruct (Facts.key_written records row).
Qed.

(** X1: loading the same records a second time leaves the table exactly as
    the first load left it: same rows, same order.  It holds for every
    table and every list of records. *)
Theorem load_to_sqlite_idempotent (records : list JobRecord) (t : table) :
  load_to_sqlite records (load_to_sqlite records t) = load_to_sqlite records t.
Proof. apply load_to_sqlite_again. Qed.

(** X2: a load never touches the rows stored under a key that none of its
    records has (they stay, in their order), and every row of the table
    after the load was in it before or is one of the records. *)
Theorem load_to_sqlite_keeps_other_rows (records : list JobRecord) (t : table) :
  filter (fun row => negb (Facts.key_written records row))
         (load_to_sqlite records t)
  = filter (fun row => negb (Facts.key_written records row)) t
  /\ (forall row,
        In row (load_to_sqlite records t) -> In row t \/ In row records).
Proof.
  split; [|apply load_to_sqlite_rows].
  rewrite load_to_sqlite_split, filter_app, filter_twice.
  rewrite load_to_sqlite_own_rows, app_nil_r.
  apply filter_ext. intro row. now destruct (Facts.key_written records row).
Qed.

(** ** The orchestrator, stage by stage *)

Lemma extract_loop_ok (env : Env) (selected : list string) :
  forall records w w1 out,
    extract_loop env selected records w = (w1, Ok out) ->
    w1 = Spec.logged w selected
    /\ exists parts,
         Facts.fetched env selected parts
         /\ out = (records ++ List.concat parts)%list.
Proof.
  induction selected as [|name rest IH]; intros records w w1 out H; cbn in H.
  - injection H as <- <-. rewrite logged_nil. split; [reflexivity|].
    exists []. split; [constructor|]. cbn. now rewrite app_nil_r.
  - destruct (PORTALS_get name) as [portal|] eqn:Eget; [|discriminate].
    assert (portal = name /\ Spec.registered name = true) as [-> Hreg].
    { unfold PORTALS_get in Eget. fold (Spec.registered name) in Eget.
      destruct (Spec.registered name); [|discriminate].
      injection Eget as <-. now split. }
    destruct (feed env name) as [rs|e] eqn:Efeed; [|now inversion H].
    apply IH in H. destruct H as [-> [parts [Hparts ->]]].
    split; [apply logged_cons|].
    exists (rs :: parts). split; [now constructor|].
    cbn. now rewrite app_assoc.
Qed.

Lemma extract_loop_fetched (env : Env) (selected : list string)
    (parts : list (list JobRecord)) :
  Facts.fetched env selected parts ->
  forall records w,
    extract_loop env selected records w
    = (Spec.logged w selected, Ok (records ++ List.concat parts)%list).
Proof.
  induction 1 as [|name rs rest parts [Hreg Hfeed] _ IH]; intros records w; cbn.
  - now rewrite logged_nil, app_nil_r.
  - rewrite (PORTALS_get_registered _ Hreg), Hfeed, IH, logged_cons.
    now rewrite app_assoc.
Qed.

(** A run that returns: its stages, its calls, and the sink at work. *)
Lemma run_etl_returns (env : Env) (w : World) (selected : list string)
    (output fmt : string) (titles : list string) (w' : World) (code : Z) :
  run_etl env w selected output fmt titles = (w', Ok code) ->
  code = 0
  /\ exists parts cleaned filtered sink w2,
       Facts.fetched env selected parts
       /\ transform (List.concat parts) = Ok cleaned
       /\ filter_jobs env cleaned titles = Ok filtered
       /\ Facts.sink_of fmt output filtered = Some sink
       /\ Facts.load fmt filtered output (log sink (Spec.logged w selected))
          = (w2, Ok tt)
       /\ w' = log (Print (List.length filtered) output) w2
       /\ events w'
          = (events w ++ map Extract selected
             ++ [sink; Print (List.length filtered) output])%list.
Proof.
  intro H.
  destruct (extract_loop env selected [] w) as [w1 [records|e]] eqn:Eloop;
    [|unfold run_etl in H; rewrite Eloop in H; discriminate].
  destruct (transform records) as [cleaned|e] eqn:Et;
    [|unfold run_etl in H; rewrite Eloop, Et in H; discriminate].
  destruct (filter_jobs env cleaned titles) as [filtered|e] eqn:Ef;
    [|unfold run_etl in H; rewrite Eloop, Et, Ef in H; discriminate].
  rewrite (run_etl_stages _ _ _ _ _ _ _ _ _ _ Eloop Et Ef) in H.
  apply extract_loop_ok in Eloop. destruct Eloop as [-> [parts [Hparts ->]]].
  cbn [app] in Et.
  destruct (Facts.sink_of fmt output filtered) as [sink|] eqn:Es;
    [|discriminate].
  destruct (load_outcome fmt filtered output (log sink (Spec.logged w selected)))
    as [[w2 [E Hev]] | [e [E _]]]; rewrite E in H; [|discriminate].
  injection H as <- <-. split; [reflexivity|].
  exists parts, cleaned, filtered, sink, w2.
  repeat (split; [assumption || reflexivity|]).
  cbn [log events]. rewrite Hev. cbn [log events Spec.logged].
  now rewrite <- !app_assoc.
Qed.

(** X3: a run that returns has returned 0 after exactly these calls, in
    this order: one extraction for each selected name, then one sink (the
    one of the format) on the records that Filter kept out of the
    transformed concatenation of the feeds, then the message with their
    count. *)
Theorem run_etl_success_trace (env : Env) (w : World) (selected : list string)
    (output fmt : string) (titles : list string) (w' : World) (code : Z) :
  run_etl env w selected output fmt titles = (w', Ok code) ->
  code = 0
  /\ exists parts cleaned filtered sink,
       Facts.fetched env selected parts
       /\ transform (List.concat parts) = Ok cleaned
       /\ filter_jobs env cleaned titles = Ok filtered
       /\ Facts.sink_of fmt output filtered = Some sink
       /\ events w'
          = (events w ++ map Extract selected
             ++ [sink; Print (List.length filtered) output])%list.
Proof.
  intro H. apply run_etl_returns in H.
  destruct H as [Hc (parts & cleaned & filtered & sink & w2
                     & Hp & Ht & Hf & Hs & _ & _ & Hev)].
  split; [exact Hc|]. now exists parts, cleaned, filtered, sink.
Qed.

(** X4: a failure to fetch one portal ends the run: the names before it
    have been extracted, the failing one has been called, the names after
    it are never called, nothing is written, and the error is the one the
    fetch raised. *)
Theorem run_etl_fetch_failure (env : Env) (w : World)
    (pre : list string) (name : string) (post : list string)
    (output fmt : string) (titles : list string) (e : exn) :
  (forall n, In n pre -> Spec.extractable env n) ->
  Spec.registered name = true ->
  feed env name = Raised e ->
  run_etl env w (pre ++ name :: post) output fmt titles
  = (Spec.logged w (pre ++ [name]), Raised e).
Proof.
  intros Hpre Hreg Hfeed. unfold run_etl.
  assert (forall records w0,
             extract_loop env (pre ++ name :: post) records w0
             = (Spec.logged w0 (pre ++ [name]), Raised e)) as ->; [|reflexivity].
  clear w. induction pre as [|n pre IH]; intros records w0; cbn.
  - rewrite (PORTALS_get_registered _ Hreg), Hfeed. reflexivity.
  - destruct (Hpre n (or_introl eq_refl)) as [Hn [rs Hrs]].
    rewrite (PORTALS_get_registered _ Hn), Hrs, IH, logged_cons; [reflexivity|].
    intros m Hm. apply Hpre. now right.
Qed.


Lemma files_put_same (path : string) (n : node) (w : World) :
  files (put path n w) path = n.
Proof. cbn. now rewrite String.eqb_refl. Qed.


(** What the SQLite sink does to the files depends on the files only. *)
Lemma sqlite_again (records : list JobRecord) (path : string) (w w2 : World) :
  Sink.sqlite records path w = (w2, Ok tt) ->
  forall v,
    files v = files w2 ->
    exists v2,
      Sink.sqlite records path v = (v2, Ok tt)
      /\ events v2 = events v
      /\ forall p, files v2 p = files w2 p.
Proof.
  unfold Sink.sqlite. intros H v Hv.
  destruct (negb (Text.lacks Sink.NUL path)); [discriminate|].
  destruct (Sink.private path).
  - injection H as <-. exists v. split; [reflexivity|]. split; [reflexivity|].
    intro p. now rewrite Hv.
  - destruct (Sink.connect path w) as [jobs|e]; [|discriminate].
    injection H as <-. unfold Sink.connect. rewrite Hv, files_put_same.
    eexists. split; [reflexivity|]. split; [reflexivity|].
    intro p. cbn [put files]. rewrite Hv. cbn [put files].
    destruct (String.eqb p path); [|reflexivity].
    f_equal. apply load_to_sqlite_again.
Qed.

(** A sqlite run that returned, run again on the world it left with the
    same feeds and the same clock: in this world the database is there to
    be opened, the second run returns and changes no file. *)
Lemma run_etl_sqlite_again (env : Env) (w : World) (selected : list string)
    (output : string) (titles : list string) (w1 : World) (code : Z) :
  run_etl env w selected output "sqlite" titles = (w1, Ok code) ->
  exists w2,
    run_etl env w1 selected output "sqlite" titles = (w2, Ok 0)
    /\ forall path, files w2 path = files w1 path.
Proof.
  intro H. apply run_etl_returns in H.
  destruct H as [_ (parts & cleaned & filtered & sink & w0
                    & Hp & Ht & Hf & Hs & Hload & -> & _)].
  set (w1 := log (Print (List.length filtered) output) w0).
  rewrite (run_etl_stages env w1 (Spec.logged w1 selected) selected output
             "sqlite" titles (List.concat parts) cleaned filtered);
    [|apply (extract_loop_fetched _ _ _ Hp)|exact Ht|exact Hf].
  rewrite Hs. unfold Facts.load in *. cbn [String.eqb Ascii.eqb Bool.eqb] in *.
  destruct (sqlite_again _ _ _ _ Hload (log sink (Spec.logged w1 selected)))
    as (v2 & -> & _ & Hfiles); [reflexivity|].
  eexists. split; [reflexivity|]. intro path. apply Hfiles.
Qed.

(** X6: a sqlite run that returned is run again on the files it left, with
    the same feeds and the same clock: when the second run returns, it
    returns 0 and every file is as the first run left it, the database row
    for row. *)
Theorem run_etl_sqlite_rerun (env : Env) (w : World) (selected : list string)
    (output : string) (titles : list string) (w1 w2 : World) (code code2 : Z) :
  run_etl env w selected output "sqlite" titles = (w1, Ok code) ->
  run_etl env w1 selected output "sqlite" titles = (w2, Ok code2) ->
  code2 = 0 /\ forall path, files w2 path = files w1 path.
Proof.
  intros H1 H2.
  destruct (run_etl_sqlite_again _ _ _ _ _ _ _ H1) as (v2 & Hv & Hfiles).
  rewrite Hv in H2. injection H2 as <- <-. now split.
Qed.

(** ** Filter, run after run *)

Lemma recent_defined (tz : Z -> Z) (cutoff : Z) (r : JobRecord) :
  Spec.recent tz cutoff r = true -> Spec.recency_defined tz r.
Proof.
  unfold Spec.recent, Spec.recency_defined.
  destruct (parse_datetime (date_posted r)) as [[dt|]|e]; try discriminate.
  destruct (Clock.timestamp tz dt) as [ts|e]; [|discriminate].
  intros _. now exists ts.
Qed.

Lemma filter_jobs_unfold (env : Env) (records : list JobRecord)
    (titles : list string) (out : list JobRecord) :
  filter_jobs env records titles = Ok out ->
  exists cutoff,
    cutoff_float env = Ok cutoff
    /\ out = filter (Spec.keeps (utcoffset env) cutoff titles) records.
Proof.
  unfold filter_jobs. destruct (cutoff_float env) as [cutoff|e]; [|discriminate].
  cbn [bind]. intro H. exists cutoff. split; [reflexivity|].
  now apply filter_loop_sound in H.
Qed.

(** X7: with the same clock and the same titles, filtering what Filter
    returned returns it again: nothing more is dropped and nothing
    raises. *)
Theorem filter_jobs_idempotent (env : Env) (records : list JobRecord)
    (titles : list string) (out : list JobRecord) :
  filter_jobs env records titles = Ok out ->
  filter_jobs env out titles = Ok out.
Proof.
  intro H. apply filter_jobs_unfold in H as [cutoff [Hc ->]].
  unfold filter_jobs. rewrite Hc. cbn [bind].
  rewrite filter_loop_total.
  - cbn [app]. f_equal. induction records as [|r records IH]; [reflexivity|].
    cbn. destruct (Spec.keeps _ _ _ r) eqn:E; [|exact IH].
    cbn. now rewrite E, IH.
  - intros r Hr. apply filter_In in Hr as [_ Hr].
    unfold Spec.keeps in Hr. apply andb_true_iff in Hr as [_ Hr].
    now apply recent_defined in Hr.
Qed.

Lemma contains_empty (s : string) : Str.contains "" s = true.
Proof. destruct s; reflexivity. Qed.

Lemma title_matches_empty (text : string) (lowered : list string) :
  In "" lowered -> title_matches text lowered = true.
Proof.
  intro H. unfold title_matches. apply existsb_exists. exists "".
  split; [exact H|apply contains_empty].
Qed.

(** X8: an empty string among the titles matches every title: the call
    behaves, errors included, as the call without any title. *)
Theorem filter_jobs_empty_title (env : Env) (records : list JobRecord)
    (titles : list string) :
  In "" titles ->
  filter_jobs env records titles = filter_jobs env records [].
Proof.
  intro H. unfold filter_jobs. destruct (cutoff_float env) as [cutoff|e];
    [|reflexivity].
  cbn [bind map].
  assert (In "" (map Str.lower titles)) as Hl.
  { apply in_map_iff. exists "". now split. }
  generalize (@nil JobRecord) as filtered.
  induction records as [|r records IH]; intro filtered; [reflexivity|].
  cbn [filter_loop]. rewrite (title_matches_empty _ _ Hl).
  cbn [negb andb is_nil]. rewrite andb_false_r.
  destruct (parse_datetime (date_posted r)) as [[dt|]|e]; cbn [bind];
    [|apply IH|reflexivity].
  destruct (Clock.timestamp (utcoffset env) dt) as [ts|e]; cbn [bind];
    [|reflexivity].
  destruct (F64.ltb ts cutoff); apply IH.
Qed.

(** X9: on a machine whose local time is a fixed offset from UTC, at any
    clock from 1970-01-04 to the end of 2105 (below [2^32] seconds less two
    days), the cutoff of Filter is, to the microsecond, the current time
    minus 24 hours minus that offset, and of records whose dates carry no
    fraction of a second Filter keeps exactly those that pass the title
    test and are not older than this cutoff, in their order: the floats of
    the computation decide as the integers would (24 hours before now where
    the offset is zero, more than that east of UTC). *)
Theorem filter_jobs_fixed_offset (now off : Z)
    (feed : string -> result (list JobRecord))
    (records : list JobRecord) (titles : list string) :
  -86400 <= off <= 86400 ->
  3 * 86400 <= now / 1000000 -> now / 1000000 + 2 * 86400 < 2 ^ 32 ->
  (forall r, In r records -> Facts.whole_second_date (fun _ => off) r) ->
  let cutoff := now - 24 * 60 * 60 * 1000000 - off * 1000000 in
  cutoff_of (mk_Env now (fun _ => off) feed) = Ok cutoff
  /\ filter_jobs (mk_Env now (fun _ => off) feed) records titles
     = Ok (filter (fun r => Spec.title_ok titles r
                            && Facts.not_older (fun _ => off) cutoff r)
                  records).
Proof.
  intros Hoff Hlow Hhigh Hw cutoff. split.
  - now apply cutoff_of_fixed_offset.
  - now apply filter_jobs_fixed.
Qed.

(** ** The Date Normalizer at its edges *)

Lemma ord2ymd_late (n : Z) :
  3652059 < n -> 9999 < fst (fst (Calendar.ord2ymd n)).
Proof.
  intro Hn.
  unfold Calendar.ord2ymd, Calendar.DI400Y, Calendar.DI100Y, Calendar.DI4Y.
  cbv zeta.
  destruct (_ || _) eqn:Eedge.
  - cbn [fst]. apply Bool.orb_true_iff in Eedge.
    destruct Eedge as [E|E]; apply Z.eqb_eq in E; revert E; dlia.
  - apply Bool.orb_false_iff in Eedge. destruct Eedge as [E1 E2].
    apply Z.eqb_neq in E1, E2.
    match goal with |- context [if ?c then _ else _] => destruct c end;
      cbn [fst]; revert E1 E2; dlia.
Qed.

(** Past the last second of the year 9999 [utcfromtimestamp] raises. *)
Lemma utcfromtimestamp_late (t : Z) :
  Spec.MAX_EPOCH < t ->
  DT.utcfromtimestamp t = Raised (ValueError "year is out of range").
Proof.
  intro Ht. unfold DT.utcfromtimestamp, DT.gmtime.
  pose proof (ord2ymd_late (t / 86400 + Calendar.EPOCH_ORDINAL)) as Hy.
  destruct (Calendar.ord2ymd _) as [[y m] d]. cbn [fst] in Hy.
  unfold DT.datetime_new, DT.check_date_fields.
  replace (y <=? DT.MAXYEAR) with false; [now rewrite Bool.andb_false_r|].
  symmetry. apply Z.leb_gt. unfold DT.MAXYEAR. apply Hy.
  unfold Spec.MAX_EPOCH, Calendar.EPOCH_ORDINAL in *. dlia.
Qed.

Lemma normalize_date_raises_iff (v : string) :
  (exists e, normalize_date v = Raised e)
  <-> Str.isdigit v = true
      /\ (Spec.decimal_string v = false
          \/ Str.MAX_STR_DIGITS < Str.len v
          \/ Spec.MAX_EPOCH < Spec.decimal_value v).
Proof.
  split.
  - intros [e He]. destruct (Str.isdigit v) eqn:Ed.
    + split; [reflexivity|].
      destruct (Spec.decimal_string v) eqn:Edec; [|now left]. right.
      destruct (Z.le_gt_cases (Str.len v) Str.MAX_STR_DIGITS) as [Hlen|Hlong];
        [|left; lia].
      destruct (Z.le_gt_cases (Spec.decimal_value v) Spec.MAX_EPOCH) as [Hle|Hgt];
        [|right; exact Hgt].
      destruct (normalize_date_epoch v Edec Hlen Hle) as [dt [_ [_ [Hn _]]]].
      congruence.
    + destruct (normalize_date_returns v Ed) as [s Hs]. congruence.
  - intros [Hd Hbad]. unfold normalize_date, parse_datetime.
    assert (Str.is_empty v = false) as ->.
    { unfold Str.isdigit in Hd. now destruct (Str.is_empty v). }
    rewrite Hd, (int_isdigit v Hd).
    destruct (Spec.decimal_string v); [|eexists; reflexivity]. cbn [andb].
    destruct (Z.leb_spec (Str.len v) Str.MAX_STR_DIGITS) as [Hlen|Hlong];
      [|eexists; reflexivity].
    destruct Hbad as [Hbad|[Hbad|Hbad]]; [discriminate|lia|].
    rewrite (utcfromtimestamp_late _ Hbad). eexists; reflexivity.
Qed.

(** X10: [normalize_date] raises on exactly these inputs: the strings that
    pass [isdigit] and hold a digit that is not decimal (a superscript), or
    are longer than the 4300 digits [int] converts, or denote a number of
    seconds past 9999-12-31T23:59:59.  On every other string it returns. *)
Theorem normalize_date_raises_exactly (v : string) :
  (exists e, normalize_date v = Raised e)
  <-> Str.isdigit v = true
      /\ (Spec.decimal_string v = false
          \/ Str.MAX_STR_DIGITS < Str.len v
          \/ Spec.MAX_EPOCH < Spec.decimal_value v).
Proof. apply normalize_date_raises_iff. Qed.

Lemma normalize_date_output (v s : string) :
  normalize_date v = Ok s ->
  s = "" \/ Spec.is_iso_date s = true \/ Spec.is_iso_datetime s = true
  \/ exists dt,
       Spec.valid_datetime dt = true
       /\ Spec.whole_minutes (DT.tzinfo dt) = false
       /\ s = DT.isoformat dt.
Proof.
  intro H. destruct (parse_datetime v) as [[dt|]|e] eqn:Ep.
  - destruct (normalize_date_granularity v dt Ep) as [Hn [Hdt Hd]].
    rewrite Hn in H. injection H as <-.
    destruct (_ || _); [|right; now left].
    destruct (Spec.whole_minutes (DT.tzinfo dt)) eqn:Hmin;
      [right; right; now left|].
    right; right; right. exists dt.
    split; [now apply (parse_datetime_valid v)|now split].
  - unfold normalize_date in H. rewrite Ep in H. cbn in H. left. congruence.
  - unfold normalize_date in H. rewrite Ep in H. discriminate.
Qed.

(** X11: in what Transform returns, the date of every record is the empty
    string, an ISO-8601 calendar date, an ISO-8601 date-time, or, where the
    raw date carried a UTC offset that is not a whole number of minutes,
    the text [isoformat] prints for such a value: a date-time followed by
    an offset with seconds, [+HH:MM:SS], which ISO-8601 does not have. *)
Theorem transform_dates_iso (records cleaned : list JobRecord) (r : JobRecord) :
  transform records = Ok cleaned ->
  In r cleaned ->
  date_posted r = ""
  \/ Spec.is_iso_date (date_posted r) = true
  \/ Spec.is_iso_datetime (date_posted r) = true
  \/ exists dt,
       Spec.valid_datetime dt = true
       /\ Spec.whole_minutes (DT.tzinfo dt) = false
       /\ date_posted r = DT.isoformat dt.
Proof.
  intros H Hin. apply transform_spec in H.
  destruct (Forall2_in_r _ _ _ H r Hin) as [r0 [_ Hr]].
  apply transform_record_date in Hr. now apply normalize_date_output in Hr.
Qed.

(** ** Where a date can end *)

Lemma chars_ok_any (r : Re.re) : Re.chars_ok (fun _ => true) r.
Proof. induction r; cbn; auto. Qed.

Lemma append_empty (a b : string) : a ++ b = "" -> a = "" /\ b = "".
Proof. destruct a; cbn; [auto|discriminate]. Qed.

Section RunEnds.

Import Re Facts.

Variable A : Type.
Variable Q : ascii -> bool.

Lemma ended_app (a b : string) :
  ended Q b -> (b = "" -> ended Q a) -> ended Q (a ++ b).
Proof.
  intros Hb Ha c. rewrite last_char_app.
  destruct (Str.last_char b) as [x|] eqn:E.
  - intro H. apply Hb. congruence.
  - apply Ha. destruct b as [|y b]; [reflexivity|].
    destruct (last_char_some y b) as [z Hz]. congruence.
Qed.

Lemma plus_run_ends (p : ascii -> bool) (s : string) :
  (forall c, p c = true -> Q c = true) ->
  forall acc g (k : cont A) x,
    plus_run A p s acc g k = Some x ->
    exists pre s' acc' g',
      s = pre ++ s' /\ k s' acc' g' = Some x /\ pre <> "" /\ ended Q pre.
Proof.
  intros Hp. induction s as [|c s IH]; intros acc g k x; cbn [plus_run];
    [discriminate|].
  destruct (p c) eqn:Ec; [|discriminate].
  destruct (plus_run A p s (acc ++ String c "") g k) eqn:E.
  - intros H. injection H as ->.
    apply IH in E as (pre & s' & a' & g' & -> & Hk & Hne & Hend).
    exists (String c pre), s', a', g'. repeat split; [exact Hk|discriminate|].
    intros z. rewrite last_char_cons. destruct (Str.last_char pre) eqn:El.
    + intro H. apply Hend. congruence.
    + destruct pre as [|y pre]; [contradiction|].
      destruct (last_char_some y pre) as [u Hu]. congruence.
  - intros H. exists (String c ""), s, (acc ++ String c ""), g.
    repeat split; [exact H|discriminate|].
    intros z Hz. cbn in Hz. injection Hz as <-. now apply Hp.
Qed.

(** A match of an expression that [ends_in Q] went over a text whose last
    character passes [Q], and over one character at least unless the
    expression is nullable. *)
Lemma run_ends (r : re) :
  ends_in Q r = true ->
  forall s acc g (k : cont A) x,
    run A r s acc g k = Some x ->
    exists pre s' acc' g',
      s = pre ++ s' /\ k s' acc' g' = Some x
      /\ (nullable r = false -> pre <> "") /\ ended Q pre.
Proof.
  induction r as [|p|r1 IH1 r2 IH2|r1 IH1 r2 IH2|p|name r1 IH1];
    cbn [ends_in nullable]; intros Hok s acc g k x; cbn [run].
  - intros H. exists "", s, acc, g. repeat split; [exact H|discriminate|].
    intros c Hc. discriminate.
  - destruct s as [|c s]; [discriminate|].
    destruct (p c) eqn:Ec; [|discriminate]. intros H.
    exists (String c ""), s, (acc ++ String c ""), g.
    repeat split; [exact H|discriminate|].
    intros z Hz. cbn in Hz. injection Hz as <-.
    exact (char_implies p Q Hok c Ec).
  - apply andb_true_iff in Hok as [Hok2 Hok1]. intros H.
    destruct (nullable r2) eqn:En2.
    + apply (IH1 Hok1) in H as (pre1 & s1 & a1 & g1 & -> & H & Hn1 & He1).
      apply (IH2 Hok2) in H as (pre2 & s2 & a2 & g2 & -> & H & _ & He2).
      exists (pre1 ++ pre2), s2, a2, g2. rewrite append_assoc.
      repeat split; [exact H| |now apply ended_app].
      rewrite andb_true_r. intros E1 E. apply append_empty in E as [E _].
      now apply Hn1.
    + apply (run_consumes A _ r1 (chars_ok_any r1)) in H
        as (pre1 & s1 & a1 & g1 & -> & _ & H).
      apply (IH2 Hok2) in H as (pre2 & s2 & a2 & g2 & -> & H & Hn2 & He2).
      exists (pre1 ++ pre2), s2, a2, g2. rewrite append_assoc.
      repeat split; [exact H| |].
      * intros _ E. apply append_empty in E as [_ E]. now apply Hn2.
      * apply ended_app; [exact He2|]. intro E. now destruct Hn2.
  - apply andb_true_iff in Hok as [Hok1 Hok2].
    destruct (run A r1 s acc g k) eqn:E.
    + intros H. injection H as ->.
      apply (IH1 Hok1) in E as (pre & s' & a' & g' & -> & H & Hn & He).
      exists pre, s', a', g'. repeat split; [exact H| |exact He].
      intro En. apply orb_false_iff in En as [En _]. now apply Hn.
    + intros H.
      apply (IH2 Hok2) in H as (pre & s' & a' & g' & -> & H & Hn & He).
      exists pre, s', a', g'. repeat split; [exact H| |exact He].
      intro En. apply orb_false_iff in En as [_ En]. now apply Hn.
  - intros H. apply plus_run_ends in H; [|exact (char_implies p Q Hok)].
    destruct H as (pre & s' & a' & g' & -> & H & Hn & He).
    exists pre, s', a', g'. now repeat split.
  - intros H. apply (IH1 Hok) in H as (pre & s1 & a1 & g1 & -> & H & Hn & He).
    eexists pre, s1, _, _. repeat split; [exact H|exact Hn|exact He].
Qed.

End RunEnds.

Lemma closes_date_not_space (c : ascii) :
  Facts.closes_date c = true -> Str.isspace c = false.
Proof. intro H. apply negb_true_iff. revert c H. char_fact. Qed.

(** A text that one of the three formats parses ends with a digit or with
    the letter [Z]. *)
Lemma strptime_last_char (v fmt : string) (dt : DT.datetime) :
  In fmt FORMATS ->
  Strptime.strptime v fmt = Some dt ->
  exists c, Str.last_char v = Some c /\ Facts.closes_date c = true.
Proof.
  intros Hfmt. unfold Strptime.strptime.
  assert (exists r, Strptime.pattern fmt = Some r
                    /\ Facts.ends_in Facts.closes_date r = true
                    /\ Facts.nullable r = false)
    as (r & -> & Hends & Hnull).
  { cbn in Hfmt. destruct Hfmt as [<-|[<-|[<-|[]]]];
      [rewrite pattern_fmt1|rewrite pattern_fmt2|rewrite pattern_fmt3];
      (eexists; split; [reflexivity|split; vm_compute; reflexivity]). }
  unfold Re.match_prefix.
  destruct (Re.run _ r v "" [] _) as [[rest g]|] eqn:Erun; [|discriminate].
  destruct (Str.is_empty rest) eqn:Erest; [|discriminate]. intros _.
  apply (run_ends _ Facts.closes_date r Hends) in Erun
    as (pre & s' & a' & g' & -> & H & Hn & He).
  injection H as -> _. destruct rest; [|discriminate].
  rewrite append_nil_r. specialize (Hn Hnull).
  destruct pre as [|y pre]; [contradiction|].
  destruct (last_char_some y pre) as [c Hc]. exists c. split; [exact Hc|].
  now apply He.
Qed.

Lemma all_chars_last (p : ascii -> bool) (s : string) (c : ascii) :
  Str.all_chars p s = true -> Str.last_char s = Some c -> p c = true.
Proof.
  induction s as [|x s IH]; [discriminate|].
  cbn [Str.all_chars]. intro H. apply andb_true_iff in H as [Hx Hs].
  rewrite last_char_cons. destruct (Str.last_char s) eqn:E.
  - intro H. apply IH; [exact Hs|congruence].
  - intro H. congruence.
Qed.

Lemma isspace_not_isdigit (c : ascii) :
  Str.isspace c = true -> Str.isdigit_char c = false.
Proof. intro H. apply negb_true_iff. revert c H. char_fact. Qed.

(** None of the three formats accepts white space in front. *)
Lemma strptime_leading_space (c : ascii) (rest fmt : string) :
  Str.isspace c = true -> In fmt FORMATS ->
  Strptime.strptime (String c rest) fmt = None.
Proof.
  intros Hc Hfmt.
  destruct c as [[] [] [] [] [] [] [] []]; try discriminate Hc;
    cbn in Hfmt;
    destruct Hfmt as [<-|[<-|[<-|[]]]]; vm_compute; reflexivity.
Qed.

Lemma try_formats_none (v : string) (fmts : list string) :
  (forall fmt, In fmt fmts -> Strptime.strptime v fmt = None) ->
  try_formats v fmts = None.
Proof.
  induction fmts as [|fmt fmts IH]; intro H; [reflexivity|].
  cbn. rewrite (H fmt (or_introl eq_refl)). apply IH.
  intros f Hf. apply H. now right.
Qed.

(** X12: the date is parsed as it comes, without trimming: a date with
    white space at its start or at its end is not parsed, and
    [normalize_date] returns the empty string for it. *)
Theorem normalize_date_outer_whitespace (v : string) :
  Spec.no_outer_whitespace v = false -> normalize_date v = Ok "".
Proof.
  unfold Spec.no_outer_whitespace. intro H.
  destruct (Str.first_char v) as [a|] eqn:Ea; [|discriminate].
  destruct (Str.last_char v) as [b|] eqn:Eb; [|discriminate].
  destruct v as [|x v]; [discriminate|]. cbn in Ea. injection Ea as ->.
  unfold normalize_date, parse_datetime. cbn [Str.is_empty].
  assert (Str.isdigit (String a v) = false) as ->.
  { apply not_true_is_false. unfold Str.isdigit. cbn [Str.is_empty negb andb].
    intro Hall. apply andb_false_iff in H.
    destruct H as [H|H]; apply negb_false_iff in H.
    - cbn in Hall. now rewrite (isspace_not_isdigit a H) in Hall.
    - pose proof (all_chars_last _ _ _ Hall Eb) as Hb.
      now rewrite (isspace_not_isdigit b H) in Hb. }
  rewrite try_formats_none; [reflexivity|].
  intros fmt Hfmt. apply andb_false_iff in H.
  destruct H as [H|H]; apply negb_false_iff in H.
  - now apply strptime_leading_space.
  - destruct (Strptime.strptime (String a v) fmt) as [dt|] eqn:E; [|reflexivity].
    destruct (strptime_last_char _ _ _ Hfmt E) as [c [Hc Hq]].
    apply closes_date_not_space in Hq. congruence.
Qed.

(** X29: a date-time without a UTC offset, in the form
    [YYYY-MM-DDTHH:MM:SS], is not parsed by any of the three formats:
    [parse_datetime] returns [None] and [normalize_date] the empty string,
    so that Filter drops the record. *)
Theorem normalize_date_without_offset (y m d hh mm ss : Z) :
  DT.check_date_fields y m d = true ->
  DT.check_time_fields hh mm ss 0 = true ->
  parse_datetime (Spec.naive_string y m d hh mm ss) = Ok None
  /\ normalize_date (Spec.naive_string y m d hh mm ss) = Ok ""
  /\ forall env records titles out r,
       date_posted r = Spec.naive_string y m d hh mm ss ->
       filter_jobs env records titles = Ok out -> ~ In r out.
Proof.
  intros Hd Ht. pose proof (parse_datetime_naive y m d hh mm ss Hd Ht) as Hp.
  split; [exact Hp|]. split.
  - unfold normalize_date. now rewrite Hp.
  - intros env records titles out r Hr Hf.
    apply (filter_jobs_drops_unparsed env records titles out r Hf).
    now rewrite Hr.
Qed.

(** ** Transform as a whole *)

(** X13: on records whose dates do not pass [isdigit], Transform is
    idempotent: transforming its result returns the result. *)
Theorem transform_idempotent (records cleaned : list JobRecord) :
  (forall r, In r records -> Str.isdigit (date_posted r) = false) ->
  transform records = Ok cleaned ->
  transform cleaned = Ok cleaned.
Proof. apply transform_idempotent_off_epoch. Qed.

(** X14: Transform returns one record for each record it was given, in the
    same order and under the same key: [source] and [source_id] are never
    changed. *)
Theorem transform_keeps_keys (records cleaned : list JobRecord) :
  transform records = Ok cleaned ->
  map Spec.key cleaned = map Spec.key records.
Proof.
  intro H. apply transform_spec in H.
  induction H as [|r r' records cleaned Hr _ IH]; [reflexivity|].
  cbn [map]. rewrite IH. f_equal.
  unfold transform_record in Hr.
  destruct (normalize_date (date_posted r)); [|discriminate].
  cbn in Hr. now injection Hr as <-.
Qed.

Lemma transform_loop_raises (records : list JobRecord) :
  forall acc,
    (exists e, transform_loop records acc = Raised e)
    <-> exists r,
          In r records /\ exists e, normalize_date (date_posted r) = Raised e.
Proof.
  induction records as [|r records IH]; intro acc; cbn [transform_loop].
  - split; [intros [e He]; discriminate|intros [r [[] _]]].
  - unfold transform_record.
    destruct (normalize_date (date_posted r)) as [s|e] eqn:En; cbn [bind].
    + rewrite IH. split.
      * intros [r' [Hin He]]. exists r'. split; [now right|exact He].
      * intros [r' [[<-|Hin] [e He]]]; [congruence|].
        exists r'. split; [exact Hin|now exists e].
    + split; [|intros _; now exists e].
      intros _. exists r. split; [now left|now exists e].
Qed.

(** X15: Transform is all or nothing.  On records whose fields are
    strings it raises, and returns no record at all, exactly when the date
    of one record at least passes [isdigit] and holds a digit that is not
    decimal, or is longer than the 4300 digits [int] converts, or denotes a
    time past the year 9999. *)
Theorem transform_raises_exactly (records : list JobRecord) :
  (exists e, transform records = Raised e)
  <-> exists r,
        In r records
        /\ Str.isdigit (date_posted r) = true
        /\ (Spec.decimal_string (date_posted r) = false
            \/ Str.MAX_STR_DIGITS < Str.len (date_posted r)
            \/ Spec.MAX_EPOCH < Spec.decimal_value (date_posted r)).
Proof.
  unfold transform. rewrite transform_loop_raises.
  split; intros [r [Hin H]]; exists r; (split; [exact Hin|]);
    now apply normalize_date_raises_iff.
Qed.

(** ** Splitting and joining *)

Section Split.

Variable sep : ascii.

Lemma split_cons (c : ascii) (s : string) :
  Ascii.eqb c sep = false ->
  exists first more,
    Text.split sep s = first :: more
    /\ Text.split sep (String c s) = String c first :: more.
Proof.
  intro Hc. cbn [Text.split]. rewrite Hc.
  destruct (Text.split sep s) as [|first more] eqn:E.
  - destruct s; cbn in E; [discriminate|].
    destruct (Ascii.eqb a sep); [discriminate|].
    destruct (Text.split sep s); discriminate.
  - now exists first, more.
Qed.

Lemma split_lacks (s : string) :
  Forall (fun piece => Text.lacks sep piece = true) (Text.split sep s).
Proof.
  induction s as [|c s IH]; [now repeat constructor|].
  destruct (Ascii.eqb c sep) eqn:Ec.
  - cbn [Text.split]. rewrite Ec. now constructor.
  - destruct (split_cons c s Ec) as [first [more [E ->]]]. rewrite E in IH.
    inversion IH as [|? ? Hf Hm]; subst. constructor; [|exact Hm].
    unfold Text.lacks in *. cbn [Str.all_chars]. now rewrite Ec, Hf.
Qed.

Lemma split_not_nil (s : string) : Text.split sep s <> [].
Proof.
  destruct s as [|c s]; [discriminate|]. cbn [Text.split].
  destruct (Ascii.eqb c sep); [discriminate|].
  destruct (Text.split sep s); discriminate.
Qed.

Lemma join_cons (glue part : string) (rest : list string) :
  rest <> [] ->
  Text.join glue (part :: rest) = part ++ glue ++ Text.join glue rest.
Proof. destruct rest; [contradiction|reflexivity]. Qed.

Lemma join_split (s : string) :
  Text.join (String sep "") (Text.split sep s) = s.
Proof.
  induction s as [|c s IH]; [reflexivity|].
  destruct (Ascii.eqb c sep) eqn:Ec.
  - cbn [Text.split]. rewrite Ec. apply Ascii.eqb_eq in Ec. subst c.
    rewrite join_cons, IH; [reflexivity|apply split_not_nil].
  - destruct (split_cons c s Ec) as [first [more [E ->]]]. rewrite E in IH.
    destruct more as [|next more]; [cbn in *; now rewrite IH|].
    rewrite join_cons in *; try discriminate. now rewrite <- IH.
Qed.

Lemma split_whole (s : string) :
  Text.lacks sep s = true -> Text.split sep s = [s].
Proof.
  induction s as [|c s IH]; [reflexivity|].
  unfold Text.lacks. cbn [Str.all_chars]. intro H.
  apply andb_true_iff in H as [Hc Hs]. apply negb_true_iff in Hc.
  cbn [Text.split]. rewrite Hc, (IH Hs). reflexivity.
Qed.

Lemma split_app (piece rest : string) :
  Text.lacks sep piece = true ->
  Text.split sep (piece ++ String sep rest) = piece :: Text.split sep rest.
Proof.
  induction piece as [|c piece IH].
  - intros _. cbn. now rewrite Ascii.eqb_refl.
  - unfold Text.lacks. cbn [Str.all_chars]. intro H.
    apply andb_true_iff in H as [Hc Hs]. apply negb_true_iff in Hc.
    cbn [append Text.split]. rewrite Hc, (IH Hs). reflexivity.
Qed.

Lemma split_join (parts : list string) :
  parts <> [] ->
  Forall (fun piece => Text.lacks sep piece = true) parts ->
  Text.split sep (Text.join (String sep "") parts) = parts.
Proof.
  induction parts as [|part rest IH]; [contradiction|].
  intros _ H. inversion H as [|? ? Hp Hr]; subst.
  destruct rest as [|next rest].
  - cbn. now apply split_whole.
  - change (Text.join (String sep "") (part :: next :: rest))
      with (part ++ String sep (Text.join (String sep "") (next :: rest))).
    rewrite (split_app _ _ Hp), IH; [reflexivity|discriminate|exact Hr].
Qed.

End Split.

Lemma rsplit1_spec (sep : ascii) (s : string) :
  (Text.rsplit1 sep s = [s] /\ Text.lacks sep s = true)
  \/ exists head tail,
       Text.rsplit1 sep s = [head; tail]
       /\ s = head ++ String sep tail /\ Text.lacks sep tail = true.
Proof.
  induction s as [|c s IH]; [now left|].
  cbn [Text.rsplit1]. destruct IH as [[E Hs]|[head [tail [E [-> Ht]]]]].
  - rewrite E. destruct (Ascii.eqb c sep) eqn:Ec.
    + right. exists "", s. apply Ascii.eqb_eq in Ec. subst c. now repeat split.
    + left. split; [reflexivity|].
      unfold Text.lacks in *. cbn [Str.all_chars]. now rewrite Ec, Hs.
  - rewrite E. right. exists (String c head), tail. now repeat split.
Qed.

Lemma lstrip_keeps (p : ascii -> bool) (s : string) :
  Str.all_chars p s = true -> Str.all_chars p (Str.lstrip s) = true.
Proof.
  induction s as [|c s IH]; [reflexivity|].
  cbn [Str.lstrip]. destruct (Str.isspace c); [|auto].
  cbn [Str.all_chars]. intro H. apply andb_true_iff in H as [_ H]. auto.
Qed.

Lemma rstrip_keeps (p : ascii -> bool) (s : string) :
  Str.all_chars p s = true -> Str.all_chars p (Str.rstrip s) = true.
Proof.
  induction s as [|c s IH]; [reflexivity|].
  cbn [Str.rstrip Str.all_chars]. intro H. apply andb_true_iff in H as [Hc Hs].
  destruct (Str.isspace c && Str.is_empty (Str.rstrip s)); [reflexivity|].
  cbn [Str.all_chars]. now rewrite Hc, IH.
Qed.

Lemma strip_keeps (p : ascii -> bool) (s : string) :
  Str.all_chars p s = true -> Str.all_chars p (Str.strip s) = true.
Proof. intro H. unfold Str.strip. now apply rstrip_keeps, lstrip_keeps. Qed.

Lemma rstrip_empty (s : string) :
  Str.rstrip s = "" <-> Str.all_chars Str.isspace s = true.
Proof.
  induction s as [|c s IH]; [now split|].
  cbn [Str.rstrip Str.all_chars].
  destruct (Str.isspace c) eqn:Ec; cbn [andb].
  - destruct (Str.rstrip s) eqn:E; cbn [Str.is_empty].
    + split; [intros _; now apply IH|reflexivity].
    + split; [discriminate|]. intro H. apply IH in H. discriminate.
  - split; discriminate.
Qed.

Lemma strip_empty (s : string) :
  Str.strip s = "" <-> Str.all_chars Str.isspace s = true.
Proof.
  unfold Str.strip. rewrite rstrip_empty.
  induction s as [|c s IH]; [now split|].
  cbn [Str.lstrip Str.all_chars]. destruct (Str.isspace c) eqn:Ec; cbn [andb].
  - exact IH.
  - cbn [Str.all_chars]. rewrite Ec. now split.
Qed.

Lemma is_empty_spec (s : string) : Str.is_empty s = true <-> s = "".
Proof. destruct s; cbn; split; congruence. Qed.

Lemma blank_split (s : string) :
  Forall (fun piece => Str.all_chars Str.isspace piece = true) (Text.split "," s)
  <-> Cli.blank s = true.
Proof.
  unfold Cli.blank. induction s as [|c s IH]; [split; now repeat constructor|].
  cbn [Str.all_chars]. destruct (Ascii.eqb c ",") eqn:Ec.
  - cbn [Text.split]. rewrite Ec, orb_true_r. cbn [andb]. rewrite <- IH.
    split; intro H; [now inversion H|now constructor].
  - destruct (split_cons "," c s Ec) as [first [more [E ->]]].
    rewrite E in IH. rewrite orb_false_r, andb_true_iff, <- IH. split.
    + intro H. inversion H as [|? ? Hf Hm]; subst. cbn [Str.all_chars] in Hf.
      apply andb_true_iff in Hf as [Hc Hf]. split; [exact Hc|now constructor].
    + intros [Hc H]. inversion H as [|? ? Hf Hm]; subst.
      constructor; [|exact Hm]. cbn [Str.all_chars]. now rewrite Hc, Hf.
Qed.

Lemma names_nil (text : string) :
  Cli.names text = [] <-> Cli.blank text = true.
Proof.
  rewrite <- blank_split. unfold Cli.names.
  generalize (Text.split "," text) as pieces.
  induction pieces as [|piece pieces IH]; [split; now constructor|].
  cbn [filter]. destruct (Str.is_empty (Str.strip piece)) eqn:E; cbn [negb map].
  - apply is_empty_spec, strip_empty in E. rewrite IH.
    split; intro H; [now constructor|now inversion H].
  - split; [discriminate|]. intro H. inversion H as [|? ? Hp _]; subst.
    apply strip_empty in Hp. now rewrite Hp in E.
Qed.

Lemma names_clean (text : string) :
  Forall (fun name => Cli.clean_name name = true) (Cli.names text).
Proof.
  unfold Cli.names. pose proof (split_lacks "," text) as H.
  induction H as [|piece pieces Hp _ IH]; [constructor|].
  cbn [filter]. destruct (Str.is_empty (Str.strip piece)) eqn:E; cbn [negb map];
    [exact IH|].
  constructor; [|exact IH]. unfold Cli.clean_name. rewrite E, strip_clean.
  unfold Text.lacks in *. now rewrite strip_keeps.
Qed.

Lemma names_join (parts : list string) :
  Forall (fun name => Cli.clean_name name = true) parts ->
  Cli.names (Text.join "," parts) = parts.
Proof.
  intro H. unfold Cli.names. destruct parts as [|part rest]; [reflexivity|].
  rewrite split_join; [|discriminate|].
  - induction H as [|name names Hn _ IH]; [reflexivity|].
    unfold Cli.clean_name in Hn.
    apply andb_true_iff in Hn as [Hn Hw]. apply andb_true_iff in Hn as [He _].
    cbn [filter]. rewrite (strip_fixed _ Hw), He. cbn [map].
    now rewrite (strip_fixed _ Hw), IH.
  - eapply Forall_impl; [|exact H]. intros name Hn. unfold Cli.clean_name in Hn.
    apply andb_true_iff in Hn as [Hn _]. now apply andb_true_iff in Hn as [_ Hn].
Qed.

(** ** The command line *)

(** X16: [main] gives up, with status 1, one line on the standard error
    stream and nothing else done, exactly when the text of [--sources]
    holds nothing but commas and white space.  Otherwise it is the run of
    [run_etl] on the names of the two lists, and every name it hands on is
    clean: not empty, without a comma, without white space at either
    end. *)
Theorem main_dispatch (env : Env) (w : World) (args : Cli.Namespace) :
  (Cli.blank (Cli.sources args) = true ->
   main env w args = Cli.mk_Run w ["No sources provided"] (Ok 1))
  /\ (Cli.blank (Cli.sources args) = false ->
      let sources := Cli.names (Cli.sources args) in
      let titles := Cli.names (Cli.titles args) in
      let ran :=
        run_etl env w sources (Cli.output args) (Cli.format args) titles in
      sources <> []
      /\ Forall (fun name => Cli.clean_name name = true) sources
      /\ Forall (fun name => Cli.clean_name name = true) titles
      /\ main env w args = Cli.mk_Run (fst ran) [] (snd ran)).
Proof.
  split; intro H; unfold main.
  - apply names_nil in H. now rewrite H.
  - cbv zeta. assert (Cli.names (Cli.sources args) <> []) as Hne.
    { intro E. apply names_nil in E. congruence. }
    split; [exact Hne|]. split; [apply names_clean|].
    split; [apply names_clean|].
    destruct (Cli.names (Cli.sources args)); [contradiction|].
    cbn [is_nil]. now destruct (run_etl _ _ _ _ _ _).
Qed.

(** X17: a list of clean names, joined with commas, is read back by [main]
    as the same list; the default of [--sources], built this way from the
    registry, selects the registered portals in the order of the
    registry. *)
Theorem names_of_joined (parts : list string) :
  Forall (fun name => Cli.clean_name name = true) parts ->
  Cli.names (Text.join "," parts) = parts.
Proof. apply names_join. Qed.

Lemma parse_args_format (given : Cli.Given) (args : Cli.Namespace) :
  Cli.parse_args given = Some args ->
  Spec.supported_format (Cli.format args) = true.
Proof.
  unfold Cli.parse_args. destruct (Cli.given_format given) as [fmt|].
  - destruct (existsb _ _) eqn:E; [|discriminate]. intro H.
    injection H as <-. cbn [Cli.format].
    unfold Cli.choices in E. cbn [existsb] in E. unfold Spec.supported_format.
    destruct (String.eqb fmt "sqlite"), (String.eqb fmt "csv"),
      (String.eqb fmt "jsonl"); try reflexivity; discriminate.
  - intro H. injection H as <-. reflexivity.
Qed.

Lemma starts_with_app (p s : string) : Str.starts_with p (p ++ s) = true.
Proof.
  induction p as [|c p IH]; [reflexivity|].
  cbn [append Str.starts_with]. now rewrite Ascii.eqb_refl.
Qed.

Lemma unsupported_is_configuration_error (fmt : string) :
  Spec.is_configuration_error
    (@Raised Z (ValueError ("Unsupported format: " ++ fmt))) = true.
Proof.
  unfold Spec.is_configuration_error.
  rewrite (starts_with_app "Unsupported format: " fmt). apply orb_true_r.
Qed.

(** X18: every format that the parser accepts is one that [run_etl] has a
    sink for: once the arguments are parsed and a source is named, a run
    whose three stages succeed calls the sink of the format, and ends with
    0 when the sink returns and with the error of the sink when it raises;
    the error for an unsupported format is out of reach of the command
    line. *)
Theorem main_accepted_format (env : Env) (w w1 : World) (given : Cli.Given)
    (args : Cli.Namespace) (records cleaned filtered : list JobRecord) :
  Cli.parse_args given = Some args ->
  Cli.names (Cli.sources args) <> [] ->
  extract_loop env (Cli.names (Cli.sources args)) [] w = (w1, Ok records) ->
  transform records = Ok cleaned ->
  filter_jobs env cleaned (Cli.names (Cli.titles args)) = Ok filtered ->
  Spec.supported_format (Cli.format args) = true
  /\ (exists sink,
        Facts.sink_of (Cli.format args) (Cli.output args) filtered = Some sink
        /\ In sink (events (Cli.world (main env w args)))
        /\ Cli.returned (main env w args)
           = match snd (Facts.load (Cli.format args) filtered (Cli.output args)
                          (log sink w1)) with
             | Ok _ => Ok 0
             | Raised e => Raised e
             end)
  /\ Cli.returned (main env w args)
     <> Raised (ValueError ("Unsupported format: " ++ Cli.format args)).
Proof.
  intros Hparse Hne Hx Ht Hf. pose proof (parse_args_format _ _ Hparse) as Hfmt.
  split; [exact Hfmt|]. unfold main.
  destruct (Cli.names (Cli.sources args)) as [|n ns] eqn:En; [contradiction|].
  cbn [is_nil]. rewrite (run_etl_stages _ _ _ _ _ _ _ _ _ _ Hx Ht Hf).
  destruct (Facts.sink_of (Cli.format args) (Cli.output args) filtered)
    as [sink|] eqn:Es.
  - destruct (load_outcome (Cli.format args) filtered (Cli.output args)
                (log sink w1)) as [[w2 [E Hev]] | [e [E Hno]]];
      rewrite E; cbn [snd Cli.returned Cli.world].
    + split; [|discriminate]. exists sink. split; [reflexivity|].
      rewrite E. split; [|reflexivity]. cbn [log events]. rewrite Hev.
      cbn [log events]. apply in_or_app. left. apply in_or_app. right. now left.
    + split.
      * exists sink. split; [reflexivity|]. rewrite E. split; [|reflexivity].
        cbn [log events]. apply in_or_app. right. now left.
      * intros [= Heq]. rewrite Heq in Hno.
        exact (eq_true_false_abs _
                 (unsupported_is_configuration_error (Cli.format args)) Hno).
  - exfalso. unfold Facts.sink_of, Spec.supported_format in *.
    destruct (String.eqb (Cli.format args) "csv"); [discriminate|].
    destruct (String.eqb (Cli.format args) "jsonl"); [discriminate|].
    destruct (String.eqb (Cli.format args) "sqlite"); discriminate.
Qed.

(** ** The RSS adapter *)

Lemma text_of_strip (parent : Xml.Element) (name : string) :
  text_of parent name
  = match Xml.find parent name with
    | Some element =>
        match Xml.text element with
        | Some text => Str.strip text
        | None => ""
        end
    | None => ""
    end.
Proof.
  unfold text_of. destruct (Xml.find parent name) as [element|]; [|reflexivity].
  destruct (Xml.text element) as [text|]; [|reflexivity].
  now destruct text.
Qed.

Lemma text_of_clean (parent : Xml.Element) (name : string) :
  Spec.no_outer_whitespace (text_of parent name) = true.
Proof.
  rewrite text_of_strip. destruct (Xml.find parent name) as [element|];
    [|reflexivity].
  destruct (Xml.text element); [apply strip_clean|reflexivity].
Qed.

Lemma find_first {A : Type} (p : A -> bool) (pre : list A) (x : A)
    (post : list A) :
  (forall y, In y pre -> p y = false) -> p x = true ->
  List.find p (pre ++ x :: post) = Some x.
Proof.
  intros Hpre Hx. induction pre as [|y pre IH]; cbn.
  - now rewrite Hx.
  - rewrite (Hpre y (or_introl eq_refl)). apply IH.
    intros z Hz. apply Hpre. now right.
Qed.

Lemma find_nowhere {A : Type} (p : A -> bool) (l : list A) :
  (forall y, In y l -> p y = false) -> List.find p l = None.
Proof.
  intro H. induction l as [|y l IH]; [reflexivity|].
  cbn. rewrite (H y (or_introl eq_refl)). apply IH.
  intros z Hz. apply H. now right.
Qed.

(** X19: [text_of] never raises and returns a text without white space at
    either end: the stripped text of the first child with the tag, and the
    empty string where no child has the tag or that first child has no
    text.  Later children with the same tag are not read. *)
Theorem text_of_first_child (parent : Xml.Element) (name : string) :
  Spec.no_outer_whitespace (text_of parent name) = true
  /\ ((forall child, In child (Xml.children parent) -> Xml.tag child <> name) ->
      text_of parent name = "")
  /\ (forall pre child post,
        Xml.children parent = (pre ++ child :: post)%list ->
        (forall other, In other pre -> Xml.tag other <> name) ->
        Xml.tag child = name ->
        text_of parent name
        = match Xml.text child with
          | Some text => Str.strip text
          | None => ""
          end).
Proof.
  split; [apply text_of_clean|]. split.
  - intro H. rewrite text_of_strip. unfold Xml.find.
    rewrite find_nowhere; [reflexivity|].
    intros y Hy. apply String.eqb_neq. now apply H.
  - intros pre child post E Hpre Hc. rewrite text_of_strip. unfold Xml.find.
    rewrite E, (find_first _ pre child post); [reflexivity| |].
    + intros y Hy. apply String.eqb_neq. now apply Hpre.
    + now apply String.eqb_eq.
Qed.

Lemma extract_record (root : Xml.Element) (r : JobRecord) :
  In r (WeWorkRemotelyPortal_extract root) ->
  exists item, r = WeWorkRemotelyPortal_record item.
Proof.
  unfold WeWorkRemotelyPortal_extract. intro H. apply in_map_iff in H.
  destruct H as [item [<- _]]. now exists item.
Qed.

(** X20: every record of the RSS adapter has the source [weworkremotely];
    its [source_id] holds no slash and is the end of its [url]: the whole
    of it when the link has no slash, what follows the last slash
    otherwise. *)
Theorem weworkremotely_source_id (root : Xml.Element) (r : JobRecord) :
  In r (WeWorkRemotelyPortal_extract root) ->
  source r = "weworkremotely"
  /\ Text.lacks "/" (source_id r) = true
  /\ (url r = source_id r \/ exists head, url r = head ++ "/" ++ source_id r).
Proof.
  intro H. apply extract_record in H as [item ->].
  unfold WeWorkRemotelyPortal_record. cbn [source source_id url].
  split; [reflexivity|].
  destruct (rsplit1_spec "/" (text_of item "link"))
    as [[E Hl]|[head [tail [E [Hs Hl]]]]]; rewrite E; cbn [last].
  - split; [exact Hl|now left].
  - split; [exact Hl|]. right. exists head. exact Hs.
Qed.

(** X21: Transform changes nothing but the date in a record of the RSS
    adapter, whose texts are stripped at extraction: the result is the
    record with its date normalised, and Transform raises on it only if
    [normalize_date] does. *)
Theorem weworkremotely_transform (root : Xml.Element) (r : JobRecord) :
  In r (WeWorkRemotelyPortal_extract root) ->
  transform_record r
  = (date <- normalize_date (date_posted r) ;; Ok (Facts.with_date r date)).
Proof.
  intro H. apply extract_record in H as [item ->].
  unfold transform_record, Facts.with_date, WeWorkRemotelyPortal_record.
  cbn [source source_id title company location url tags date_posted salary
       description].
  rewrite !(strip_fixed _ (text_of_clean item _)). reflexivity.
Qed.

(** ** The JSON-lines sink *)

Lemma all_chars_join (p : ascii -> bool) (glue : string) (parts : list string) :
  Str.all_chars p glue = true ->
  Forall (fun part => Str.all_chars p part = true) parts ->
  Str.all_chars p (Text.join glue parts) = true.
Proof.
  intros Hg H. induction H as [|part rest Hp Hr IH]; [reflexivity|].
  destruct rest as [|next rest]; [exact Hp|].
  rewrite join_cons; [|discriminate]. now rewrite !all_chars_app, Hp, Hg, IH.
Qed.

Lemma escape_plain (c : ascii) :
  Str.all_chars JsonText.plain (JsonText.escape c) = true.
Proof. destruct c as [[] [] [] [] [] [] [] []]; vm_compute; reflexivity. Qed.

Lemma escape_all_plain (s : string) :
  Str.all_chars JsonText.plain (JsonText.escape_all s) = true.
Proof.
  induction s as [|c s IH]; [reflexivity|].
  cbn [JsonText.escape_all]. now rewrite all_chars_app, escape_plain, IH.
Qed.

Lemma encode_plain (s : string) :
  Str.all_chars JsonText.plain (JsonText.encode s) = true.
Proof.
  unfold JsonText.encode. cbn [Str.all_chars].
  now rewrite all_chars_app, escape_all_plain.
Qed.

Lemma dumps_dict_plain (keys values : list string) :
  Str.all_chars JsonText.plain (JsonText.dumps_dict keys values) = true.
Proof.
  unfold JsonText.dumps_dict. cbn [append Str.all_chars].
  rewrite all_chars_app, all_chars_join; [reflexivity|reflexivity|].
  apply Forall_map, Forall_forall. intros kv _. unfold JsonText.item.
  now rewrite !all_chars_app, !encode_plain.
Qed.

Lemma plain_not_LF (c : ascii) :
  JsonText.plain c = true -> negb (Ascii.eqb c Text.LF) = true.
Proof. revert c. char_fact. Qed.

Lemma concat_cons (x : string) (l : list string) :
  String.concat "" (x :: l) = x ++ String.concat "" l.
Proof. destruct l; cbn; [now rewrite append_nil_r|reflexivity]. Qed.

Lemma load_to_jsonl_cons (r : JobRecord) (records : list JobRecord) :
  load_to_jsonl (r :: records)
  = JsonText.dumps r ++ String Text.LF (load_to_jsonl records).
Proof.
  unfold load_to_jsonl. cbn [map]. now rewrite concat_cons, append_assoc.
Qed.

(** X22: [load_to_jsonl] writes one line for each record: no line holds a
    character below U+0020, so that cutting the text at its line feeds
    gives back the dumps of the records, in order, and the empty text
    after the last line feed. *)
Theorem load_to_jsonl_lines (records : list JobRecord) :
  Forall (fun line => Str.all_chars JsonText.plain line = true)
         (map JsonText.dumps records)
  /\ Text.split Text.LF (load_to_jsonl records)
     = (map JsonText.dumps records ++ [""])%list.
Proof.
  split.
  - apply Forall_map, Forall_forall. intros r _. apply dumps_dict_plain.
  - induction records as [|r records IH]; [reflexivity|].
    rewrite load_to_jsonl_cons, split_app, IH; [reflexivity|].
    apply (all_chars_impl JsonText.plain); [apply plain_not_LF|].
    apply dumps_dict_plain.
Qed.

Lemma read_escape (c : ascii) (tail : string) :
  Reader.read_string (JsonText.escape c ++ tail)
  = Reader.push (Some c) (Reader.read_string tail).
Proof. destruct c as [[] [] [] [] [] [] [] []]; reflexivity. Qed.

Lemma read_escape_all (s tail : string) :
  Reader.read_string (JsonText.escape_all s ++ String Text.quote tail)
  = Some (s, tail).
Proof.
  induction s as [|c s IH]; [reflexivity|].
  cbn [JsonText.escape_all]. now rewrite append_assoc, read_escape, IH.
Qed.

Lemma read_encode (s tail : string) :
  Spec.expect Text.quote (JsonText.encode s ++ tail)
  = Some (JsonText.escape_all s ++ String Text.quote tail).
Proof.
  unfold JsonText.encode. cbn [append Spec.expect].
  rewrite Ascii.eqb_refl, append_assoc. reflexivity.
Qed.

Lemma read_items_cons (key : string) (more : list string) (s : string) :
  Reader.read_items (key :: more) s
  = match Spec.expect Text.quote s with
    | Some s1 =>
        match Reader.read_string s1 with
        | Some k =>
            if String.eqb (fst k) key then
              match Reader.skip ": " (snd k) with
              | Some s2 =>
                  match Spec.expect Text.quote s2 with
                  | Some s3 =>
                      match Reader.read_string s3 with
                      | Some v =>
                          match more with
                          | [] => Some ([fst v], snd v)
                          | _ :: _ =>
                              match Reader.skip ", " (snd v) with
                              | Some s4 =>
                                  match Reader.read_items more s4 with
                                  | Some vs => Some (fst v :: fst vs, snd vs)
                                  | None => None
                                  end
                              | None => None
                              end
                          end
                      | None => None
                      end
                  | None => None
                  end
              | None => None
              end
            else None
        | None => None
        end
    | None => None
    end.
Proof. reflexivity. Qed.

Lemma skip_literal (literal tail : string) :
  Reader.skip literal (literal ++ tail) = Some tail.
Proof.
  unfold Reader.skip.
  assert (Str.starts_with literal (literal ++ tail) = true) as ->.
  { apply starts_with_spec. now exists tail. }
  f_equal. induction literal as [|c literal IH]; [reflexivity|exact IH].
Qed.

Lemma read_value (value tail : string) :
  match Spec.expect Text.quote (JsonText.encode value ++ tail) with
  | Some s => Reader.read_string s
  | None => None
  end = Some (value, tail).
Proof. now rewrite read_encode, read_escape_all. Qed.

Lemma read_items_step (key : string) (more : list string)
    (value tail : string) :
  Reader.read_items (key :: more) (JsonText.item key value ++ tail)
  = match more with
    | [] => Some ([value], tail)
    | _ :: _ =>
        match Reader.skip ", " tail with
        | Some s4 =>
            match Reader.read_items more s4 with
            | Some vs => Some (value :: fst vs, snd vs)
            | None => None
            end
        | None => None
        end
    end.
Proof.
  rewrite read_items_cons. unfold JsonText.item.
  rewrite !append_assoc, read_encode, read_escape_all.
  cbn [fst snd]. rewrite String.eqb_refl, skip_literal.
  rewrite read_encode, read_escape_all. reflexivity.
Qed.

Lemma read_items_dumped (keys : list string) :
  forall values tail,
    List.length values = List.length keys ->
    Reader.read_items keys
      (Text.join ", " (map (fun kv => JsonText.item (fst kv) (snd kv))
                           (combine keys values)) ++ tail)
    = Some (values, tail).
Proof.
  induction keys as [|key keys IH]; intros values tail Hlen.
  - destruct values; [reflexivity|discriminate].
  - destruct values as [|value values]; [discriminate|].
    injection Hlen as Hlen. destruct keys as [|key2 keys].
    + destruct values; [|discriminate]. cbn [combine map Text.join fst snd].
      apply read_items_step.
    + destruct values as [|value2 values]; [discriminate|].
      specialize (IH (value2 :: values) tail Hlen).
      cbn [combine map] in *. rewrite join_cons; [|discriminate].
      cbn [fst snd] in *.
      rewrite !append_assoc, read_items_step, skip_literal, IH.
      reflexivity.
Qed.

(** X23: no field is lost or altered in a line of [load_to_jsonl]: read
    back as a JSON object of strings, the line gives the record it was
    written from, whatever characters its fields hold. *)
Theorem loads_dumps (r : JobRecord) : Reader.loads (JsonText.dumps r) = Some r.
Proof.
  unfold Reader.loads, JsonText.dumps, JsonText.dumps_dict.
  cbn [append Spec.expect]. rewrite Ascii.eqb_refl.
  rewrite read_items_dumped; [|reflexivity].
  cbn. now destruct r.
Qed.

(** ** The JSON adapters *)

Lemma digits_of_decimal (fuel : nat) :
  forall n acc,
    Str.all_chars Str.isdecimal acc = true ->
    Str.all_chars Str.isdecimal (Text.digits_of fuel n acc) = true.
Proof.
  induction fuel as [|fuel IH]; intros n acc Hacc; [exact Hacc|].
  cbn [Text.digits_of].
  assert (Str.all_chars Str.isdecimal
            (String (Str.digit_char (n mod 10)) acc) = true) as H.
  { cbn [Str.all_chars]. now rewrite digit_char_mod_decimal. }
  destruct (n <? 10); [exact H|now apply IH].
Qed.

Lemma digits_of_not_empty (fuel : nat) :
  forall n acc,
    Str.is_empty acc = false -> Str.is_empty (Text.digits_of fuel n acc) = false.
Proof.
  induction fuel as [|fuel IH]; intros n acc Hacc; [exact Hacc|].
  cbn [Text.digits_of]. destruct (n <? 10); [reflexivity|now apply IH].
Qed.

Lemma decimal_value_from_weight (s : string) :
  forall acc,
    Spec.decimal_value_from acc s
    = acc * 10 ^ Z.of_nat (String.length s) + Spec.decimal_value_from 0 s.
Proof.
  induction s as [|c s IH]; intro acc.
  - cbn. lia.
  - cbn [Spec.decimal_value_from String.length].
    rewrite (IH (10 * acc + Str.digit_val c)), (IH (10 * 0 + Str.digit_val c)).
    rewrite Nat2Z.inj_succ, Z.pow_succ_r by lia. ring.
Qed.

Lemma digits_of_value (fuel : nat) :
  forall n acc,
    0 <= n < 2 ^ Z.of_nat fuel ->
    Spec.decimal_value_from 0 (Text.digits_of fuel n acc)
    = n * 10 ^ Z.of_nat (String.length acc) + Spec.decimal_value_from 0 acc.
Proof.
  induction fuel as [|fuel IH]; intros n acc Hn.
  - cbn in Hn. assert (n = 0) as -> by lia. cbn [Text.digits_of]. lia.
  - cbn [Text.digits_of].
    assert (Spec.decimal_value_from 0 (String (Str.digit_char (n mod 10)) acc)
            = n mod 10 * 10 ^ Z.of_nat (String.length acc)
              + Spec.decimal_value_from 0 acc) as Hd.
    { cbn [Spec.decimal_value_from]. rewrite decimal_value_from_weight.
      rewrite digit_val_digit_char by dlia. ring. }
    destruct (n <? 10) eqn:E.
    + apply Z.ltb_lt in E. rewrite Hd. rewrite Z.mod_small by lia. reflexivity.
    + apply Z.ltb_ge in E. rewrite IH.
      * rewrite Hd. cbn [String.length].
        rewrite Nat2Z.inj_succ, Z.pow_succ_r by lia.
        rewrite (Z.div_mod n 10) at 3 by lia. ring.
      * rewrite Nat2Z.inj_succ, Z.pow_succ_r in Hn by lia. dlia.
Qed.

Lemma of_int_decimal (n : Z) :
  0 <= n ->
  Spec.decimal_string (Text.of_int n) = true
  /\ Spec.decimal_value (Text.of_int n) = n.
Proof.
  intro Hn. unfold Text.of_int. rewrite (proj2 (Z.ltb_ge n 0) Hn).
  unfold Spec.decimal_string, Spec.decimal_value. split.
  - rewrite digits_of_decimal by reflexivity.
    rewrite Nat.add_1_r. cbn [Text.digits_of].
    destruct (n <? 10); [reflexivity|]. now rewrite digits_of_not_empty.
  - rewrite digits_of_value; [cbn; lia|].
    rewrite Nat2Z.inj_add, Z2Nat.id by apply Z.log2_nonneg.
    destruct (Z.eq_dec n 0) as [->|Hz]; [cbn; lia|].
    pose proof (Z.log2_spec n). change (Z.of_nat 1) with 1.
    replace (Z.log2 n + 1) with (Z.succ (Z.log2 n)) by lia. lia.
Qed.

Lemma digits_of_length (fuel : nat) :
  forall n acc,
    (String.length (Text.digits_of fuel n acc) <= fuel + String.length acc)%nat.
Proof.
  induction fuel as [|fuel IH]; intros n acc; [apply Nat.le_refl|].
  cbn [Text.digits_of]. destruct (n <? 10).
  - cbn [String.length]. lia.
  - specialize (IH (n / 10) (String (Str.digit_char (n mod 10)) acc)).
    cbn [String.length] in IH. lia.
Qed.

(** A number of seconds that [datetime] can hold prints in far fewer
    digits than [int] converts. *)
Lemma of_int_short (n : Z) :
  0 <= n <= Spec.MAX_EPOCH -> Str.len (Text.of_int n) <= Str.MAX_STR_DIGITS.
Proof.
  intros [Hn Hmax]. unfold Text.of_int. rewrite (proj2 (Z.ltb_ge n 0) Hn).
  unfold Str.len, Str.MAX_STR_DIGITS.
  pose proof (digits_of_length (Z.to_nat (Z.log2 n) + 1) n "") as H.
  cbn [String.length] in H.
  pose proof (Z.log2_le_mono n Spec.MAX_EPOCH Hmax) as Hlog.
  change (Z.log2 Spec.MAX_EPOCH) with 37 in Hlog.
  pose proof (Z.log2_nonneg n). lia.
Qed.

Section AdapterFacts.

Import Json.

Context {F : Type}.
Variable py : Builtins F.




Lemma remoteok_loop_skips (jobs : list (value F)) :
  forall records,
    RemoteOkPortal_loop py jobs records
    = RemoteOkPortal_loop py (filter is_listing jobs) records.
Proof.
  induction jobs as [|job jobs IH]; intro records; [reflexivity|].
  cbn [RemoteOkPortal_loop filter]. destruct (is_listing job) eqn:E; cbn [negb].
  - cbn [RemoteOkPortal_loop]. rewrite E. cbn [negb].
    destruct (RemoteOkPortal_record py job); cbn [and_then]; [apply IH|reflexivity].
  - apply IH.
Qed.

Lemma remoteok_loop_length (jobs : list (value F)) :
  forall records out,
    RemoteOkPortal_loop py jobs records = Got out ->
    List.length out
    = (List.length records + List.length (filter is_listing jobs))%nat.
Proof.
  induction jobs as [|job jobs IH]; intros records out;
    cbn [RemoteOkPortal_loop filter].
  - intro H. injection H as <-. cbn. lia.
  - destruct (is_listing job); cbn [negb]; [|apply IH].
    destruct (RemoteOkPortal_record py job) as [record|e]; cbn [and_then];
      [|discriminate].
    intro H. apply IH in H. rewrite H, length_app. cbn. lia.
Qed.

(** X25: the RemoteOK adapter skips the entries that are not objects or
    have no [id]: they change neither the records nor the errors, and a
    successful extraction has one record for each entry that is an object
    with an [id]. *)
Theorem remoteok_extract_skips (jobs : list (value F)) :
  RemoteOkPortal_extract py (Array jobs)
  = RemoteOkPortal_extract py (Array (filter is_listing jobs))
  /\ (forall records,
        RemoteOkPortal_extract py (Array jobs) = Got records ->
        List.length records = List.length (filter is_listing jobs)).
Proof.
  unfold RemoteOkPortal_extract. cbn [iter and_then]. split.
  - apply remoteok_loop_skips.
  - intros records H. now apply remoteok_loop_length in H.
Qed.

Lemma remoteok_loop_texts (texts : list string) :
  forall records,
    RemoteOkPortal_loop py (map Text texts) records = Got records.
Proof.
  induction texts as [|t texts IH]; intro records; [reflexivity|].
  cbn [map RemoteOkPortal_loop is_listing negb]. apply IH.
Qed.

(** X26: a RemoteOK payload that is not a list is not rejected as such: an
    object or a string is iterated, every key or character is skipped and
    the adapter returns no record; [null], a boolean or a number raises
    [TypeError]. *)
Theorem remoteok_extract_not_a_list :
  (forall fields, RemoteOkPortal_extract py (Object fields) = Got [])
  /\ (forall s, RemoteOkPortal_extract py (Text s) = Got [])
  /\ (forall payload,
        iter payload = Threw TypeError ->
        RemoteOkPortal_extract py payload = Threw TypeError).
Proof.
  unfold RemoteOkPortal_extract. split; [|split].
  - intro fields. cbn [iter and_then]. rewrite <- (map_map fst Text).
    apply remoteok_loop_texts.
  - intro s. cbn [iter and_then]. apply remoteok_loop_texts.
  - intros payload H. now rewrite H.
Qed.

(** X27: a RemoteOK entry whose [date_epoch] is an integer between 0 and
    the last second of the year 9999 gets that integer, in decimal digits,
    as its date ([date_epoch] wins over [date]); Transform turns it into a
    date-time without offset, which [parse_datetime] does not read, so
    that no call of Filter ever keeps the record. *)
Theorem remoteok_epoch_listing (fields : list (string * value F)) (n : Z)
    (l : LooseRecord F) (r : JobRecord) :
  lookup "date_epoch" fields = Some (Int n) ->
  0 <= n <= Spec.MAX_EPOCH ->
  RemoteOkPortal_record py (Object fields) = Got l ->
  to_record l = Some r ->
  date_posted r = Text.of_int n
  /\ exists r',
       transform_record r = Ok r'
       /\ parse_datetime (date_posted r') = Ok None
       /\ forall env records titles out,
            filter_jobs env records titles = Ok out -> ~ In r' out.
Proof.
  intros Hepoch Hn Hl Hr.
  assert (date_posted r = Text.of_int n) as Hdate.
  { unfold RemoteOkPortal_record in Hl. cbn [get and_then] in Hl.
    destruct (join ", " _) as [tags|e]; cbn [and_then] in Hl; [|discriminate].
    rewrite Hepoch in Hl.
    destruct (truth py _); cbn [and_then] in Hl; injection Hl as <-;
      unfold to_record in Hr; cbn in Hr;
      repeat match type of Hr with
             | match as_text ?v with _ => _ end = _ => destruct (as_text v)
             end; try discriminate; now injection Hr as <-. }
  split; [exact Hdate|].
  destruct (of_int_decimal n (proj1 Hn)) as [Hdec Hval].
  destruct (normalize_date_epoch (date_posted r)) as [dt [_ [_ [Hnorm _]]]];
    [now rewrite Hdate|rewrite Hdate; now apply of_int_short
    |rewrite Hdate, Hval; apply Hn|].
  unfold transform_record. rewrite Hnorm. cbn [bind].
  eexists. split; [reflexivity|]. cbn [date_posted].
  assert (parse_datetime (DT.isoformat dt) = Ok None) as Hp.
  { apply (normalize_date_isdigit_reparse (date_posted r)); [|exact Hnorm].
    apply decimal_string_isdigit. now rewrite Hdate. }
  split; [exact Hp|].
  intros env records titles out Hf.
  now apply (filter_jobs_drops_unparsed env records titles out).
Qed.

End AdapterFacts.

(** ** The CSV sink *)

Lemma read_plain_written (v : string) (c : ascii) (rest : string) :
  Str.all_chars (fun x => negb (CsvText.special x)) v = true ->
  CsvReader.ends_field c = true ->
  CsvReader.read_plain (v ++ String c rest) = (v, String c rest).
Proof.
  intros Hv Hc. induction v as [|x v IH].
  - cbn [append CsvReader.read_plain]. unfold CsvReader.ends_field in Hc.
    destruct (Ascii.eqb c ","), (Ascii.eqb c Text.CR); try discriminate;
      reflexivity.
  - cbn [Str.all_chars] in Hv. apply andb_true_iff in Hv as [Hx Hv].
    cbn [append CsvReader.read_plain]. rewrite (IH Hv).
    unfold CsvText.special in Hx.
    destruct (Ascii.eqb x ","), (Ascii.eqb x Text.quote), (Ascii.eqb x Text.CR),
      (Ascii.eqb x Text.LF); try discriminate; reflexivity.
Qed.

Lemma ends_field_not_quote (c : ascii) :
  CsvReader.ends_field c = true -> Ascii.eqb c Text.quote = false.
Proof. intro H. apply negb_true_iff. revert c H. char_fact. Qed.

Lemma read_quoted_written (v : string) (c : ascii) (rest : string) :
  Ascii.eqb c Text.quote = false ->
  CsvReader.read_quoted (CsvText.doubled v ++ String Text.quote (String c rest))
  = Some (v, String c rest).
Proof.
  intro Hc. induction v as [|x v IH].
  - cbn [CsvText.doubled append CsvReader.read_quoted].
    rewrite Ascii.eqb_refl, Hc. reflexivity.
  - cbn [CsvText.doubled]. destruct (Ascii.eqb x Text.quote) eqn:Ex.
    + apply Ascii.eqb_eq in Ex. subst x.
      cbn [append CsvReader.read_quoted]. rewrite Ascii.eqb_refl, IH.
      reflexivity.
    + cbn [append CsvReader.read_quoted]. rewrite Ex, IH. reflexivity.
Qed.

Lemma read_field_written (v : string) (c : ascii) (rest : string) :
  CsvReader.ends_field c = true ->
  CsvReader.read_field (CsvText.field v ++ String c rest)
  = Some (v, String c rest).
Proof.
  intro Hc. pose proof (ends_field_not_quote c Hc) as Hq.
  unfold CsvText.field, CsvReader.read_field.
  destruct (Str.all_chars _ v) eqn:Ev.
  - rewrite (read_plain_written v c rest Ev Hc).
    destruct v as [|x v]; cbn [append Spec.starts].
    + now rewrite Hq.
    + cbn [Str.all_chars] in Ev. apply andb_true_iff in Ev as [Ex _].
      unfold CsvText.special in Ex.
      destruct (Ascii.eqb x Text.quote); [|reflexivity].
      rewrite orb_true_r in Ex. discriminate.
  - cbn [append Spec.starts Str.drop]. rewrite Ascii.eqb_refl.
    rewrite append_assoc. cbn [append]. now apply read_quoted_written.
Qed.

Lemma read_row_joined (fields : list string) :
  fields <> [] ->
  forall tail,
    CsvReader.read_row (List.length fields)
      (Text.join "," (map CsvText.field fields) ++ CsvText.line_end ++ tail)
    = Some (fields, tail).
Proof.
  induction fields as [|v fields IH]; [contradiction|]. intros _ tail.
  destruct fields as [|v2 fields].
  - cbn [map Text.join List.length CsvReader.read_row].
    unfold CsvText.line_end at 1. cbn [append].
    rewrite read_field_written by reflexivity. cbn [fst snd].
    change (String Text.CR (String Text.LF tail))
      with (CsvText.line_end ++ tail).
    now rewrite skip_literal.
  - specialize (IH ltac:(discriminate) tail).
    cbn [map] in *. rewrite join_cons by discriminate.
    rewrite !append_assoc. cbn [append].
    change (List.length (v :: v2 :: fields))
      with (S (List.length (v2 :: fields))).
    remember (List.length (v2 :: fields)) as width eqn:Ew.
    cbn [CsvReader.read_row]. rewrite read_field_written by reflexivity.
    cbn [fst snd Spec.expect]. rewrite Ascii.eqb_refl.
    rewrite <- append_assoc in IH. rewrite append_assoc in IH.
    destruct width; [discriminate|]. now rewrite IH.
Qed.

(** A row is read back whatever follows it. *)
Lemma read_row_written (fields : list string) (tail : string) :
  fields <> [] ->
  CsvReader.read_row (List.length fields) (CsvText.row fields ++ tail)
  = Some (fields, tail).
Proof.
  intro Hne. unfold CsvText.row.
  destruct (negb (is_nil fields)
            && Str.is_empty (Text.join "," (map CsvText.field fields))) eqn:E.
  - apply andb_true_iff in E as [_ E]. apply is_empty_spec in E.
    destruct fields as [|v fields]; [contradiction|].
    destruct fields as [|v2 fields].
    + cbn [map Text.join] in E. unfold CsvText.field in E.
      destruct (Str.all_chars _ v); [subst v; reflexivity|discriminate].
    + cbn [map] in E. rewrite join_cons in E by discriminate.
      apply append_empty in E as [_ E]. discriminate.
  - rewrite append_assoc. now apply read_row_joined.
Qed.

Lemma length_append (a b : string) :
  String.length (a ++ b) = (String.length a + String.length b)%nat.
Proof. induction a as [|c a IH]; [reflexivity|]. cbn. now rewrite IH. Qed.

Lemma row_not_empty (fields : list string) (tail : string) :
  Str.is_empty (CsvText.row fields ++ tail) = false
  /\ (1 <= String.length (CsvText.row fields))%nat.
Proof.
  unfold CsvText.row.
  destruct (negb (is_nil fields) && _); [split; [reflexivity|cbn; lia]|].
  generalize (Text.join "," (map CsvText.field fields)) as joined.
  intro joined. rewrite length_append. split; [|cbn; lia].
  destruct joined; reflexivity.
Qed.

Lemma read_rows_written (width : nat) (rows : list (list string)) :
  Forall (fun fields => List.length fields = width) rows ->
  width <> O ->
  forall fuel,
    (List.length rows <= fuel)%nat ->
    CsvReader.read_rows fuel width (String.concat "" (map CsvText.row rows))
    = Some rows.
Proof.
  intros Hrows Hw. induction Hrows as [|fields rows Hf _ IH]; intros fuel Hfuel.
  - destruct fuel; reflexivity.
  - cbn [map]. rewrite concat_cons.
    destruct fuel as [|fuel]; [cbn in Hfuel; lia|].
    cbn [CsvReader.read_rows].
    rewrite (proj1 (row_not_empty fields _)).
    rewrite <- Hf at 1. rewrite read_row_written.
    + cbn [fst snd]. rewrite IH; [reflexivity|cbn in Hfuel; lia].
    + intro E. subst fields. now apply Hw.
Qed.

Lemma concat_rows_length (rows : list (list string)) :
  (List.length rows
   <= String.length (String.concat "" (map CsvText.row rows)))%nat.
Proof.
  induction rows as [|fields rows IH]; [cbn; lia|].
  cbn [map]. rewrite concat_cons, length_append. cbn [List.length].
  pose proof (proj2 (row_not_empty fields "")). lia.
Qed.

(** X28: a reader of comma-separated rows gets back from the text of
    [load_to_csv] the header, that is the ten field names in the order of
    the dataclass, and then the ten fields of each record, in order and
    unaltered, commas, quotes and line breaks included. *)
Theorem read_file_written (records : list JobRecord) :
  CsvReader.read_file (load_to_csv records)
  = Some (field_names :: map field_values records).
Proof.
  unfold CsvReader.read_file, load_to_csv.
  rewrite <- (map_map field_values CsvText.row), <- concat_cons.
  change (CsvText.row field_names :: map CsvText.row (map field_values records))
    with (map CsvText.row (field_names :: map field_values records)).
  apply read_rows_written; [|discriminate|apply concat_rows_length].
  constructor; [reflexivity|]. apply Forall_map, Forall_forall.
  intros r _. reflexivity.
Qed.


(** ** The claims at concrete inputs *)

(** C1 fails as stated: with a registered name before an unknown one, the
    adapter of the first has been called when the error is raised. *)
Lemma run_etl_extracts_before_failing :
  ~ (forall env w selected output fmt titles,
       existsb (fun n => negb (Spec.registered n)) selected
       || negb (Spec.supported_format fmt) = true ->
       Spec.is_configuration_error
         (snd (run_etl env w selected output fmt titles)) = true
       /\ Spec.extractions (events (fst (run_etl env w selected output fmt titles)))
          = Spec.extractions (events w)).
Proof.
  intros H.
  destruct (H (mk_Env Sample.noon_2024_06_02 Sample.utc Sample.no_feed)
              empty_world ["remotive"; "nosuch"] "jobs.csv" "csv" [] eq_refl)
    as [_ Hx].
  vm_compute in Hx. discriminate.
Qed.

Lemma run_etl_configuration_errors_witness :
  let env := mk_Env Sample.noon_2024_06_02 Sample.utc Sample.no_feed in
  run_etl env empty_world ["remotive"; "nosuch"; "remoteok"] "jobs.csv" "csv" []
  = (Spec.logged empty_world ["remotive"],
     Raised (ValueError "Unknown portal: nosuch"))
  /\ run_etl env empty_world ["remotive"; "remoteok"] "jobs.xml" "xml" []
     = (Spec.logged empty_world ["remotive"; "remoteok"],
        Raised (ValueError "Unsupported format: xml"))
  /\ (files (fst (run_etl env empty_world ["remotive"; "remoteok"]
                    "jobs.xml" "xml" []))
      = files empty_world
      /\ filter Spec.is_write
           (events (fst (run_etl env empty_world ["remotive"; "remoteok"]
                           "jobs.xml" "xml" [])))
         = filter Spec.is_write (events empty_world)).
Proof.
  intros env. split; [|split].
  - destruct (run_etl_configuration_errors env empty_world
                ["remotive"; "nosuch"; "remoteok"] "jobs.csv" "csv" [])
      as (H & _ & _).
    apply (H ["remotive"] "nosuch" ["remoteok"]).
    + reflexivity.
    + intros n [<- | []]. split; [reflexivity | now exists []].
    + reflexivity.
  - destruct (run_etl_configuration_errors env empty_world
                ["remotive"; "remoteok"] "jobs.xml" "xml" [])
      as (_ & H & _).
    destruct (H (Spec.logged empty_world ["remotive"; "remoteok"]) [] [] [])
      as [_ Hr].
    + reflexivity.
    + reflexivity.
    + reflexivity.
    + vm_compute. reflexivity.
    + intros n [<- | [<- | []]]; (split; [reflexivity | now exists []]).
    + exact Hr.
  - destruct (run_etl_configuration_errors env empty_world
                ["remotive"; "remoteok"] "jobs.xml" "xml" [])
      as (_ & _ & H).
    apply (H (fst (run_etl env empty_world ["remotive"; "remoteok"]
                     "jobs.xml" "xml" []))
             "Unsupported format: xml").
    + vm_compute. reflexivity.
    + reflexivity.
Defined.

Lemma normalize_date_epoch_and_granularity_witness :
  (exists s,
     normalize_date "1700000000" = Ok s
     /\ Spec.iso_datetime s = Some (1700000000 * 1000000, None))
  /\ (normalize_date "Wed, 02 Oct 2024 15:00:00 +0000"
      = Ok "2024-10-02T15:00:00+00:00"
      /\ Spec.is_iso_datetime "2024-10-02T15:00:00+00:00" = true)
  /\ normalize_date "2024-06-01" = Ok "2024-06-01".
Proof.
  destruct normalize_date_epoch_and_granularity as [He Hg].
  split; [|split].
  - apply (He "1700000000");
      [reflexivity | vm_compute; discriminate | vm_compute; discriminate].
  - destruct (Hg "Wed, 02 Oct 2024 15:00:00 +0000"
                 (DT.mk_datetime 2024 10 2 15 0 0 0 (Some 0))) as [H _].
    + vm_compute. reflexivity.
    + destruct H as [H Hiso]; [reflexivity | split; [exact H | exact Hiso]].
  - destruct (Hg "2024-06-01" (DT.mk_datetime 2024 6 1 0 0 0 0 None)) as [_ H].
    + vm_compute. reflexivity.
    + destruct H as [H _]; [reflexivity | exact H].
Defined.

Lemma normalize_date_plain_date_witness :
  normalize_date "2024-02-29" = Ok "2024-02-29".
Proof.
  apply (normalize_date_plain_date "2024-02-29" 2024 2 29); reflexivity.
Defined.

Lemma transform_strips_fields_witness :
  let r := Sample.job "remotive" "7" " Senior Engineer " "2024-06-01T10:00:00+0000" in
  let r' := Sample.job "remotive" "7" "Senior Engineer" "2024-06-01T10:00:00+00:00" in
  transform [r] = Ok [r']
  /\ Forall (fun s => Spec.no_outer_whitespace s = true) (Spec.cleaned_fields r').
Proof.
  intros r r'.
  assert (Ht : transform [r] = Ok [r']) by (vm_compute; reflexivity).
  split; [exact Ht|].
  destruct (transform_strips_fields [r] [r'] Ht r') as [H _]; [now left | exact H].
Defined.


Lemma epoch_dated_records_are_dropped_witness :
  let env := mk_Env Sample.noon_2024_06_02 Sample.utc Sample.no_feed in
  let r := Sample.job "remoteok" "1" "Dev" "1717326000" in
  let cleaned := [Sample.job "remoteok" "1" "Dev" "2024-06-02T11:00:00"] in
  (exists r', transform_record r = Ok r')
  /\ transform [r] = Ok cleaned
  /\ filter_jobs env cleaned [] = Ok []
  /\ (exists r', transform_record r = Ok r' /\ In r' cleaned /\ ~ In r' [])
  /\ parse_datetime "2024-06-02T11:00:00" = Ok None.
Proof.
  intros env r cleaned.
  destruct epoch_dated_records_are_dropped as (Htotal & Hdrop & Hwhy).
  assert (Ht : transform [r] = Ok cleaned) by (vm_compute; reflexivity).
  assert (Hf : filter_jobs env cleaned [] = Ok []) by (vm_compute; reflexivity).
  split; [|split; [exact Ht | split; [exact Hf | split]]].
  - apply Htotal;
      [reflexivity | vm_compute; discriminate | vm_compute; discriminate].
  - apply (Hdrop env [r] [] cleaned [] r Ht Hf); [now left | reflexivity].
  - apply (Hwhy "1717326000" "2024-06-02T11:00:00"); [reflexivity|].
    vm_compute. reflexivity.
Defined.

(** ** The further properties at concrete inputs *)

Lemma run_etl_success_trace_witness :
  let ran := run_etl Demo.env empty_world ["remotive"; "remoteok"] "jobs.csv"
                     "csv" ["engineer"] in
  snd ran = Ok 0
  /\ (0 = 0
      /\ exists parts cleaned filtered sink,
           Facts.fetched Demo.env ["remotive"; "remoteok"] parts
           /\ transform (List.concat parts) = Ok cleaned
           /\ filter_jobs Demo.env cleaned ["engineer"] = Ok filtered
           /\ Facts.sink_of "csv" "jobs.csv" filtered = Some sink
           /\ events (fst ran)
              = (events empty_world ++ map Extract ["remotive"; "remoteok"]
                 ++ [sink; Print (List.length filtered) "jobs.csv"])%list).
Proof.
  intro ran. split; [vm_compute; reflexivity|].
  apply (run_etl_success_trace Demo.env empty_world ["remotive"; "remoteok"]
           "jobs.csv" "csv" ["engineer"] (fst ran) 0).
  vm_compute. reflexivity.
Defined.

Lemma run_etl_fetch_failure_witness :
  let env := mk_Env Sample.noon_2024_06_02 Sample.utc Demo.feed_broken in
  run_etl env empty_world (["remotive"] ++ "remoteok" :: ["weworkremotely"])
          "jobs.sqlite3" "sqlite" []
  = (Spec.logged empty_world (["remotive"] ++ ["remoteok"]),
     Raised (FetchError "https://remoteok.com/api")).
Proof.
  intro env.
  apply (run_etl_fetch_failure env empty_world ["remotive"] "remoteok"
           ["weworkremotely"] "jobs.sqlite3" "sqlite" []).
  - intros n [<-|[]]. split; [reflexivity|now exists []].
  - reflexivity.
  - reflexivity.
Defined.


Lemma run_etl_sqlite_rerun_witness :
  let first := run_etl Demo.env Demo.world ["remotive"] "jobs.sqlite3"
                       "sqlite" [] in
  let second := run_etl Demo.env (fst first) ["remotive"] "jobs.sqlite3"
                        "sqlite" [] in
  snd first = Ok 0
  /\ files (fst first) "jobs.sqlite3" = Database [Demo.analyst; Demo.engineer]
  /\ snd second = Ok 0
  /\ (0 = 0 /\ forall path, files (fst second) path = files (fst first) path).
Proof.
  intros first second. split; [vm_compute; reflexivity|].
  split; [vm_compute; reflexivity|]. split; [vm_compute; reflexivity|].
  apply (run_etl_sqlite_rerun Demo.env Demo.world ["remotive"] "jobs.sqlite3"
           [] (fst first) (fst second) 0 0).
  - vm_compute. reflexivity.
  - vm_compute. reflexivity.
Defined.

Lemma filter_jobs_idempotent_witness :
  filter_jobs Demo.env [Demo.engineer; Demo.analyst] ["engineer"]
  = Ok [Demo.engineer]
  /\ filter_jobs Demo.env [Demo.engineer] ["engineer"] = Ok [Demo.engineer].
Proof.
  assert (filter_jobs Demo.env [Demo.engineer; Demo.analyst] ["engineer"]
          = Ok [Demo.engineer]) as H by (vm_compute; reflexivity).
  split; [exact H|].
  exact (filter_jobs_idempotent Demo.env [Demo.engineer; Demo.analyst]
           ["engineer"] [Demo.engineer] H).
Defined.

Lemma filter_jobs_empty_title_witness :
  filter_jobs Demo.env [Demo.engineer; Demo.analyst] ["manager"; ""]
  = filter_jobs Demo.env [Demo.engineer; Demo.analyst] []
  /\ filter_jobs Demo.env [Demo.engineer; Demo.analyst] []
     = Ok [Demo.engineer; Demo.analyst].
Proof.
  split; [|vm_compute; reflexivity].
  apply (filter_jobs_empty_title Demo.env [Demo.engineer; Demo.analyst]
           ["manager"; ""]).
  right. now left.
Defined.

Lemma filter_jobs_fixed_offset_witness :
  let env := mk_Env Sample.noon_2024_06_02 Sample.utc_plus_2 Sample.no_feed in
  let old := Sample.job "remotive" "9" "Engineer" "2024-06-01T11:00:00+00:00" in
  let older := Sample.job "remotive" "5" "Engineer" "2024-06-01T09:59:59+00:00" in
  let cutoff := Sample.noon_2024_06_02 - 24 * 60 * 60 * 1000000
                - 7200 * 1000000 in
  cutoff_of env = Ok cutoff
  /\ filter_jobs env [old; older; Demo.engineer] []
     = Ok (filter (fun r => Spec.title_ok [] r
                            && Facts.not_older (fun _ => 7200) cutoff r)
                  [old; older; Demo.engineer])
  /\ filter (fun r => Spec.title_ok [] r
                      && Facts.not_older (fun _ => 7200) cutoff r)
            [old; older; Demo.engineer]
     = [old; Demo.engineer].
Proof.
  intros env old older cutoff.
  destruct (filter_jobs_fixed_offset Sample.noon_2024_06_02 7200 Sample.no_feed
              [old; older; Demo.engineer] []) as [Hc Hf].
  - lia.
  - vm_compute. discriminate.
  - vm_compute. reflexivity.
  - intros r [<-|[<-|[<-|[]]]]; (split; [reflexivity|eexists; reflexivity]).
  - split; [exact Hc|]. split; [exact Hf|]. vm_compute. reflexivity.
Defined.

Lemma transform_dates_iso_witness :
  let raw := Sample.job "weworkremotely" "x" "Dev" "Sat, 01 Jun 2024 10:00:00 +0000" in
  let clean := Sample.job "weworkremotely" "x" "Dev" "2024-06-01T10:00:00+00:00" in
  transform [raw] = Ok [clean]
  /\ Spec.is_iso_datetime (date_posted clean) = true
  /\ (date_posted clean = ""
      \/ Spec.is_iso_date (date_posted clean) = true
      \/ Spec.is_iso_datetime (date_posted clean) = true
      \/ exists dt,
           Spec.valid_datetime dt = true
           /\ Spec.whole_minutes (DT.tzinfo dt) = false
           /\ date_posted clean = DT.isoformat dt).
Proof.
  intros raw clean.
  assert (transform [raw] = Ok [clean]) as H by (vm_compute; reflexivity).
  split; [exact H|]. split; [vm_compute; reflexivity|].
  apply (transform_dates_iso [raw] [clean] clean H). now left.
Defined.

Lemma normalize_date_outer_whitespace_witness :
  normalize_date "2024-06-01" = Ok "2024-06-01"
  /\ normalize_date " 2024-06-01" = Ok ""
  /\ normalize_date ("2024-06-01T10:00:00+00:00" ++ String Text.LF "") = Ok "".
Proof.
  split; [vm_compute; reflexivity|]. split.
  - apply (normalize_date_outer_whitespace " 2024-06-01"). reflexivity.
  - apply (normalize_date_outer_whitespace
             ("2024-06-01T10:00:00+00:00" ++ String Text.LF "")).
    vm_compute. reflexivity.
Defined.

Lemma transform_idempotent_witness :
  let raw := Sample.job "remotive" "7" " Dev " "2024-06-01T10:00:00+0000" in
  let clean := Sample.job "remotive" "7" "Dev" "2024-06-01T10:00:00+00:00" in
  transform [raw] = Ok [clean] /\ transform [clean] = Ok [clean].
Proof.
  intros raw clean.
  assert (transform [raw] = Ok [clean]) as H by (vm_compute; reflexivity).
  split; [exact H|].
  apply (transform_idempotent [raw] [clean]); [|exact H].
  intros r [<-|[]]. reflexivity.
Defined.

Lemma transform_keeps_keys_witness :
  let raw := Sample.job " remotive " " 7 " " Dev " "2024-06-01" in
  let clean := Sample.job " remotive " " 7 " "Dev" "2024-06-01" in
  transform [raw] = Ok [clean]
  /\ map Spec.key [clean] = map Spec.key [raw].
Proof.
  intros raw clean.
  assert (transform [raw] = Ok [clean]) as H by (vm_compute; reflexivity).
  split; [exact H|]. exact (transform_keeps_keys [raw] [clean] H).
Defined.

Lemma main_dispatch_witness :
  main Demo.env empty_world (Cli.mk_Namespace " , ," "" "jobs.csv" "csv")
  = Cli.mk_Run empty_world ["No sources provided"] (Ok 1)
  /\ Cli.names (Cli.sources Demo.args) = ["remotive"; "remoteok"]
  /\ main Demo.env empty_world Demo.args
     = Cli.mk_Run
         (fst (run_etl Demo.env empty_world ["remotive"; "remoteok"]
                       "jobs.csv" "csv" ["Engineer"]))
         [] (Ok 0).
Proof.
  split; [|split].
  - destruct (main_dispatch Demo.env empty_world
                (Cli.mk_Namespace " , ," "" "jobs.csv" "csv")) as [H _].
    apply H. reflexivity.
  - vm_compute. reflexivity.
  - destruct (main_dispatch Demo.env empty_world Demo.args) as [_ H].
    destruct H as (_ & _ & _ & H); [reflexivity|].
    rewrite H. vm_compute. reflexivity.
Defined.

Lemma names_of_joined_witness :
  Cli.default_sources = "remotive,remoteok,weworkremotely"
  /\ Cli.names Cli.default_sources = PORTALS.
Proof.
  split; [reflexivity|].
  apply (names_of_joined PORTALS). repeat constructor.
Defined.

Lemma main_accepted_format_witness :
  let given := Cli.mk_Given (Some "remotive") None (Some "nodir/jobs.csv")
                            (Some "csv") in
  let args := Cli.mk_Namespace "remotive" "" "nodir/jobs.csv" "csv" in
  let ran := main Demo.env Demo.world args in
  Cli.parse_args given = Some args
  /\ Cli.parse_args (Cli.mk_Given None None None (Some "xml")) = None
  /\ Cli.returned ran = Raised OSError
  /\ Spec.supported_format (Cli.format args) = true
  /\ (exists sink,
        Facts.sink_of (Cli.format args) (Cli.output args) [Demo.engineer]
        = Some sink
        /\ In sink (events (Cli.world ran))
        /\ Cli.returned ran
           = match snd (Facts.load (Cli.format args) [Demo.engineer]
                          (Cli.output args)
                          (log sink (Spec.logged Demo.world ["remotive"]))) with
             | Ok _ => Ok 0
             | Raised e => Raised e
             end)
  /\ Cli.returned ran
     <> Raised (ValueError ("Unsupported format: " ++ Cli.format args)).
Proof.
  intros given args ran. split; [reflexivity|]. split; [reflexivity|].
  split; [vm_compute; reflexivity|].
  apply (main_accepted_format Demo.env Demo.world
           (Spec.logged Demo.world ["remotive"]) given args
           [Demo.engineer] [Demo.engineer] [Demo.engineer]).
  - reflexivity.
  - discriminate.
  - reflexivity.
  - vm_compute. reflexivity.
  - vm_compute. reflexivity.
Defined.

Lemma text_of_first_child_witness :
  let item :=
    Xml.mk_Element "item" None
      [Demo.leaf "title" " Dev "; Demo.leaf "category" " Programming ";
       Demo.leaf "category" "Back-End"; Xml.mk_Element "link" None []] in
  text_of item "company" = ""
  /\ text_of item "category" = "Programming"
  /\ text_of item "link" = "".
Proof.
  intro item. destruct (text_of_first_child item "company") as (_ & H & _).
  destruct (text_of_first_child item "category") as (_ & _ & Hc).
  destruct (text_of_first_child item "link") as (_ & _ & Hl).
  split; [|split].
  - apply H. intros child [<-|[<-|[<-|[<-|[]]]]]; discriminate.
  - apply (Hc [Demo.leaf "title" " Dev "] (Demo.leaf "category" " Programming ")
              [Demo.leaf "category" "Back-End"; Xml.mk_Element "link" None []]).
    + reflexivity.
    + intros other [<-|[]]. discriminate.
    + reflexivity.
  - apply (Hl [Demo.leaf "title" " Dev "; Demo.leaf "category" " Programming ";
               Demo.leaf "category" "Back-End"]
              (Xml.mk_Element "link" None []) []).
    + reflexivity.
    + intros other [<-|[<-|[<-|[]]]]; discriminate.
    + reflexivity.
Defined.

Lemma weworkremotely_source_id_witness :
  WeWorkRemotelyPortal_extract Demo.rss = [Demo.rss_record]
  /\ source Demo.rss_record = "weworkremotely"
  /\ Text.lacks "/" (source_id Demo.rss_record) = true
  /\ (url Demo.rss_record = source_id Demo.rss_record
      \/ exists head,
           url Demo.rss_record = head ++ "/" ++ source_id Demo.rss_record).
Proof.
  split; [vm_compute; reflexivity|].
  apply (weworkremotely_source_id Demo.rss Demo.rss_record). now left.
Defined.

Lemma weworkremotely_transform_witness :
  transform_record Demo.rss_record
  = (date <- normalize_date (date_posted Demo.rss_record) ;;
     Ok (Facts.with_date Demo.rss_record date))
  /\ transform_record Demo.rss_record
     = Ok (Facts.with_date Demo.rss_record "2024-06-01T10:00:00+00:00").
Proof.
  split; [|vm_compute; reflexivity].
  apply (weworkremotely_transform Demo.rss Demo.rss_record). now left.
Defined.


Lemma remoteok_extract_skips_witness :
  RemoteOkPortal_extract Demo.py (Json.Array Demo.remoteok_jobs)
  = RemoteOkPortal_extract Demo.py
      (Json.Array [Json.Object Demo.remoteok_fields])
  /\ RemoteOkPortal_extract Demo.py (Json.Array Demo.remoteok_jobs)
     = Json.Got [Demo.remoteok_loose]
  /\ List.length [Demo.remoteok_loose]
     = List.length (filter is_listing Demo.remoteok_jobs).
Proof.
  destruct (remoteok_extract_skips Demo.py Demo.remoteok_jobs) as [Hs Hl].
  assert (RemoteOkPortal_extract Demo.py (Json.Array Demo.remoteok_jobs)
          = Json.Got [Demo.remoteok_loose]) as H by (vm_compute; reflexivity).
  split; [exact Hs|]. split; [exact H|]. exact (Hl _ H).
Defined.

Lemma remoteok_extract_not_a_list_witness :
  RemoteOkPortal_extract Demo.py
    (Json.Object [("error", Json.Text "rate limited")]) = Json.Got []
  /\ RemoteOkPortal_extract Demo.py (Json.Text "Too Many Requests") = Json.Got []
  /\ RemoteOkPortal_extract Demo.py Json.Null = Json.Threw Json.TypeError.
Proof.
  destruct (remoteok_extract_not_a_list Demo.py) as (Ho & Ht & Hn).
  split; [apply Ho|]. split; [apply Ht|]. apply Hn. reflexivity.
Defined.

Lemma remoteok_epoch_listing_witness :
  RemoteOkPortal_record Demo.py (Json.Object Demo.remoteok_fields)
  = Json.Got Demo.remoteok_loose
  /\ to_record Demo.remoteok_loose = Some Demo.remoteok_record
  /\ date_posted Demo.remoteok_record = Text.of_int 1717326000
  /\ exists r',
       transform_record Demo.remoteok_record = Ok r'
       /\ parse_datetime (date_posted r') = Ok None
       /\ forall env records titles out,
            filter_jobs env records titles = Ok out -> ~ In r' out.
Proof.
  assert (RemoteOkPortal_record Demo.py (Json.Object Demo.remoteok_fields)
          = Json.Got Demo.remoteok_loose) as H by (vm_compute; reflexivity).
  split; [exact H|]. split; [reflexivity|].
  apply (remoteok_epoch_listing Demo.py Demo.remoteok_fields 1717326000
           Demo.remoteok_loose Demo.remoteok_record).
  - reflexivity.
  - vm_compute. split; discriminate.
  - exact H.
  - reflexivity.
Defined.

Lemma normalize_date_without_offset_witness :
  Spec.naive_string 2024 6 1 10 0 0 = "2024-06-01T10:00:00"
  /\ parse_datetime "2024-06-01T10:00:00" = Ok None
  /\ normalize_date "2024-06-01T10:00:00" = Ok "".
Proof.
  split; [reflexivity|].
  destruct (normalize_date_without_offset 2024 6 1 10 0 0) as (Hp & Hn & _);
    [reflexivity|reflexivity|].
  split; [exact Hp|exact Hn].
Defined.
